(** * goinvestigate: a shallow embedding of the Investigate API client

    The development follows the Go sources of the repository:

    - the typed response records and their hand-written JSON decoders
      ([CooccurrenceList.UnmarshalJSON], [RelatedDomainList.UnmarshalJSON],
      [GeoFeatures.UnmarshalJSON]);
    - the typed client ([Request], [Get], [catUri], [Categorization],
      [DomainRRHistory], [IpRRHistory], [GetParse], [parseBody]);
    - the generic client ([RRHistory] over [interface{}] results);
    - the batch client ([doPGetParse], [pGetParse]) with its goroutines and
      channels, given as a small-step transition system.

    Go library functions the sources call but do not define (the JSON text
    parser, [url.Parse], the HTTP round trip, the reflective stream decoder)
    are parameters of the sections that use them. *)

From Stdlib Require Import ZArith List Lia Floats Bool Ascii String.
From stdpp Require Import base strings gmap list.

Set Warnings "-register-all,-inexact-float".

Local Open Scope string_scope.
Local Open Scope list_scope.

(** ** Go values *)

Module Go.

(** The value [json.Unmarshal] stores in an [interface{}]: [nil], [bool],
    [float64], [string], [[]interface{}] or [map[string]interface{}].  A map
    is kept as an association list read by its first binding of a key. *)
Inductive value : Type :=
| VNil
| VBool (b : bool)
| VFloat64 (f : float)
| VString (s : string)
| VSlice (l : list value)
| VMap (m : list (string * value)).

(** [map[string]interface{}] *)
Definition gomap : Type := list (string * value).

(** Go's [error] values of this package.  [errors.New(fmt.Sprintf(f, x))] is
    kept as the format string with its argument; [Error] of such a value is
    that format applied to the argument. *)
Inductive error : Type :=
| errorString (s : string)
| errorf_value (format : string) (raw : value)
| errorf_error (format : string) (err : option error)
| JSONDecodeError (Err : error) (Body : list Byte.byte).

(** A run-time panic of the Go program. *)
Inductive panic : Type :=
| IndexOutOfRange (index len : nat)
| NilDereference.

(** What a call does: it returns normally with [a], it returns the non-nil
    error [e], it panics, or it ends the process through [log.Fatal(e)]. *)
Inductive outcome (A : Type) : Type :=
| Ok (a : A)
| Err (e : error)
| Panic (p : panic)
| Fatal (e : error).
Arguments Ok {A} a.
Arguments Err {A} e.
Arguments Panic {A} p.
Arguments Fatal {A} e.

Definition bind {A B : Type} (x : outcome A) (k : A -> outcome B) : outcome B :=
  match x with
  | Ok a => k a
  | Err e => Err e
  | Panic p => Panic p
  | Fatal e => Fatal e
  end.

(** [m[k]] on a map: the zero value [nil] for a missing key. *)
Fixpoint map_lookup (m : gomap) (k : string) : option value :=
  match m with
  | [] => None
  | (k', v) :: rest => if String.eqb k' k then Some v else map_lookup rest k
  end.

Definition map_index (m : gomap) (k : string) : value :=
  match map_lookup m k with
  | Some v => v
  | None => VNil
  end.

(** [s[i]] on a slice: an index out of range panics. *)
Definition index (s : list value) (i : nat) : outcome value :=
  match nth_error s i with
  | Some v => Ok v
  | None => Panic (IndexOutOfRange i (length s))
  end.

(** The type assertions [v.([]interface{})], [v.(string)], [v.(float64)]
    in their two-result form: [None] is [ok = false]. *)
Definition as_slice (v : value) : option (list value) :=
  match v with VSlice l => Some l | _ => None end.

Definition as_string (v : value) : option string :=
  match v with VString s => Some s | _ => None end.

Definition as_float64 (v : value) : option float :=
  match v with VFloat64 f => Some f | _ => None end.

(** [int(s)] for [s float64], with Go's 64-bit [int]: the fraction is
    discarded (truncation towards zero).  Where the result does not fit, Go
    leaves the value to the implementation; the amd64 result [-2^63] is
    used. *)
Definition min_int : Z := - 2 ^ 63.
Definition max_int : Z := 2 ^ 63 - 1.

Definition trunc_SF (x : SpecFloat.spec_float) : option Z :=
  match x with
  | SpecFloat.S754_zero _ => Some 0%Z
  | SpecFloat.S754_finite sign m e =>
      let mag := if (0 <=? e)%Z then (Z.pos m * 2 ^ e)%Z
                 else (Z.pos m / 2 ^ (- e))%Z in
      Some (if sign then (- mag)%Z else mag)
  | SpecFloat.S754_infinity _ => None
  | SpecFloat.S754_nan => None
  end.

Definition int_of_float64 (s : float) : Z :=
  match trunc_SF (Prim2SF s) with
  | Some z => if ((min_int <=? z) && (z <=? max_int))%Z then z else min_int
  | None => min_int
  end.

End Go.

Notation "'let*' x ':=' c1 'in' c2" := (Go.bind c1 (fun x => c2))
  (at level 10, x name, c1 at level 100, c2 at level 200).

(** ** The typed response records and their JSON decoders *)

Module Types.
Import Go.

Record DomainCategorization : Type := {
  Status : Z;
  ContentCategories : list string;
  SecurityCategories : list string
}.

Record Cooccurrence : Type := {
  Cooccurrence_Domain : string;
  Cooccurrence_Score : float
}.

Record CooccurrenceList : Type := {
  Cooccurrences : list Cooccurrence
}.

Record RelatedDomain : Type := {
  Domain : string;
  Score : Z
}.

Record RelatedDomainList : Type := {
  RelatedDomains : list RelatedDomain
}.

Record GeoFeatures : Type := {
  CountryCode : string;
  VisitRatio : float
}.

(** [malfErr := errors.New(fmt.Sprintf("malformed object: %v", raw))] *)
Definition malfErr (raw : value) : error :=
  errorf_value "malformed object: %v" raw.

(** The generic decoding [json.Unmarshal(b, &raw)] of the standard library
    is a parameter: [inr v] is the decoded [interface{}] value, [inl e] the
    syntax error. *)
Section Decoders.

Variable json_Unmarshal : list Byte.byte -> error + value.

(** [json.Unmarshal(b, &raw)] for [var raw map[string]interface{}]: an
    object fills the map, [null] leaves it nil, any other JSON value is an
    [UnmarshalTypeError]. *)
Definition UnmarshalTypeError (v : value) : error :=
  errorf_value "json: cannot unmarshal %v into Go value of type map[string]interface {}" v.

Definition json_Unmarshal_map (b : list Byte.byte) : error + gomap :=
  match json_Unmarshal b with
  | inl e => inl e
  | inr (VMap m) => inr m
  | inr VNil => inr []
  | inr v => inl (UnmarshalTypeError v)
  end.

(** The [for _, c := range coocs] loop of [CooccurrenceList.UnmarshalJSON];
    [acc] is [cl.Cooccurrences]. *)
Fixpoint CooccurrenceList_range (raw : gomap) (coocs : list value)
    (acc : list Cooccurrence) : outcome (list Cooccurrence) :=
  match coocs with
  | [] => Ok acc
  | c :: rest =>
      match as_slice c with
      | None => Err (malfErr (VMap raw))
      | Some double =>
          let* d0 := index double 0 in
          match as_string d0 with
          | None => Err (malfErr (VMap raw))
          | Some d =>
              let* d1 := index double 1 in
              match as_float64 d1 with
              | None => Err (malfErr (VMap raw))
              | Some s =>
                  CooccurrenceList_range raw rest
                    (acc ++ [ {| Cooccurrence_Domain := d; Cooccurrence_Score := s |} ])
              end
          end
      end
  end.

(** The body of [CooccurrenceList.UnmarshalJSON] after [raw] is decoded. *)
Definition CooccurrenceList_of_raw (raw : gomap) : outcome CooccurrenceList :=
  match as_slice (map_index raw "pfs2") with
  | None => Err (malfErr (VMap raw))
  | Some coocs =>
      let* l := CooccurrenceList_range raw coocs [] in
      Ok {| Cooccurrences := l |}
  end.

(** [func (r *CooccurrenceList) UnmarshalJSON(b []byte) error]: [Ok cl] is
    the nil error with [*r = cl]; on [Err] the receiver is left as it was. *)
Definition CooccurrenceList_UnmarshalJSON (b : list Byte.byte)
    : outcome CooccurrenceList :=
  match json_Unmarshal_map b with
  | inl err => Err err
  | inr raw => CooccurrenceList_of_raw raw
  end.

(** The [for _, r := range rds] loop of [RelatedDomainList.UnmarshalJSON];
    [acc] is [rl.RelatedDomains]. *)
Fixpoint RelatedDomainList_range (raw : gomap) (rds : list value)
    (acc : list RelatedDomain) : outcome (list RelatedDomain) :=
  match rds with
  | [] => Ok acc
  | r :: rest =>
      match as_slice r with
      | None => Err (malfErr (VMap raw))
      | Some double =>
          let* d0 := index double 0 in
          match as_string d0 with
          | None => Err (errorString "Could not convert double[0] to string")
          | Some d =>
              let* d1 := index double 1 in
              match as_float64 d1 with
              | None => Err (errorString "Could not convert double[1] to int")
              | Some s =>
                  RelatedDomainList_range raw rest
                    (acc ++ [ {| Domain := d; Score := int_of_float64 s |} ])
              end
          end
      end
  end.

Definition RelatedDomainList_of_raw (raw : gomap) : outcome RelatedDomainList :=
  match as_slice (map_index raw "tb1") with
  | None => Err (malfErr (VMap raw))
  | Some rds =>
      let* l := RelatedDomainList_range raw rds [] in
      Ok {| RelatedDomains := l |}
  end.

(** [func (r *RelatedDomainList) UnmarshalJSON(b []byte) error] *)
Definition RelatedDomainList_UnmarshalJSON (b : list Byte.byte)
    : outcome RelatedDomainList :=
  match json_Unmarshal_map b with
  | inl err => Err err
  | inr raw => RelatedDomainList_of_raw raw
  end.

(** The body of [GeoFeatures.UnmarshalJSON] after [raw] is decoded. *)
Definition GeoFeatures_of_raw (raw : value) : outcome GeoFeatures :=
  match as_slice raw with
  | None => Err (malfErr raw)
  | Some gfList =>
      let* g0 := index gfList 0 in
      match as_string g0 with
      | None => Err (malfErr raw)
      | Some cc =>
          let* g1 := index gfList 1 in
          match as_float64 g1 with
          | None => Err (malfErr raw)
          | Some vr => Ok {| CountryCode := cc; VisitRatio := vr |}
          end
      end
  end.

(** [func (gf *GeoFeatures) UnmarshalJSON(b []byte) error] *)
Definition GeoFeatures_UnmarshalJSON (b : list Byte.byte) : outcome GeoFeatures :=
  match json_Unmarshal b with
  | inl err => Err err
  | inr raw => GeoFeatures_of_raw raw
  end.

End Decoders.

End Types.

(** The remaining records of the typed API. *)
Module Records.

Record SecurityFeatures : Type := {
  DGAScore : float;
  Perplexity : float;
  Entropy : float;
  SecureRank2 : float;
  PageRank : float;
  ASNScore : float;
  PrefixScore : float;
  RIPScore : float;
  Fastflux : bool;
  Popularity : float;
  Geodiversity : list Types.GeoFeatures;
  GeodiversityNormalized : list Types.GeoFeatures;
  TLDGeodiversity : list Types.GeoFeatures;
  Geoscore : float;
  KSTest : float;
  Handlings : string;
  Attack : string;
  ThreatType : string
}.

Record PeriodType : Type := { Begin : string; End_ : string }.

Record DomainTag : Type := {
  Url : string;
  Category : string;
  Period : PeriodType
}.

Record ResourceRecord : Type := {
  Name : string;
  TTL : Z;
  Class_ : string;
  Type_ : string;
  RR : string
}.

Record ResourceRecordPeriod : Type := {
  FirstSeen : string;
  LastSeen : string;
  RRs : list ResourceRecord
}.

Record Location : Type := { Lat : float; Lon : float }.

Record DomainResourceRecordFeatures : Type := {
  Age : Z;
  TTLsMin : Z;
  TTLsMax : Z;
  TTLsMean : Z;
  TTLsMedian : Z;
  TTLsStdDev : Z;
  CountryCodes : list string;
  ASNs : list Z;
  Prefixes : list string;
  RIPSCount : Z;
  RIPSDiversity : float;
  Locations : list Location;
  GeoDistanceSum : float;
  GeoDistanceMean : float;
  NonRoutable : bool;
  MailExchanger : bool;
  CName : bool;
  FFCandidate : bool;
  RIPSStability : float
}.

Record DomainRRHistory : Type := {
  RRPeriods : list ResourceRecordPeriod;
  DomainRRFeatures : DomainResourceRecordFeatures
}.

Record IPResourceRecordFeatures : Type := {
  RRCount : Z;
  LD2Count : Z;
  LD3Count : Z;
  LD21Count : Z;
  LD22Count : Z;
  DivLD2 : float;
  DivLD3 : float;
  DivLD21 : float;
  DivLD22 : float
}.

Record IPRRHistory : Type := {
  IPRRs : list ResourceRecord;
  IPRRFeatures : IPResourceRecordFeatures
}.

Record MaliciousDomain : Type := {
  MaliciousDomain_Domain : string;
  Id : Z
}.

Definition zero_float : float := 0%float.

(** [new(T)]: the zero values. *)
Definition new_SecurityFeatures : SecurityFeatures :=
  {| DGAScore := zero_float; Perplexity := zero_float; Entropy := zero_float;
     SecureRank2 := zero_float; PageRank := zero_float; ASNScore := zero_float;
     PrefixScore := zero_float; RIPScore := zero_float; Fastflux := false;
     Popularity := zero_float; Geodiversity := []; GeodiversityNormalized := [];
     TLDGeodiversity := []; Geoscore := zero_float; KSTest := zero_float;
     Handlings := ""; Attack := ""; ThreatType := "" |}.

Definition new_DomainRRHistory : DomainRRHistory :=
  {| RRPeriods := [];
     DomainRRFeatures :=
       {| Age := 0; TTLsMin := 0; TTLsMax := 0; TTLsMean := 0; TTLsMedian := 0;
          TTLsStdDev := 0; CountryCodes := []; ASNs := []; Prefixes := [];
          RIPSCount := 0; RIPSDiversity := zero_float; Locations := [];
          GeoDistanceSum := zero_float; GeoDistanceMean := zero_float;
          NonRoutable := false; MailExchanger := false; CName := false;
          FFCandidate := false; RIPSStability := zero_float |} |}.

Definition new_IPRRHistory : IPRRHistory :=
  {| IPRRs := [];
     IPRRFeatures :=
       {| RRCount := 0; LD2Count := 0; LD3Count := 0; LD21Count := 0;
          LD22Count := 0; DivLD2 := zero_float; DivLD3 := zero_float;
          DivLD21 := zero_float; DivLD22 := zero_float |} |}.

End Records.

(** ** The parts of [net/http], [net/url], [io] and [fmt] the client uses *)

Module Http.
Import Go.

(** An [io.ReadCloser]: the bytes not yet read, the error a read reports once
    they are exhausted ([None] for a plain end of file), and how often
    [Close] was called. *)
Record Reader : Type := {
  unread : list Byte.byte;
  read_err : option error
}.

Record ReadCloser : Type := {
  reader : Reader;
  closes : nat
}.

Definition Close (rc : ReadCloser) : ReadCloser :=
  {| reader := reader rc; closes := S (closes rc) |}.

(** [ioutil.ReadAll(r)]: everything that is still unread. *)
Definition ReadAll (r : Reader) : (list Byte.byte * option error) * Reader :=
  ((unread r, read_err r), {| unread := []; read_err := read_err r |}).

Record Request : Type := {
  Method : string;
  RawURL : string;
  Authorization : string;
  ReqBody : option (list Byte.byte)
}.

Record Response : Type := {
  StatusCode : Z;
  Body : option ReadCloser
}.

(** [new(http.Response)] *)
Definition new_Response : Response := {| StatusCode := 0; Body := None |}.

(** What [http.Client.Do] returns: a response with a nil error, or a non-nil
    error (whose response, if any, the callers here discard). *)
Inductive DoResult : Type :=
| DoResponse (resp : Response)
| DoError (err : error).

(** A [url.URL] as this package uses it: [url.Parse] builds it, the package
    assigns [RawQuery] and calls [String].  [before_query] is what [String]
    writes ahead of the query (scheme, authority, escaped path) and
    [after_query] what it writes behind it (the fragment with its [#]). *)
Record URL : Type := {
  before_query : string;
  ForceQuery : bool;
  RawQuery : string;
  after_query : string
}.

Definition set_RawQuery (u : URL) (q : string) : URL :=
  {| before_query := before_query u; ForceQuery := ForceQuery u;
     RawQuery := q; after_query := after_query u |}.

Definition URL_String (u : URL) : string :=
  (before_query u
   ++ (if ForceQuery u || negb (String.eqb (RawQuery u) "")
       then "?" ++ RawQuery u else "")
   ++ after_query u)%string.

(** [url.Values], a [map[string][]string], kept sorted by key as [Encode]
    reads it. *)
Definition Values : Type := list (string * list string).

Fixpoint Values_Set (v : Values) (key value : string) : Values :=
  match v with
  | [] => [(key, [value])]
  | (k, vs) :: rest =>
      if String.eqb k key then (key, [value]) :: rest
      else if String.ltb key k then (key, [value]) :: (k, vs) :: rest
      else (k, vs) :: Values_Set rest key value
  end.

Definition unreserved (c : ascii) : bool :=
  let n := nat_of_ascii c in
  ((48 <=? n)%nat && (n <=? 57)%nat) || ((65 <=? n)%nat && (n <=? 90)%nat)
  || ((97 <=? n)%nat && (n <=? 122)%nat)
  || (n =? 45)%nat || (n =? 95)%nat || (n =? 46)%nat || (n =? 126)%nat.

Definition upperhex (n : nat) : ascii :=
  nth n (list_ascii_of_string "0123456789ABCDEF") "0"%char.

(** [url.QueryEscape] *)
Fixpoint QueryEscape (s : string) : string :=
  match s with
  | EmptyString => ""
  | String c rest =>
      ((if unreserved c then String c ""
        else if Ascii.eqb c " "%char then "+"
        else String "%"%char
               (String (upperhex (nat_of_ascii c / 16))
                  (String (upperhex (nat_of_ascii c mod 16)) "")))
       ++ QueryEscape rest)%string
  end.

Definition join_amp (parts : list string) : string :=
  match parts with
  | [] => ""
  | p :: ps => fold_left (fun acc q => (acc ++ "&" ++ q)%string) ps p
  end.

(** [Values.Encode]: ["k=v"] for every value of every key, keys in order,
    joined by [&]. *)
Definition Values_Encode (v : Values) : string :=
  join_amp
    (flat_map (fun '(k, vs) => map (fun x => (QueryEscape k ++ "=" ++ QueryEscape x)%string) vs) v).

(** [fmt.Sprintf] for formats whose only verb is [%s], with string
    arguments. *)
Fixpoint Sprintf (format : string) (args : list string) : string :=
  match format with
  | EmptyString => ""
  | String c rest =>
      match rest with
      | String c' rest' =>
          if Ascii.eqb c "%"%char && Ascii.eqb c' "s"%char then
            match args with
            | a :: args' => (a ++ Sprintf rest' args')%string
            | [] => ("%!s(MISSING)" ++ Sprintf rest' [])%string
            end
          else String c (Sprintf rest args)
      | EmptyString => String c ""
      end
  end.

End Http.

(** ** The typed client (goinvestigate.go) *)

Module Investigate.
Import Go Http.

Definition baseUrl : string := "https://investigate.api.opendns.com".
Definition maxTries : nat := 5.

(** format strings for API URIs *)
Definition urls : gmap string string :=
  list_to_map
    [ ("ip", "/dnsdb/ip/%s/%s.json");
      ("domain", "/dnsdb/name/%s/%s.json");
      ("categorization", "/domains/categorization/%s");
      ("related", "/links/name/%s.json");
      ("cooccurrences", "/recommendations/name/%s.json");
      ("security", "/security/name/%s.json");
      ("tags", "/domains/%s/latest_tags");
      ("latest_domains", "/ips/%s/latest_domains") ].

(** [urls[k]]: the empty string for a key the map lacks. *)
Definition urls_at (k : string) : string := default "" (urls !! k).

Definition supportedQueryTypes : gmap string Z :=
  list_to_map [ ("A", 1%Z); ("NS", 1%Z); ("MX", 1%Z); ("TXT", 1%Z); ("CNAME", 1%Z) ].

(** The fields of [Investigate] the model reads; the HTTP client is the
    transport parameter below and the logger is left out. *)
Record Investigate : Type := {
  key : string;
  verbose : bool
}.

Definition New (key : string) : Investigate := {| key := key; verbose := false |}.

Definition queryTypeSupported (qType : string) : bool :=
  match supportedQueryTypes !! qType with
  | Some _ => true
  | None => false
  end.

(** The dynamic types [parseBody] switches on, and what a value of each
    holds.  [KOther] stands for every type outside the switch. *)
Inductive kind : Type :=
| KCooccurrenceList
| KRelatedDomainList
| KMaliciousDomains
| KCategorizations
| KSecurityFeatures
| KDomainTags
| KDomainRRHistory
| KIPRRHistory
| KOther.

Definition pointee (k : kind) : Type :=
  match k with
  | KCooccurrenceList => Types.CooccurrenceList
  | KRelatedDomainList => Types.RelatedDomainList
  | KMaliciousDomains => list Records.MaliciousDomain
  | KCategorizations => gmap string Types.DomainCategorization
  | KSecurityFeatures => Records.SecurityFeatures
  | KDomainTags => list Records.DomainTag
  | KDomainRRHistory => Records.DomainRRHistory
  | KIPRRHistory => Records.IPRRHistory
  | KOther => unit
  end.

Definition supported_kind (k : kind) : bool :=
  match k with KOther => false | _ => true end.

(** [errors.New(fmt.Sprintf("error: %v\nFailed all attempts. Skipping.", err))] *)
Definition failed_all_attempts (err : option error) : error :=
  errorf_error "error: %v\nFailed all attempts. Skipping." err.

Section Client.

(** The transport behind [inv.client.Do], as a transition of its own state;
    [url.Parse]; and [json.Decoder.Decode] into a value of each kind, which
    consumes from the reader, updates the value and returns its error. *)
Context {TS : Type}.
Variable RoundTrip : TS -> Request -> DoResult * TS.
Variable url_Parse : string -> error + URL.
Variable json_Decode :
  forall k : kind, Reader -> pointee k -> Reader * pointee k * outcome unit.

(** The network as the client sees it: the transport state and the log of
    the requests handed to [Do]. *)
Record Net : Type := {
  transport : TS;
  calls : list Request
}.

Definition client_Do (n : Net) (req : Request) : DoResult * Net :=
  let '(r, t) := RoundTrip (transport n) req in
  (r, {| transport := t; calls := calls n ++ [req] |}).

Definition set_Authorization (req : Request) (v : string) : Request :=
  {| Method := Method req; RawURL := RawURL req; Authorization := v;
     ReqBody := ReqBody req |}.

Definition is_nil {A : Type} (x : option A) : bool :=
  match x with None => true | Some _ => false end.

(** The [for ; resp.Body == nil && tries < maxTries; tries++] loop of
    [Request].  [fuel] bounds the iterations; [maxTries - tries] is enough
    (lemma [Request_loop_fuel]). *)
Fixpoint Request_loop (fuel : nat) (req : Request) (tries : nat)
    (resp : Response) (err : option error) (n : Net)
    : (option Response * option error) * Net :=
  match fuel with
  | O => ((Some resp, err), n)
  | S fuel' =>
      if is_nil (Body resp) && (tries <? maxTries)%nat then
        match client_Do n req with
        | (DoError e, n') =>
            if (tries =? maxTries - 1)%nat
            then ((None, Some (failed_all_attempts (Some e))), n')
            else Request_loop fuel' req (S tries) new_Response (Some e) n'
        | (DoResponse r, n') =>
            if (300 <=? StatusCode r)%Z then
              if (tries =? maxTries - 1)%nat
              then ((None, Some (failed_all_attempts None)), n')
              else Request_loop fuel' req (S tries) new_Response None n'
            else Request_loop fuel' req (S tries) r None n'
        end
      else ((Some resp, err), n)
  end.

(** [Request]: the response and the error it returns, and the network
    after it. *)
Definition Request (inv : Investigate) (req : Request) (n : Net)
    : (option Response * option error) * Net :=
  Request_loop maxTries
    (set_Authorization req (Sprintf "Bearer %s" [key inv])) 0 new_Response None n.

(** [http.NewRequest]: it fails when the URL does not parse. *)
Definition NewRequest (method url : string) (body : option (list Byte.byte))
    : error + Http.Request :=
  match url_Parse url with
  | inl e => inl e
  | inr _ => inr {| Method := method; RawURL := url; Authorization := "";
                    ReqBody := body |}
  end.

Definition Get (inv : Investigate) (subUri : string) (n : Net)
    : (option Response * option error) * Net :=
  match NewRequest "GET" (baseUrl ++ subUri)%string None with
  | inl err =>
      ((None, Some (errorf_error "Error processing GET request: %v" (Some err))), n)
  | inr req => Request inv req n
  end.

Definition catUri (domain : string) (labels : bool) : outcome string :=
  match url_Parse (Sprintf (urls_at "categorization") [domain]) with
  | inl err => Fatal err
  | inr uri =>
      let v : Values := [] in
      let v := if labels then Values_Set v "showLabels" "true" else v in
      let uri := set_RawQuery uri (Values_Encode v) in
      Ok (URL_String uri)
  end.

(** [func parseBody(respBody io.ReadCloser, v interface{}) (err error)]:
    the stream after the call, the value [v] refers to after the call, and
    the returned error ([Ok tt] for nil).  The deferred [Close] runs on
    every way out, a panic of the decoder included. *)
Definition parseBody {k : kind} (respBody : ReadCloser) (v : pointee k)
    : ReadCloser * pointee k * outcome unit :=
  let '(rd, v', res) :=
    if supported_kind k then json_Decode k (reader respBody) v
    else (reader respBody, v, Err (errorString "type of v is unsupported")) in
  match res with
  | Err err =>
      let '((body, readErr), rd') := ReadAll rd in
      let final := Close {| reader := rd'; closes := closes respBody |} in
      match readErr with
      | Some _ => (final, v', Err err)
      | None => (final, v', Err (JSONDecodeError err body))
      end
  | _ => (Close {| reader := rd; closes := closes respBody |}, v', res)
  end.

(** [func (inv *Investigate) GetParse(subUri string, v interface{}) error] *)
Definition GetParse {k : kind} (inv : Investigate) (subUri : string)
    (v : pointee k) (n : Net) : (pointee k * outcome unit) * Net :=
  let '((resp, err), n') := Get inv subUri n in
  match err with
  | Some e => ((v, Err e), n')
  | None =>
      match resp with
      | None => ((v, Panic NilDereference), n')
      | Some r =>
          match Body r with
          | None => ((v, Panic NilDereference), n')
          | Some body =>
              let '(_, v', res) := parseBody body v in ((v', res), n')
          end
      end
  end.

(** [Categorization(domain, labels)]: the record it points to, or the error. *)
Definition Categorization (inv : Investigate) (domain : string) (labels : bool)
    (n : Net) : outcome Types.DomainCategorization * Net :=
  match catUri domain labels with
  | Ok uri =>
      let '((resp, res), n') := GetParse (k := KCategorizations) inv uri ∅ n in
      match res with
      | Ok _ =>
          match resp !! domain with
          | None => (Err (errorString "received a malformed response body"), n')
          | Some cat => (Ok cat, n')
          end
      | Err e => (Err e, n')
      | Panic p => (Panic p, n')
      | Fatal e => (Fatal e, n')
      end
  | Err e => (Err e, n)
  | Panic p => (Panic p, n)
  | Fatal e => (Fatal e, n)
  end.

(** [IpRRHistory(ip, queryType)] *)
Definition IpRRHistory (inv : Investigate) (ip queryType : string) (n : Net)
    : outcome Records.IPRRHistory * Net :=
  if negb (queryTypeSupported queryType)
  then (Err (errorString "unsupported query type"), n)
  else
    let '((resp, res), n') :=
      GetParse (k := KIPRRHistory) inv (Sprintf (urls_at "ip") [queryType; ip])
        Records.new_IPRRHistory n in
    match res with
    | Ok _ => (Ok resp, n')
    | Err e => (Err e, n')
    | Panic p => (Panic p, n')
    | Fatal e => (Fatal e, n')
    end.

(** [DomainRRHistory(domain, queryType)] *)
Definition DomainRRHistory (inv : Investigate) (domain queryType : string)
    (n : Net) : outcome Records.DomainRRHistory * Net :=
  if negb (queryTypeSupported queryType)
  then (Err (errorString "unsupported query type"), n)
  else
    let '((resp, res), n') :=
      GetParse (k := KDomainRRHistory) inv
        (Sprintf (urls_at "domain") [queryType; domain])
        Records.new_DomainRRHistory n in
    match res with
    | Ok _ => (Ok resp, n')
    | Err e => (Err e, n')
    | Panic p => (Panic p, n')
    | Fatal e => (Fatal e, n')
    end.

End Client.

End Investigate.

(** ** The generic client (results as [interface{}]) *)

Module Generic.
Import Go Http.

Definition baseUrl : string := "https://investigate.api.opendns.com".
Definition maxTries : nat := 5.

Definition urls : gmap string string :=
  list_to_map
    [ ("ip", "/dnsdb/ip/%s/%s.json");
      ("domain", "/dnsdb/name/%s/%s.json");
      ("categorization", "/domains/categorization/%s");
      ("related", "/links/name/%s.json");
      ("cooccurrences", "/recommendations/name/%s.json");
      ("security", "/security/name/%s.json");
      ("tags", "/domains/%s/latest_tags") ].

Definition urls_at (k : string) : string := default "" (urls !! k).

Definition supportedQueryTypes : gmap string Z :=
  list_to_map [ ("A", 1%Z); ("NS", 1%Z); ("MX", 1%Z); ("TXT", 1%Z); ("CNAME", 1%Z) ].

Definition is_digit (c : ascii) : bool :=
  let n := nat_of_ascii c in ((48 <=? n)%nat && (n <=? 57)%nat).

(** The regular expression [(\d{1,3}\.){3}\d{1,3}] of [RRHistory], matched
    as [regexp.MatchString] does: anywhere in the string.  The pattern is a
    valid constant, so the error [MatchString] returns is always nil. *)
Definition digits_1_3 (s : string) (k : string -> bool) : bool :=
  match s with
  | String c1 r1 =>
      is_digit c1 &&
      (k r1 ||
       match r1 with
       | String c2 r2 =>
           is_digit c2 &&
           (k r2 ||
            match r2 with
            | String c3 r3 => is_digit c3 && k r3
            | EmptyString => false
            end)
       | EmptyString => false
       end)
  | EmptyString => false
  end.

Definition dot (s : string) (k : string -> bool) : bool :=
  match s with
  | String c r => Ascii.eqb c "."%char && k r
  | EmptyString => false
  end.

Definition match_ip_here (s : string) : bool :=
  digits_1_3 s (fun s => dot s (fun s =>
  digits_1_3 s (fun s => dot s (fun s =>
  digits_1_3 s (fun s => dot s (fun s =>
  digits_1_3 s (fun _ => true))))))).

Fixpoint match_ip (s : string) : bool :=
  match_ip_here s ||
  match s with
  | String _ r => match_ip r
  | EmptyString => false
  end.

Definition failed_all_attempts (err : option error) : error :=
  errorf_error "error: %v\nFailed all attempts. Skipping." err.

Section Client.

Context {TS : Type}.
Variable RoundTrip : TS -> Request -> DoResult * TS.
Variable url_Parse : string -> error + URL.
(** [d.Decode(&respJson)] for [respJson interface{}]: what is left of the
    reader, the decoded value ([VNil] when nothing was stored) and the
    error. *)
Variable json_Decode : Reader -> Reader * (value * option error).

Record Net : Type := {
  transport : TS;
  calls : list Request
}.

Definition client_Do (n : Net) (req : Request) : DoResult * Net :=
  let '(r, t) := RoundTrip (transport n) req in
  (r, {| transport := t; calls := calls n ++ [req] |}).

Definition set_Authorization (req : Request) (v : string) : Request :=
  {| Method := Method req; RawURL := RawURL req; Authorization := v;
     ReqBody := ReqBody req |}.

Definition is_nil {A : Type} (x : option A) : bool :=
  match x with None => true | Some _ => false end.

(** The retry loop of [Request]; here only a non-nil error of [Do] counts
    as a failure. *)
Fixpoint Request_loop (fuel : nat) (req : Request) (tries : nat)
    (resp : Response) (err : option error) (n : Net)
    : (option Response * option error) * Net :=
  match fuel with
  | O => ((Some resp, err), n)
  | S fuel' =>
      if is_nil (Body resp) && (tries <? maxTries)%nat then
        match client_Do n req with
        | (DoError e, n') =>
            if (tries =? maxTries - 1)%nat
            then ((None, Some (failed_all_attempts (Some e))), n')
            else Request_loop fuel' req (S tries) new_Response (Some e) n'
        | (DoResponse r, n') => Request_loop fuel' req (S tries) r None n'
        end
      else ((Some resp, err), n)
  end.

Definition Request (key : string) (req : Request) (n : Net)
    : (option Response * option error) * Net :=
  Request_loop maxTries
    (set_Authorization req (Sprintf "Bearer %s" [key])) 0 new_Response None n.

Definition NewRequest (method url : string) (body : option (list Byte.byte))
    : error + Http.Request :=
  match url_Parse url with
  | inl e => inl e
  | inr _ => inr {| Method := method; RawURL := url; Authorization := "";
                    ReqBody := body |}
  end.

Definition Get (key : string) (subUri : string) (n : Net)
    : (option Response * option error) * Net :=
  match NewRequest "GET" (baseUrl ++ subUri)%string None with
  | inl err =>
      ((None, Some (errorf_error "Error processing GET request: %v" (Some err))), n)
  | inr req => Request key req n
  end.

(** [parseBody]: decode, then the deferred [Close]. *)
Definition parseBody (respBody : ReadCloser)
    : ReadCloser * (value * option error) :=
  let '(rd, res) := json_Decode (reader respBody) in
  (Close {| reader := rd; closes := closes respBody |}, res).

(** [GetParse]: the pair it returns, or the panic of a nil dereference. *)
Definition GetParse (key : string) (subUri : string) (n : Net)
    : outcome (value * option error) * Net :=
  let '((resp, err), n') := Get key subUri n in
  match err with
  | Some e => (Ok (VNil, Some e), n')
  | None =>
      match resp with
      | None => (Panic NilDereference, n')
      | Some r =>
          match Body r with
          | None => (Panic NilDereference, n')
          | Some body => (Ok (snd (parseBody body)), n')
          end
      end
  end.

Definition ipRRHistory (key ip queryType : string) (n : Net) :=
  GetParse key (Sprintf (urls_at "ip") [queryType; ip]) n.

Definition domainRRHistory (key domain queryType : string) (n : Net) :=
  GetParse key (Sprintf (urls_at "domain") [queryType; domain]) n.

(** [RRHistory(query, queryType)] *)
Definition RRHistory (key query queryType : string) (n : Net)
    : outcome (value * option error) * Net :=
  match supportedQueryTypes !! queryType with
  | None => (Ok (VNil, Some (errorString "unsupported query type")), n)
  | Some _ =>
      if match_ip query then ipRRHistory key query queryType n
      else domainRRHistory key query queryType n
  end.

End Client.

End Generic.

(** ** The batch client: [GetParse] into a map and the parallel [pGetParse] *)

Module Batch.
Import Go Http.

Definition urls : gmap string string :=
  list_to_map
    [ ("ip", "/dnsdb/ip/a/%s.json");
      ("domain", "/dnsdb/name/a/%s.json");
      ("related", "/links/name/%s.json");
      ("score", "/label/rface-gbt/name/%s.json");
      ("cooccurrences", "/recommendations/name/%s.json");
      ("security", "/security/name/%s.json");
      ("whois", "/whois/name/%s.json");
      ("infected", "/infected/names/%s.json") ].

Definition urls_at (k : string) : string := default "" (urls !! k).

(** [var maxGoroutines int = 10] *)
Definition default_maxGoroutines : nat := 10.

(** [convertToSubUris(items, queryType)] *)
Definition convertToSubUris (items : list string) (queryType : string)
    : list string :=
  map (fun item => Sprintf (urls_at queryType) [item]) items.

Section Client.

Context {TS : Type}.
Variable RoundTrip : TS -> Request -> DoResult * TS.
Variable url_Parse : string -> error + URL.
(** [d.Decode(&respJson)] for [respJson map[string]interface{}]: what is
    left of the reader, the map ([None] for a nil map) and the error. *)
Variable json_Decode : Reader -> Reader * (option gomap * option error).

(** [Request], [Get] and the constants they use read in this file exactly
    as in the generic client. *)
Definition Net : Type := @Generic.Net TS.

Definition Get (key : string) (subUri : string) (n : Net)
    : (option Response * option error) * Net :=
  Generic.Get RoundTrip url_Parse key subUri n.

Definition parseBody (respBody : ReadCloser)
    : ReadCloser * (option gomap * option error) :=
  let '(rd, res) := json_Decode (reader respBody) in
  (Close {| reader := rd; closes := closes respBody |}, res).

(** [GetParse]: the pair [(body, err)] it returns, or [None] when it panics
    on a nil response or body. *)
Definition GetParse (key : string) (subUri : string) (n : Net)
    : option (option gomap * option error) * Net :=
  let '((resp, err), n') := Get key subUri n in
  match err with
  | Some e => (Some (None, Some e), n')
  | None =>
      match resp with
      | None => (None, n')
      | Some r =>
          match Body r with
          | None => (None, n')
          | Some body => (Some (snd (parseBody body)), n')
          end
      end
  end.

(** [GetParse] never dereferences a nil response or body. *)
Definition no_panic (key : string) : Prop :=
  forall uri n, fst (GetParse key uri n) <> None.

(** One turn of the worker loop of [doPGetParse] on [uri]: the value the
    worker sends on [outChan], if it sends one. *)
Definition doPGetParse_item (key : string) (uri : string) (n : Net)
    : option (option (option gomap)) * Net :=
  match GetParse key uri n with
  | (Some (outVal, err), n') =>
      (Some (match err with Some _ => Some outVal | None => None end), n')
  | (None, n') => (None, n')
  end.

(** *** The goroutines of [pGetParse]

    [pGetParse] starts a feeder, [maxGoroutines] workers and a supervisor;
    its caller ranges over the channel it returns.  Each goroutine is a
    program counter; a step runs one goroutine up to its next channel
    operation.  [inChan] and [outChan] are buffered with capacity
    [len(subUris)], [done] with capacity [maxGoroutines]; every value sent
    on [done] is [1], so its buffer is kept as a count. *)

Inductive mainpc : Type :=
| MSpawnFeeder
| MSpawnWorkers (i : nat)
| MSpawnSupervisor
| MRange
| MExit.

Inductive feederpc : Type :=
| FNotStarted
| FFeed (rest : list string)
| FExit.

Inductive workerpc : Type :=
| WRange
| WGetParse (uri : string)
| WSend (outVal : option gomap)
| WDone
| WExit.

Inductive supervisorpc : Type :=
| SNotStarted
| SWait (i : nat)
| SExit.

(** A worker with the number of completion signals it has sent. *)
Record Worker : Type := {
  wpc : workerpc;
  signals : nat
}.

(** [sent] logs every value sent on [outChan] and [received] every value
    the caller's range loop got; [crashed] is set by a panic. *)
Record State : Type := {
  main : mainpc;
  received : list (option gomap);
  feeder : feederpc;
  workers : list Worker;
  supervisor : supervisorpc;
  inChan : list string;
  inChan_closed : bool;
  outChan : list (option gomap);
  outChan_closed : bool;
  done : nat;
  sent : list (option gomap);
  net : Net;
  crashed : bool
}.

Inductive goroutine : Type :=
| GMain
| GFeeder
| GWorker (i : nat)
| GSupervisor.

Section Engine.

Variable key : string.
Variable subUris : list string.
Variable maxGoroutines : nat.

Definition init (n : Net) : State :=
  {| main := MSpawnFeeder; received := []; feeder := FNotStarted;
     workers := []; supervisor := SNotStarted;
     inChan := []; inChan_closed := false;
     outChan := []; outChan_closed := false;
     done := 0; sent := []; net := n; crashed := false |}.

Definition set_main (s : State) (m : mainpc) : State :=
  {| main := m; received := received s; feeder := feeder s;
     workers := workers s; supervisor := supervisor s;
     inChan := inChan s; inChan_closed := inChan_closed s;
     outChan := outChan s; outChan_closed := outChan_closed s;
     done := done s; sent := sent s; net := net s; crashed := crashed s |}.

Definition set_feeder (s : State) (f : feederpc) : State :=
  {| main := main s; received := received s; feeder := f;
     workers := workers s; supervisor := supervisor s;
     inChan := inChan s; inChan_closed := inChan_closed s;
     outChan := outChan s; outChan_closed := outChan_closed s;
     done := done s; sent := sent s; net := net s; crashed := crashed s |}.

Definition set_workers (s : State) (ws : list Worker) : State :=
  {| main := main s; received := received s; feeder := feeder s;
     workers := ws; supervisor := supervisor s;
     inChan := inChan s; inChan_closed := inChan_closed s;
     outChan := outChan s; outChan_closed := outChan_closed s;
     done := done s; sent := sent s; net := net s; crashed := crashed s |}.

Definition set_supervisor (s : State) (p : supervisorpc) : State :=
  {| main := main s; received := received s; feeder := feeder s;
     workers := workers s; supervisor := p;
     inChan := inChan s; inChan_closed := inChan_closed s;
     outChan := outChan s; outChan_closed := outChan_closed s;
     done := done s; sent := sent s; net := net s; crashed := crashed s |}.

Definition set_inChan (s : State) (c : list string) (closed : bool) : State :=
  {| main := main s; received := received s; feeder := feeder s;
     workers := workers s; supervisor := supervisor s;
     inChan := c; inChan_closed := closed;
     outChan := outChan s; outChan_closed := outChan_closed s;
     done := done s; sent := sent s; net := net s; crashed := crashed s |}.

Definition set_outChan (s : State) (c : list (option gomap)) (closed : bool)
    : State :=
  {| main := main s; received := received s; feeder := feeder s;
     workers := workers s; supervisor := supervisor s;
     inChan := inChan s; inChan_closed := inChan_closed s;
     outChan := c; outChan_closed := closed;
     done := done s; sent := sent s; net := net s; crashed := crashed s |}.

Definition set_done (s : State) (d : nat) : State :=
  {| main := main s; received := received s; feeder := feeder s;
     workers := workers s; supervisor := supervisor s;
     inChan := inChan s; inChan_closed := inChan_closed s;
     outChan := outChan s; outChan_closed := outChan_closed s;
     done := d; sent := sent s; net := net s; crashed := crashed s |}.

Definition set_received (s : State) (r : list (option gomap)) : State :=
  {| main := main s; received := r; feeder := feeder s;
     workers := workers s; supervisor := supervisor s;
     inChan := inChan s; inChan_closed := inChan_closed s;
     outChan := outChan s; outChan_closed := outChan_closed s;
     done := done s; sent := sent s; net := net s; crashed := crashed s |}.

Definition set_sent (s : State) (l : list (option gomap)) : State :=
  {| main := main s; received := received s; feeder := feeder s;
     workers := workers s; supervisor := supervisor s;
     inChan := inChan s; inChan_closed := inChan_closed s;
     outChan := outChan s; outChan_closed := outChan_closed s;
     done := done s; sent := l; net := net s; crashed := crashed s |}.

Definition set_net (s : State) (n : Net) : State :=
  {| main := main s; received := received s; feeder := feeder s;
     workers := workers s; supervisor := supervisor s;
     inChan := inChan s; inChan_closed := inChan_closed s;
     outChan := outChan s; outChan_closed := outChan_closed s;
     done := done s; sent := sent s; net := n; crashed := crashed s |}.

Definition crash (s : State) : State :=
  {| main := main s; received := received s; feeder := feeder s;
     workers := workers s; supervisor := supervisor s;
     inChan := inChan s; inChan_closed := inChan_closed s;
     outChan := outChan s; outChan_closed := outChan_closed s;
     done := done s; sent := sent s; net := net s; crashed := true |}.

Definition set_worker (s : State) (i : nat) (w : Worker) : State :=
  set_workers s (<[i := w]> (workers s)).

(** The body of [pGetParse], then the [for result := range] of its caller. *)
Definition step_main (s : State) : option State :=
  match main s with
  | MSpawnFeeder =>
      Some (set_main (set_feeder s (FFeed subUris)) (MSpawnWorkers 0))
  | MSpawnWorkers i =>
      if (i <? maxGoroutines)%nat
      then Some (set_main
                   (set_workers s (workers s ++ [ {| wpc := WRange; signals := 0 |} ]))
                   (MSpawnWorkers (S i)))
      else Some (set_main s MSpawnSupervisor)
  | MSpawnSupervisor =>
      Some (set_main (set_supervisor s (SWait 0)) MRange)
  | MRange =>
      match outChan s with
      | v :: rest =>
          Some (set_received (set_outChan s rest (outChan_closed s))
                  (received s ++ [v]))
      | [] => if outChan_closed s then Some (set_main s MExit) else None
      end
  | MExit => None
  end.

(** [for _, uri := range subUris { inChan <- uri }; close(inChan)] *)
Definition step_feeder (s : State) : option State :=
  match feeder s with
  | FNotStarted => None
  | FFeed (uri :: rest) =>
      if (length (inChan s) <? length subUris)%nat
      then Some (set_feeder (set_inChan s (inChan s ++ [uri]) (inChan_closed s))
                   (FFeed rest))
      else None
  | FFeed [] =>
      if inChan_closed s then Some (crash s)
      else Some (set_feeder (set_inChan s (inChan s) true) FExit)
  | FExit => None
  end.

(** [doPGetParse]: the range over [inChan], [GetParse], the send on
    [outChan] when [err != nil], and [done <- 1] after the loop. *)
Definition step_worker (i : nat) (s : State) : option State :=
  match workers s !! i with
  | None => None
  | Some w =>
      match wpc w with
      | WRange =>
          match inChan s with
          | uri :: rest =>
              Some (set_worker (set_inChan s rest (inChan_closed s)) i
                      {| wpc := WGetParse uri; signals := signals w |})
          | [] =>
              if inChan_closed s
              then Some (set_worker s i {| wpc := WDone; signals := signals w |})
              else None
          end
      | WGetParse uri =>
          match GetParse key uri (net s) with
          | (Some (outVal, err), n') =>
              Some (set_worker (set_net s n') i
                      {| wpc := match err with
                                | Some _ => WSend outVal
                                | None => WRange
                                end;
                         signals := signals w |})
          | (None, n') => Some (crash (set_net s n'))
          end
      | WSend outVal =>
          if outChan_closed s then Some (crash s)
          else if (length (outChan s) <? length subUris)%nat
          then Some (set_worker
                       (set_sent (set_outChan s (outChan s ++ [outVal]) false)
                          (sent s ++ [outVal]))
                       i {| wpc := WRange; signals := signals w |})
          else None
      | WDone =>
          if (done s <? maxGoroutines)%nat
          then Some (set_worker (set_done s (S (done s))) i
                       {| wpc := WExit; signals := S (signals w) |})
          else None
      | WExit => None
      end
  end.

(** [for i := 0; i < maxGoroutines; i++ { <-done }; close(outChan)] *)
Definition step_supervisor (s : State) : option State :=
  match supervisor s with
  | SNotStarted => None
  | SWait i =>
      if (i <? maxGoroutines)%nat then
        match done s with
        | S d => Some (set_supervisor (set_done s d) (SWait (S i)))
        | O => None
        end
      else if outChan_closed s then Some (crash s)
      else Some (set_supervisor (set_outChan s (outChan s) true) SExit)
  | SExit => None
  end.

(** One step of goroutine [g]; [None] when it is blocked, not started or
    finished, or when the program has crashed. *)
Definition step_on (g : goroutine) (s : State) : option State :=
  if crashed s then None
  else
    match g with
    | GMain => step_main s
    | GFeeder => step_feeder s
    | GWorker i => step_worker i s
    | GSupervisor => step_supervisor s
    end.

Definition step (s s' : State) : Prop :=
  exists g, step_on g s = Some s'.

(** [steps k s s']: a run of [k] steps. *)
Inductive steps : nat -> State -> State -> Prop :=
| steps_refl s : steps 0 s s
| steps_next k s s' s'' : steps k s s' -> step s' s'' -> steps (S k) s s''.

(** Every goroutine has returned. *)
Definition finished (s : State) : Prop :=
  main s = MExit /\ feeder s = FExit /\ supervisor s = SExit /\
  Forall (fun w => wpc w = WExit) (workers s).

(** A run under a schedule: the goroutines in [sched] take a step each in
    turn; one that cannot step is skipped. *)
Fixpoint run (sched : list goroutine) (s : State) : State :=
  match sched with
  | [] => s
  | g :: rest =>
      match step_on g s with
      | Some s' => run rest s'
      | None => run rest s
      end
  end.

End Engine.

End Client.

End Batch.

(** ** The measure and the invariant of the batch engine *)

Module BatchInv.
Import Go Http Batch.

Definition exited (w : Worker) : nat :=
  match wpc w with WExit => 1 | _ => 0 end.

(** A worker that holds an item it took from [inChan]. *)
Definition busy (w : Worker) : nat :=
  match wpc w with WGetParse _ | WSend _ => 1 | _ => 0 end.

Definition past_loop (w : Worker) : bool :=
  match wpc w with WDone | WExit => true | _ => false end.

(** The steps a worker may still take, those of the caller for the value it
    may still send included.  The weight of [main] covers the goroutines it
    has yet to start. *)
Definition worker_weight (w : Worker) : nat :=
  match wpc w with
  | WRange => 2
  | WGetParse _ => 5
  | WSend _ => 4
  | WDone => 1
  | WExit => 0
  end.

Section Measure.

Context {TS : Type}.
Variable subUris : list string.
Variable maxGoroutines : nat.

Definition main_weight (m : mainpc) : nat :=
  match m with
  | MSpawnFeeder => 4 * maxGoroutines + 5 * length subUris + 6
  | MSpawnWorkers i => 3 * (maxGoroutines - i) + maxGoroutines + 4
  | MSpawnSupervisor => maxGoroutines + 3
  | MRange => 1
  | MExit => 0
  end.

Definition feeder_weight (f : feederpc) : nat :=
  match f with
  | FNotStarted => 0
  | FFeed rest => 5 * length rest + 1
  | FExit => 0
  end.

Definition supervisor_weight (p : supervisorpc) : nat :=
  match p with
  | SNotStarted => 0
  | SWait i => (maxGoroutines - i) + 1
  | SExit => 0
  end.

(** An upper bound on the steps left in state [s]; every step lowers it. *)
Definition measure (s : @State TS) : nat :=
  main_weight (main s) + feeder_weight (feeder s)
  + sum_list_with worker_weight (workers s)
  + supervisor_weight (supervisor s)
  + 4 * length (inChan s) + length (outChan s)
  + (if crashed s then 0 else 1).

(** The URIs the feeder has not sent yet. *)
Definition unfed (f : feederpc) : nat :=
  match f with
  | FNotStarted => length subUris
  | FFeed rest => length rest
  | FExit => 0
  end.

(** The completion signals the supervisor has received. *)
Definition collected (p : supervisorpc) : nat :=
  match p with
  | SNotStarted => 0
  | SWait i => i
  | SExit => maxGoroutines
  end.

Definition spawning (m : mainpc) : bool :=
  match m with
  | MSpawnFeeder | MSpawnWorkers _ | MSpawnSupervisor => true
  | _ => false
  end.

Record Inv (s : @State TS) : Prop := {
  inv_crashed : crashed s = false;
  inv_workers :
    match main s with
    | MSpawnFeeder => workers s = []
    | MSpawnWorkers i => length (workers s) = i /\ i <= maxGoroutines
    | _ => length (workers s) = maxGoroutines
    end;
  inv_feeder : main s = MSpawnFeeder <-> feeder s = FNotStarted;
  inv_supervisor : spawning (main s) = true <-> supervisor s = SNotStarted;
  inv_inChan_closed : inChan_closed s = true <-> feeder s = FExit;
  inv_outChan_closed : outChan_closed s = true <-> supervisor s = SExit;
  inv_items :
    unfed (feeder s) + length (inChan s) + sum_list_with busy (workers s)
    + length (outChan s) <= length subUris;
  inv_signals :
    done s + collected (supervisor s) = sum_list_with exited (workers s);
  inv_collected : collected (supervisor s) <= maxGoroutines;
  inv_worker_signals : Forall (fun w => signals w = exited w) (workers s);
  inv_drained :
    (inChan_closed s = true /\ inChan s = []) \/
    Forall (fun w => past_loop w = false) (workers s);
  inv_sent : sent s = received s ++ outChan s;
  inv_exit : main s = MExit -> outChan s = [] /\ outChan_closed s = true
}.

End Measure.

End BatchInv.

(** ** Transports described by their answers *)

Module Transport.
Import Go Http.

Section Answers.

Context {TS : Type}.
Variable RoundTrip : TS -> Request -> DoResult * TS.

(** [answers req t rs t']: started in state [t], the transport answers
    successive attempts of [req] with the results [rs] and ends in [t']. *)
Inductive answers (req : Request) : TS -> list DoResult -> TS -> Prop :=
| answers_nil t : answers req t [] t
| answers_cons t r t' rs t'' :
    RoundTrip t req = (r, t') ->
    answers req t' rs t'' ->
    answers req t (r :: rs) t''.

End Answers.

(** The error variable [err] holds after an attempt with result [r]. *)
Definition err_of (r : DoResult) : option error :=
  match r with
  | DoError e => Some e
  | DoResponse _ => None
  end.

(** The failure test of the typed client:
    [err != nil || resp.StatusCode >= 300]. *)
Definition failed_typed (r : DoResult) : bool :=
  match r with
  | DoError _ => true
  | DoResponse resp => (300 <=? StatusCode resp)%Z
  end.

(** The failure test of the generic and batch clients: [err != nil]. *)
Definition failed_generic (r : DoResult) : bool :=
  match r with
  | DoError _ => true
  | DoResponse _ => false
  end.

(** A transport that answers its [i]-th call by [script i]; its state is the
    number of calls it has answered. *)
Definition scripted (script : nat -> DoResult) (i : nat) (req : Request)
    : DoResult * nat :=
  (script i, S i).

(** Every response of the transport comes with a body, as [http.Client.Do]
    promises for a nil error. *)
Definition bodies_present {TS : Type}
    (RoundTrip : TS -> Request -> DoResult * TS) : Prop :=
  forall t req r t', RoundTrip t req = (DoResponse r, t') -> Body r <> None.

(** The GET request for [url] as [Request] hands it to the transport, with
    the bearer token of [key]. *)
Definition get_request (key url : string) : Request :=
  {| Method := "GET"; RawURL := url; Authorization := ("Bearer " ++ key)%string;
     ReqBody := None |}.

End Transport.

(** ** Vocabulary of the specification *)

Module Spec.
Import Go.

(** The decoded form of a JSON pair [[string, number]]. *)
Definition pair_value (p : string * float) : value :=
  VSlice [VString (fst p); VFloat64 (snd p)].

(** The record types a DNS history query may ask for. *)
Definition allow_set : list string := ["A"; "NS"; "MX"; "TXT"; "CNAME"].

(** The URI [RRHistory] asks for: the IP template when the query holds a
    dotted quad, the domain template otherwise. *)
Definition RRHistory_uri (query qType : string) : string :=
  if Generic.match_ip query
  then ("/dnsdb/ip/" ++ qType ++ "/" ++ query ++ ".json")%string
  else ("/dnsdb/name/" ++ qType ++ "/" ++ query ++ ".json")%string.

End Spec.

(** ** Concrete inputs used by the examples *)

Module Examples.
Import Go Http Transport Spec.

(** JSON text written with apostrophes in place of its double quotes. *)
Definition json_quote (c : ascii) : ascii :=
  if Ascii.eqb c "'"%char then ascii_of_nat 34 else c.

Definition json_text (s : string) : list Byte.byte :=
  map (fun c => byte_of_ascii (json_quote c)) (list_ascii_of_string s).

Definition bytes_eqb (a b : list Byte.byte) : bool :=
  bool_decide (map Byte.to_nat a = map Byte.to_nat b).

(** A stand-in for [json.Unmarshal] that knows the texts of a table and
    reports a syntax error on any other. *)
Fixpoint table_Unmarshal (table : list (list Byte.byte * value))
    (b : list Byte.byte) : error + value :=
  match table with
  | [] => inl (errorString "invalid character looking for beginning of value")
  | (text, v) :: rest =>
      if bytes_eqb text b then inr v else table_Unmarshal rest b
  end.

Definition related_text : list Byte.byte :=
  json_text "{'tb1': [['a.com', 5], ['b.com', 3]]}".

Definition related_raw : gomap :=
  [("tb1", VSlice [pair_value ("a.com", 5%float); pair_value ("b.com", 3%float)])].

Definition geo_text : list Byte.byte := json_text "['US', 0.42]".
Definition geo_raw : value := VSlice [VString "US"; VFloat64 0.42%float].

Definition geo_swapped_text : list Byte.byte := json_text "[42, 'US']".
Definition geo_swapped_raw : value := VSlice [VFloat64 42%float; VString "US"].

Definition example_Unmarshal : list Byte.byte -> error + value :=
  table_Unmarshal
    [ (related_text, VMap related_raw);
      (geo_text, geo_raw);
      (geo_swapped_text, geo_swapped_raw);
      (json_text "{'tb1': [[]]}", VMap [("tb1", VSlice [VSlice []])]);
      (json_text "{'tb1': [['a.com']]}", VMap [("tb1", VSlice [VSlice [VString "a.com"]])]);
      (json_text "{'tb1': [['a.com', 5, 'x']]}",
        VMap [("tb1", VSlice [VSlice [VString "a.com"; VFloat64 5%float; VString "x"]])]);
      (json_text "{'pfs2': [[]]}", VMap [("pfs2", VSlice [VSlice []])]);
      (json_text "{'pfs2': [['a.com', 5, 'x']]}",
        VMap [("pfs2", VSlice [VSlice [VString "a.com"; VFloat64 5%float; VString "x"]])]);
      (json_text "[]", VSlice []);
      (json_text "['US']", VSlice [VString "US"]);
      (json_text "['US', 0.42, 'x']",
        VSlice [VString "US"; VFloat64 0.42%float; VString "x"]) ].

(** Transports for the examples: one whose every call fails, and one whose
    first four calls fail and whose fifth answers 200 with a body. *)
Definition attempt_error (i : nat) : error :=
  errorString ("dial tcp: connection refused, call " ++ String (ascii_of_nat (48 + i)) "").

Definition always_fails (i : nat) : DoResult := DoError (attempt_error i).

Definition ok_body : ReadCloser :=
  {| reader := {| unread := json_text "{}"; read_err := None |}; closes := 0 |}.

Definition ok_response : Response :=
  {| StatusCode := 200; Body := Some ok_body |}.

Definition fifth_succeeds (i : nat) : DoResult :=
  if (i <? 4)%nat then DoError (attempt_error i) else DoResponse ok_response.

Definition always_succeeds (i : nat) : DoResult := DoResponse ok_response.

Definition plain_url_char (c : ascii) : bool :=
  unreserved c || Ascii.eqb c "/"%char || Ascii.eqb c ":"%char.

(** A stand-in for [url.Parse] that knows the URLs made of letters, digits
    and [- _ . ~ / :] only, which have no query and no fragment, and refuses
    every other string. *)
Definition plain_Parse (s : string) : error + URL :=
  if forallb plain_url_char (list_ascii_of_string s)
  then inr {| before_query := s; ForceQuery := false; RawQuery := "";
              after_query := "" |}
  else inl (errorString "parse: not a plain URL").

Definition drain (rd : Reader) : Reader :=
  {| unread := []; read_err := read_err rd |}.

Definition example_cat : Types.DomainCategorization :=
  {| Types.Status := 1; Types.ContentCategories := ["Ecommerce/Shopping"];
     Types.SecurityCategories := [] |}.

(** A stand-in for the stream decoder: it reads the whole body; into a
    categorization map it stores one entry, for www.amazon.com, and it
    leaves every other value as it was. *)
Definition example_Decode (k : Investigate.kind)
    : Reader -> Investigate.pointee k ->
      Reader * Investigate.pointee k * outcome unit :=
  match k as k0
    return Reader -> Investigate.pointee k0 ->
           Reader * Investigate.pointee k0 * outcome unit
  with
  | Investigate.KCategorizations =>
      fun rd v => (drain rd, <["www.amazon.com" := example_cat]> v, Ok tt)
  | _ => fun rd v => (drain rd, v, Ok tt)
  end.

Definition example_Decode_any (rd : Reader) : Reader * (value * option error) :=
  (drain rd, (VMap [], None)).

Definition example_Decode_map (rd : Reader)
    : Reader * (option gomap * option error) :=
  (drain rd, (Some [], None)).

(** The stream decoder on a body that is not JSON: it has read the body
    (which is shorter than its buffer) when it reports the syntax error. *)
Definition not_json : list Byte.byte := json_text "not json".

Definition failing_Decode (k : Investigate.kind) (rd : Reader)
    (v : Investigate.pointee k) : Reader * Investigate.pointee k * outcome unit :=
  (drain rd, v, Err (errorString "invalid character o in literal null (expecting u)")).

Definition not_json_body : ReadCloser :=
  {| reader := {| unread := not_json; read_err := None |}; closes := 0 |}.

(** The batch of the examples: one related-domains lookup, run by two
    workers under twelve rounds of main, feeder, worker 0, worker 1 and
    supervisor. *)
Definition batch_uris : list string :=
  Batch.convertToSubUris ["www.test.com"] "related".

Definition round : list Batch.goroutine :=
  [Batch.GMain; Batch.GFeeder; Batch.GWorker 0; Batch.GWorker 1; Batch.GSupervisor].

Definition schedule : list Batch.goroutine :=
  concat (repeat round 12).

Definition net0 : @Generic.Net nat :=
  {| Generic.transport := 0; Generic.calls := [] |}.

Definition batch_run (script : nat -> DoResult) : @Batch.State nat :=
  Batch.run (scripted script) plain_Parse example_Decode_map "k" batch_uris 2
    schedule (Batch.init net0).

End Examples.

(** ** Shapes of decoded values *)

Module Shapes.
Import Go.

(** [v] is an array whose first two elements are the string and the number
    of [p]; it may hold more. *)
Definition starts_with_pair (v : value) (p : string * float) : Prop :=
  exists rest, v = VSlice (VString (fst p) :: VFloat64 (snd p) :: rest).

Definition related_of (p : string * float) : Types.RelatedDomain :=
  {| Types.Domain := fst p; Types.Score := int_of_float64 (snd p) |}.

Definition cooccurrence_of (p : string * float) : Types.Cooccurrence :=
  {| Types.Cooccurrence_Domain := fst p; Types.Cooccurrence_Score := snd p |}.

(** An outcome that is not a normal return. *)
Definition failed {A : Type} (x : outcome A) : Prop :=
  match x with Ok _ => False | _ => True end.

(** The same failure at another result type. *)
Definition recast {A B : Type} (x : outcome A) (d : outcome B) : outcome B :=
  match x with
  | Ok _ => d
  | Err e => Err e
  | Panic p => Panic p
  | Fatal e => Fatal e
  end.

Definition geo_of (p : string * float) : Types.GeoFeatures :=
  {| Types.CountryCode := fst p; Types.VisitRatio := snd p |}.

End Shapes.

(** ** More concrete inputs *)

Module MoreExamples.
Import Go Http Transport Spec Examples.

(** A second table of JSON texts for the stand-in of [json.Unmarshal]. *)
Definition more_Unmarshal : list Byte.byte -> error + value :=
  table_Unmarshal
    [ (json_text "{'tb1': [['a.com', 5], 'oops', []]}",
        VMap [("tb1", VSlice [pair_value ("a.com", 5%float); VString "oops"; VSlice []])]);
      (json_text "{'pfs2': [['a.com', 0.5], ['b.com', 0.25, 'x']]}",
        VMap [("pfs2", VSlice [pair_value ("a.com", 0.5%float);
                               VSlice [VString "b.com"; VFloat64 0.25%float; VString "x"]])]) ].

(** A transport whose first answer is an error page, status 500 with a
    body, and whose later answers are 200. *)
Definition error_page : Response :=
  {| StatusCode := 500; Body := Some ok_body |}.

Definition then_succeeds (i : nat) : DoResult :=
  if (i <? 1)%nat then DoResponse error_page else DoResponse ok_response.

(** A stand-in for [json.Marshal] that knows one list of domains. *)
Definition example_Marshal (domains : list string) : error + list Byte.byte :=
  if bool_decide (domains = ["a.com"; "b.com"])
  then inr (json_text "['a.com','b.com']")
  else inl (errorString "json: unsupported value").

End MoreExamples.
(** ** [fmt.Sprintf] with operands left over *)

Module Fmt.
Import Http.

(** The number of [%s] verbs of a format, scanned as [Sprintf] scans it. *)
Fixpoint verbs (format : string) : nat :=
  match format with
  | EmptyString => 0
  | String c rest =>
      match rest with
      | String c' rest' =>
          if Ascii.eqb c "%"%char && Ascii.eqb c' "s"%char
          then S (verbs rest')
          else verbs rest
      | EmptyString => 0
      end
  end.

Definition join_comma (parts : list string) : string :=
  match parts with
  | [] => ""
  | p :: ps => fold_left (fun acc q => (acc ++ ", " ++ q)%string) ps p
  end.

(** What [Sprintf] appends for string operands no verb has used. *)
Definition EXTRA (args : list string) : string :=
  ("%!(EXTRA " ++ join_comma (map (fun a => "string=" ++ a) args) ++ ")")%string.

(** [fmt.Sprintf] for formats whose only verb is [%s], with any number of
    string operands: operands beyond the verbs are reported at the end. *)
Definition Sprintf_operands (format : string) (args : list string) : string :=
  (Sprintf format args
   ++ (if (verbs format <? length args)%nat then EXTRA (drop (verbs format) args)
       else ""))%string.

End Fmt.

(** ** The remaining operations of the typed client (goinvestigate.go) *)

Module InvestigateOps.
Import Go Http Investigate.

(** [extractDomains]: the loop appends the [Domain] of each entry. *)
Definition extractDomains (respList : list Records.MaliciousDomain) : list string :=
  fold_left (fun domainList entry =>
               domainList ++ [Records.MaliciousDomain_Domain entry])
    respList [].

(** [convertToSubUris(items, queryType)] of the typed client. *)
Definition convertToSubUris (items : list string) (queryType : string)
    : list string :=
  map (fun item => Fmt.Sprintf_operands (urls_at queryType) [item]) items.

(** The result a typed operation builds from what [GetParse] or [PostParse]
    returned: the value on a nil error, nil and the error otherwise. *)
Definition returned {A : Type} (resp : A) (res : outcome unit) : outcome A :=
  match res with
  | Ok _ => Ok resp
  | Err e => Err e
  | Panic p => Panic p
  | Fatal e => Fatal e
  end.

Section Client.

Context {TS : Type}.
Variable RoundTrip : TS -> Http.Request -> DoResult * TS.
Variable url_Parse : string -> error + URL.
Variable json_Decode :
  forall k : kind, Reader -> pointee k -> Reader * pointee k * outcome unit.
(** [json.Marshal(domains)] for a slice of strings. *)
Variable json_Marshal : list string -> error + list Byte.byte.

(** [Post]: [body] holds the bytes of the reader the request is built on. *)
Definition Post (inv : Investigate) (subUri : string) (body : list Byte.byte)
    (n : Net) : (option Response * option error) * Net :=
  match NewRequest url_Parse "POST" (baseUrl ++ subUri)%string (Some body) with
  | inl err =>
      ((None, Some (errorf_error "Error processing POST request: %v" (Some err))), n)
  | inr req => Request RoundTrip inv req n
  end.

(** [PostParse(subUri, body, v)] *)
Definition PostParse {k : kind} (inv : Investigate) (subUri : string)
    (body : list Byte.byte) (v : pointee k) (n : Net)
    : (pointee k * outcome unit) * Net :=
  let '((resp, err), n') := Post inv subUri body n in
  match err with
  | Some e => ((v, Err e), n')
  | None =>
      match resp with
      | None => ((v, Panic NilDereference), n')
      | Some r =>
          match Body r with
          | None => ((v, Panic NilDereference), n')
          | Some rc =>
              let '(_, v', res) := parseBody json_Decode rc v in ((v', res), n')
          end
      end
  end.

(** [Categorizations(domains, labels)] *)
Definition Categorizations (inv : Investigate) (domains : list string)
    (labels : bool) (n : Net)
    : outcome (gmap string Types.DomainCategorization) * Net :=
  match catUri url_Parse "" labels with
  | Ok uri =>
      match json_Marshal domains with
      | inl err => (Err err, n)
      | inr body =>
          let '((resp, res), n') :=
            PostParse (k := KCategorizations) inv uri body ∅ n in
          (returned resp res, n')
      end
  | Err e => (Err e, n)
  | Panic p => (Panic p, n)
  | Fatal e => (Fatal e, n)
  end.

(** [RelatedDomains(domain)]: [resp] is the list the decoder filled. *)
Definition RelatedDomains (inv : Investigate) (domain : string) (n : Net)
    : outcome Types.RelatedDomainList * Net :=
  let '((resp, res), n') :=
    GetParse (k := KRelatedDomainList) RoundTrip url_Parse json_Decode inv
      (Sprintf (urls_at "related") [domain])
      {| Types.RelatedDomains := [] |} n in
  (returned resp res, n').

(** [Cooccurrences(domain)] *)
Definition Cooccurrences (inv : Investigate) (domain : string) (n : Net)
    : outcome Types.CooccurrenceList * Net :=
  let '((resp, res), n') :=
    GetParse (k := KCooccurrenceList) RoundTrip url_Parse json_Decode inv
      (Sprintf (urls_at "cooccurrences") [domain])
      {| Types.Cooccurrences := [] |} n in
  (returned resp res, n').

(** [Security(domain)] *)
Definition Security (inv : Investigate) (domain : string) (n : Net)
    : outcome Records.SecurityFeatures * Net :=
  let '((resp, res), n') :=
    GetParse (k := KSecurityFeatures) RoundTrip url_Parse json_Decode inv
      (Sprintf (urls_at "security") [domain])
      Records.new_SecurityFeatures n in
  (returned resp res, n').

(** [DomainTags(domain)] *)
Definition DomainTags (inv : Investigate) (domain : string) (n : Net)
    : outcome (list Records.DomainTag) * Net :=
  let '((resp, res), n') :=
    GetParse (k := KDomainTags) RoundTrip url_Parse json_Decode inv
      (Sprintf (urls_at "tags") [domain]) [] n in
  (returned resp res, n').

(** [LatestDomains(ip)] *)
Definition LatestDomains (inv : Investigate) (ip : string) (n : Net)
    : outcome (list string) * Net :=
  let '((resp, res), n') :=
    GetParse (k := KMaliciousDomains) RoundTrip url_Parse json_Decode inv
      (Sprintf (urls_at "latest_domains") [ip]) [] n in
  (returned (extractDomains resp) res, n').

End Client.

End InvestigateOps.

(** ** The remaining operations of the generic client *)

Module GenericOps.
Import Go Http Generic.

(** The dynamic type of the [domains] argument of [Categorization]: a
    string, a slice of strings, or anything else. *)
Inductive domains_arg : Type :=
| DomainString (d : string)
| DomainStrings (d : list string)
| DomainOther.

Section Client.

Context {TS : Type}.
Variable RoundTrip : TS -> Http.Request -> DoResult * TS.
Variable url_Parse : string -> error + URL.
Variable json_Decode : Reader -> Reader * (value * option error).
Variable json_Marshal : list string -> error + list Byte.byte.

Definition catUri (domain : string) (labels : bool) : outcome string :=
  match url_Parse (Sprintf (urls_at "categorization") [domain]) with
  | inl err => Fatal err
  | inr uri =>
      let v : Values := [] in
      let v := if labels then Values_Set v "showLabels" "true" else v in
      let uri := set_RawQuery uri (Values_Encode v) in
      Ok (URL_String uri)
  end.

Definition Post (key : string) (subUri : string) (body : list Byte.byte)
    (n : Net) : (option Response * option error) * Net :=
  match NewRequest url_Parse "POST" (baseUrl ++ subUri)%string (Some body) with
  | inl err =>
      ((None, Some (errorf_error "Error processing POST request: %v" (Some err))), n)
  | inr req => Request RoundTrip key req n
  end.

Definition PostParse (key : string) (subUri : string) (body : list Byte.byte)
    (n : Net) : outcome (value * option error) * Net :=
  let '((resp, err), n') := Post key subUri body n in
  match err with
  | Some e => (Ok (VNil, Some e), n')
  | None =>
      match resp with
      | None => (Panic NilDereference, n')
      | Some r =>
          match Body r with
          | None => (Panic NilDereference, n')
          | Some rc => (Ok (snd (parseBody json_Decode rc)), n')
          end
      end
  end.

Definition getCategorization (key domain : string) (labels : bool) (n : Net)
    : outcome (value * option error) * Net :=
  match catUri domain labels with
  | Ok uri => GetParse RoundTrip url_Parse json_Decode key uri n
  | Err e => (Err e, n)
  | Panic p => (Panic p, n)
  | Fatal e => (Fatal e, n)
  end.

Definition postCategorization (key : string) (domains : list string)
    (labels : bool) (n : Net) : outcome (value * option error) * Net :=
  let uri := Sprintf (urls_at "categorization") [""] in
  match json_Marshal domains with
  | inl err => (Ok (VNil, Some err), n)
  | inr body => PostParse key uri body n
  end.

(** [Categorization(domains, labels)] *)
Definition Categorization (key : string) (domains : domains_arg) (labels : bool)
    (n : Net) : outcome (value * option error) * Net :=
  match domains with
  | DomainString d => getCategorization key d labels n
  | DomainStrings d => postCategorization key d labels n
  | DomainOther =>
      (Ok (VNil, Some (errorString
                         "domains must be either a string, or a list of strings")), n)
  end.

Definition RelatedDomains (key domain : string) (n : Net) :=
  GetParse RoundTrip url_Parse json_Decode key (Sprintf (urls_at "related") [domain]) n.

Definition Cooccurrences (key domain : string) (n : Net) :=
  GetParse RoundTrip url_Parse json_Decode key
    (Sprintf (urls_at "cooccurrences") [domain]) n.

Definition Security (key domain : string) (n : Net) :=
  GetParse RoundTrip url_Parse json_Decode key (Sprintf (urls_at "security") [domain]) n.

Definition DomainTags (key domain : string) (n : Net) :=
  GetParse RoundTrip url_Parse json_Decode key (Sprintf (urls_at "tags") [domain]) n.

End Client.

End GenericOps.

(** ** The single lookups of the batch client *)

Module BatchOps.
Import Go Http Batch.

Section Client.

Context {TS : Type}.
Variable RoundTrip : TS -> Http.Request -> DoResult * TS.
Variable url_Parse : string -> error + URL.
Variable json_Decode : Reader -> Reader * (option gomap * option error).

Definition GetRelatedDomains (key domain : string) (n : Net) :=
  GetParse RoundTrip url_Parse json_Decode key (Sprintf (urls_at "related") [domain]) n.

Definition GetScore (key domain : string) (n : Net) :=
  GetParse RoundTrip url_Parse json_Decode key (Sprintf (urls_at "score") [domain]) n.

Definition GetCooccurrences (key domain : string) (n : Net) :=
  GetParse RoundTrip url_Parse json_Decode key
    (Sprintf (urls_at "cooccurrences") [domain]) n.

Definition GetSecurity (key domain : string) (n : Net) :=
  GetParse RoundTrip url_Parse json_Decode key (Sprintf (urls_at "security") [domain]) n.

Definition GetIp (key ip : string) (n : Net) :=
  GetParse RoundTrip url_Parse json_Decode key (Sprintf (urls_at "ip") [ip]) n.

Definition GetDomain (key domain : string) (n : Net) :=
  GetParse RoundTrip url_Parse json_Decode key (Sprintf (urls_at "domain") [domain]) n.

End Client.

End BatchOps.

(** ** Strings that hold an IPv4 address *)

Module Quad.
Import Generic.

(** One to three decimal digits. *)
Definition digit_run (s : string) : Prop :=
  1 <= String.length s <= 3 /\ forallb is_digit (list_ascii_of_string s) = true.

(** Four digit runs separated by dots. *)
Definition dotted_quad (q : string) : Prop :=
  exists a b c d,
    digit_run a /\ digit_run b /\ digit_run c /\ digit_run d /\
    q = (a ++ "." ++ b ++ "." ++ c ++ "." ++ d)%string.

(** [s] holds a dotted quad somewhere. *)
Definition holds_quad (s : string) : Prop :=
  exists pre q post, dotted_quad q /\ s = (pre ++ q ++ post)%string.

End Quad.

(** ** What an operation asked of the network *)

Module Footprint.
Import Go Http.

(** The log [after] is [before] followed by [req], between one and five
    times. *)
Definition issued (req : Request) (before after : list Request) : Prop :=
  exists k, 1 <= k <= 5 /\ after = before ++ repeat req k.

(** The POST request for [url] as [Request] hands it to the transport, built
    on a reader of [body]. *)
Definition post_request (key url : string) (body : list Byte.byte) : Request :=
  {| Method := "POST"; RawURL := url; Authorization := ("Bearer " ++ key)%string;
     ReqBody := Some body |}.

(** The error of [Get] and [Post] for a URL that [http.NewRequest] refuses. *)
Definition refused (method : string) (e : error) : error :=
  errorf_error ("Error processing " ++ method ++ " request: %v") (Some e).

Section Specs.

Context {TS : Type}.
Variable url_Parse : string -> error + URL.

(** What a typed lookup of [subUri] does, by the URL of its request: when
    [http.NewRequest] refuses the URL, the lookup returns that error and
    makes no call; when it accepts, the GET request goes to the transport
    between one and five times, and nothing else does. *)
Definition typed_lookup {A : Type} (key : string) (subUri : string)
    (n : @Investigate.Net TS) (result : outcome A * @Investigate.Net TS) : Prop :=
  let url := (Investigate.baseUrl ++ subUri)%string in
  (forall e, url_Parse url = inl e -> result = (Err (refused "GET" e), n)) /\
  (forall u, url_Parse url = inr u ->
     issued (Transport.get_request key url)
       (Investigate.calls n) (Investigate.calls (snd result))).

(** The same for the generic client, whose lookups return the error beside
    a nil value. *)
Definition generic_lookup (key : string) (subUri : string) (n : @Generic.Net TS)
    (result : outcome (value * option error) * @Generic.Net TS) : Prop :=
  let url := (Generic.baseUrl ++ subUri)%string in
  (forall e, url_Parse url = inl e ->
     result = (Ok (VNil, Some (refused "GET" e)), n)) /\
  (forall u, url_Parse url = inr u ->
     issued (Transport.get_request key url)
       (Generic.calls n) (Generic.calls (snd result))).

(** And for the batch client, whose lookups return a map. *)
Definition batch_lookup (key : string) (subUri : string) (n : @Generic.Net TS)
    (result : option (option gomap * option error) * @Generic.Net TS) : Prop :=
  let url := (Generic.baseUrl ++ subUri)%string in
  (forall e, url_Parse url = inl e ->
     result = (Some (None, Some (refused "GET" e)), n)) /\
  (forall u, url_Parse url = inr u ->
     issued (Transport.get_request key url)
       (Generic.calls n) (Generic.calls (snd result))).

End Specs.

End Footprint.

(** ** The lookups of a batch *)

Module Lookups.
Import Go Http Batch.

(** The URIs the feeder has yet to send. *)
Definition unfed_list (subUris : list string) (f : feederpc) : list string :=
  match f with
  | FNotStarted => subUris
  | FFeed rest => rest
  | FExit => []
  end.

(** The URI a worker has taken from [inChan] and not looked up yet. *)
Definition held (w : Worker) : list string :=
  match wpc w with
  | WGetParse uri => [uri]
  | _ => []
  end.

(** The URIs of the batch no worker has looked up yet. *)
Definition waiting {TS : Type} (subUris : list string) (s : @State TS)
    : list string :=
  unfed_list subUris (feeder s) ++ inChan s ++ flat_map held (workers s).

(** The requests of a series of lookups, each a URI with the number of
    attempts made for it. *)
Definition requests (key : string) (ks : list (string * nat)) : list Request :=
  flat_map (fun p => repeat (Transport.get_request key (Generic.baseUrl ++ fst p)%string)
                       (snd p)) ks.

Definition count (l : list string) (u : string) : nat := count_occ string_dec l u.

Section Invariant.

Context {TS : Type}.
Variable url_Parse : string -> error + URL.
Variable key : string.
Variable subUris : list string.
Variable n0 : @Generic.Net TS.

(** A lookup makes five attempts at most, one at least when the URL of its
    request is accepted and none when it is refused. *)
Definition attempts_ok (p : string * nat) : Prop :=
  snd p <= 5 /\
  (forall u, url_Parse (Generic.baseUrl ++ fst p)%string = inr u -> 1 <= snd p) /\
  (forall e, url_Parse (Generic.baseUrl ++ fst p)%string = inl e -> snd p = 0).

Definition pending (u : string) (s : @State TS) : nat :=
  count (unfed_list subUris (feeder s)) u + count (inChan s) u
  + sum_list_with (fun w => count (held w) u) (workers s).

(** [ks] are the lookups made up to state [s]: with the URIs still waiting
    they make up the batch. *)
Record Fetched (ks : list (string * nat)) (s : @State TS) : Prop := {
  fetched_calls : Generic.calls (net s) = Generic.calls n0 ++ requests key ks;
  fetched_attempts : Forall attempts_ok ks;
  fetched_all :
    crashed s = false ->
    forall u, count (map fst ks) u + pending u s = count subUris u;
  fetched_some : forall u, count (map fst ks) u <= count subUris u;
  fetched_feeder : main s = MSpawnFeeder -> feeder s = FNotStarted
}.

End Invariant.

End Lookups.

(** * Properties of the decoders *)

Module TypesFacts.
Import Go Types Spec Examples.

Section Decoders.

Variable json_Unmarshal : list Byte.byte -> error + value.

Lemma RelatedDomainList_range_pairs (raw : gomap) (ps : list (string * float))
    (acc : list RelatedDomain) :
  RelatedDomainList_range raw (map pair_value ps) acc =
  Ok (acc ++ map (fun p => {| Domain := fst p; Score := int_of_float64 (snd p) |}) ps).
Proof.
  revert acc. induction ps as [|[d s] ps IH]; intros acc; simpl.
  - by rewrite app_nil_r.
  - rewrite IH. by rewrite <- app_assoc.
Qed.

Lemma CooccurrenceList_range_pairs (raw : gomap) (ps : list (string * float))
    (acc : list Cooccurrence) :
  CooccurrenceList_range raw (map pair_value ps) acc =
  Ok (acc ++ map (fun p => {| Cooccurrence_Domain := fst p;
                              Cooccurrence_Score := snd p |}) ps).
Proof.
  revert acc. induction ps as [|[d s] ps IH]; intros acc; simpl.
  - by rewrite app_nil_r.
  - rewrite IH. by rewrite <- app_assoc.
Qed.

(** A missing key, or a key that does not hold an array, is reported as a
    malformed object by both list decoders. *)
Lemma list_decoders_need_array (raw : gomap) :
  (as_slice (map_index raw "tb1") = None ->
   RelatedDomainList_of_raw raw = Err (malfErr (VMap raw))) /\
  (as_slice (map_index raw "pfs2") = None ->
   CooccurrenceList_of_raw raw = Err (malfErr (VMap raw))).
Proof.
  unfold RelatedDomainList_of_raw, CooccurrenceList_of_raw.
  split; intros ->; reflexivity.
Qed.

End Decoders.

(** C5 (the code departs from it): the list decoders index an inner array
    at 0 and 1 without looking at its length.  An empty inner array makes
    them panic, a one-element inner array with a string panics at index 1,
    and an inner array of three elements is accepted, its third element
    ignored. *)
Theorem pair_list_decoders_do_not_check_arity :
  RelatedDomainList_UnmarshalJSON example_Unmarshal (json_text "{'tb1': [[]]}")
    = Panic (IndexOutOfRange 0 0) /\
  RelatedDomainList_UnmarshalJSON example_Unmarshal (json_text "{'tb1': [['a.com']]}")
    = Panic (IndexOutOfRange 1 1) /\
  RelatedDomainList_UnmarshalJSON example_Unmarshal
    (json_text "{'tb1': [['a.com', 5, 'x']]}")
    = Ok {| RelatedDomains := [ {| Domain := "a.com"; Score := 5 |} ] |} /\
  CooccurrenceList_UnmarshalJSON example_Unmarshal (json_text "{'pfs2': [[]]}")
    = Panic (IndexOutOfRange 0 0) /\
  CooccurrenceList_UnmarshalJSON example_Unmarshal
    (json_text "{'pfs2': [['a.com', 5, 'x']]}")
    = Ok {| Cooccurrences :=
              [ {| Cooccurrence_Domain := "a.com"; Cooccurrence_Score := 5%float |} ] |}.
Proof. repeat split; vm_compute; reflexivity. Qed.

(** C6: an object whose key tb1 holds an array of [string, number] pairs
    decodes into one record per pair, in the order of the array, with the
    string as [Domain] and the number converted by [int] as [Score]. *)
Theorem RelatedDomainList_UnmarshalJSON_pairs
    (json_Unmarshal : list Byte.byte -> error + value)
    (b : list Byte.byte) (raw : gomap) (ps : list (string * float)) :
  json_Unmarshal b = inr (VMap raw) ->
  map_lookup raw "tb1" = Some (VSlice (map pair_value ps)) ->
  RelatedDomainList_UnmarshalJSON json_Unmarshal b =
  Ok {| RelatedDomains :=
          map (fun p => {| Domain := fst p; Score := int_of_float64 (snd p) |}) ps |}.
Proof.
  intros Hb Htb1.
  unfold RelatedDomainList_UnmarshalJSON, json_Unmarshal_map. rewrite Hb.
  unfold RelatedDomainList_of_raw, map_index. rewrite Htb1. simpl.
  by rewrite RelatedDomainList_range_pairs.
Qed.

(** The text of C6: a.com with 5 and b.com with 3, in that order. *)
Lemma RelatedDomainList_UnmarshalJSON_pairs_witness :
  RelatedDomainList_UnmarshalJSON example_Unmarshal related_text =
  Ok {| RelatedDomains := [ {| Domain := "a.com"; Score := 5 |};
                            {| Domain := "b.com"; Score := 3 |} ] |}.
Proof.
  exact (RelatedDomainList_UnmarshalJSON_pairs example_Unmarshal related_text
           related_raw [("a.com", 5%float); ("b.com", 3%float)]
           eq_refl eq_refl).
Defined.

(** C7 (the code departs from it): the geo-feature decoder gives the record
    for US with 0.42 and rejects the swapped array as malformed, but it does
    not check the length either: [[]] and a lone string make it panic, and
    a third element is ignored. *)
Theorem GeoFeatures_UnmarshalJSON_examples :
  GeoFeatures_UnmarshalJSON example_Unmarshal geo_text
    = Ok {| CountryCode := "US"; VisitRatio := 0.42%float |} /\
  GeoFeatures_UnmarshalJSON example_Unmarshal geo_swapped_text
    = Err (malfErr geo_swapped_raw) /\
  GeoFeatures_UnmarshalJSON example_Unmarshal (json_text "[]")
    = Panic (IndexOutOfRange 0 0) /\
  GeoFeatures_UnmarshalJSON example_Unmarshal (json_text "['US']")
    = Panic (IndexOutOfRange 1 1) /\
  GeoFeatures_UnmarshalJSON example_Unmarshal (json_text "['US', 0.42, 'x']")
    = Ok {| CountryCode := "US"; VisitRatio := 0.42%float |}.
Proof. repeat split; vm_compute; reflexivity. Qed.

End TypesFacts.

(** * Properties of the retry loop *)

Module RequestFacts.
Import Go Http Transport.

Ltac invert_answers :=
  repeat match goal with
  | H : answers _ _ _ (_ :: _) _ |- _ => inversion H; subst; clear H
  | H : answers _ _ _ [] _ |- _ => inversion H; subst; clear H
  end.

Lemma answers_scripted (script : nat -> DoResult) (req : Request) (k i : nat) :
  answers (scripted script) req i (map script (seq i k)) (i + k).
Proof.
  revert i. induction k as [|k IH]; intros i; simpl.
  - replace (i + 0) with i by lia. constructor.
  - econstructor; [reflexivity|].
    replace (i + S k) with (S i + k) by lia. apply IH.
Qed.

Section Typed.

Context {TS : Type}.
Variable RoundTrip : TS -> Request -> DoResult * TS.

(** More fuel than [maxTries - tries] changes nothing: the loop of
    [Request] always ends within its five tries. *)
Lemma Request_loop_fuel (fuel : nat) (req : Request) (tries : nat)
    (resp : Response) (err : option error) (n : Investigate.Net) :
  Investigate.maxTries <= fuel + tries ->
  Investigate.Request_loop RoundTrip (S fuel) req tries resp err n =
  Investigate.Request_loop RoundTrip fuel req tries resp err n.
Proof.
  revert tries resp err n.
  induction fuel as [|fuel IH]; intros tries resp err n Hle.
  - cbn [Investigate.Request_loop].
    assert ((tries <? Investigate.maxTries)%nat = false) as ->
      by (apply Nat.ltb_ge; lia).
    by rewrite andb_false_r.
  - remember (S fuel) as f eqn:Hf.
    cbn [Investigate.Request_loop]. subst f.
    cbn [Investigate.Request_loop].
    destruct (Investigate.is_nil (Body resp) && (tries <? Investigate.maxTries)%nat);
      [|reflexivity].
    destruct (Investigate.client_Do RoundTrip n req) as [[r|e] n'].
    + destruct (300 <=? StatusCode r)%Z.
      * destruct (tries =? Investigate.maxTries - 1)%nat; [reflexivity|].
        apply IH; lia.
      * apply IH; lia.
    + destruct (tries =? Investigate.maxTries - 1)%nat; [reflexivity|].
      apply IH; lia.
Qed.

Lemma typed_all_fail (inv : Investigate.Investigate) (req : Request)
    (t t' : TS) (cs : list Request) (rs : list DoResult) :
  let req' := Investigate.set_Authorization req (Sprintf "Bearer %s" [Investigate.key inv]) in
  answers RoundTrip req' t rs t' ->
  length rs = 5 ->
  forallb failed_typed rs = true ->
  Investigate.Request RoundTrip inv req
    {| Investigate.transport := t; Investigate.calls := cs |} =
  ((None, Some (Investigate.failed_all_attempts (List.last (map err_of rs) None))),
   {| Investigate.transport := t'; Investigate.calls := cs ++ repeat req' 5 |}).
Proof.
  intros req' Hans Hlen Hfail.
  do 5 (destruct rs as [|? rs]; [discriminate Hlen|]).
  destruct rs; [|discriminate Hlen]. clear Hlen.
  invert_answers.
  unfold Investigate.Request. fold req'.
  cbn in Hfail.
  repeat match goal with
  | H : _ && _ = true |- _ => apply andb_prop in H; destruct H
  end.
  unfold Investigate.maxTries.
  cbn [Investigate.Request_loop Investigate.is_nil new_Response Body andb
       Nat.ltb Nat.leb Investigate.maxTries].
  unfold Investigate.client_Do; cbn [Investigate.transport Investigate.calls].
  repeat match goal with
  | H : RoundTrip _ _ = _ |- _ => rewrite H; clear H
  | d : DoResult |- _ =>
      destruct d; cbn [failed_typed] in *;
      cbn [Investigate.Request_loop Investigate.is_nil new_Response Body andb
           Nat.ltb Nat.leb Nat.eqb Nat.sub Investigate.maxTries
           Investigate.transport Investigate.calls]
  | H : (300 <=? _)%Z = true |- _ => rewrite H; clear H
  end;
  cbn [map err_of List.last]; rewrite <- !app_assoc; reflexivity.
Qed.

Lemma typed_fifth_succeeds (inv : Investigate.Investigate) (req : Request)
    (t t' : TS) (cs : list Request) (rs : list DoResult) (resp : Response) :
  let req' := Investigate.set_Authorization req (Sprintf "Bearer %s" [Investigate.key inv]) in
  answers RoundTrip req' t (rs ++ [DoResponse resp]) t' ->
  length rs = 4 ->
  forallb failed_typed rs = true ->
  Body resp <> None ->
  (StatusCode resp < 300)%Z ->
  Investigate.Request RoundTrip inv req
    {| Investigate.transport := t; Investigate.calls := cs |} =
  ((Some resp, None),
   {| Investigate.transport := t'; Investigate.calls := cs ++ repeat req' 5 |}).
Proof.
  intros req' Hans Hlen Hfail Hbody Hstatus.
  do 4 (destruct rs as [|? rs]; [discriminate Hlen|]).
  destruct rs; [|discriminate Hlen]. clear Hlen.
  cbn [app] in Hans. invert_answers.
  unfold Investigate.Request. fold req'.
  cbn in Hfail.
  repeat match goal with
  | H : _ && _ = true |- _ => apply andb_prop in H; destruct H
  end.
  assert ((300 <=? StatusCode resp)%Z = false) as Hok by (apply Z.leb_gt; lia).
  destruct (Body resp) as [body|] eqn:Hb; [|congruence].
  unfold Investigate.maxTries.
  cbn [Investigate.Request_loop Investigate.is_nil new_Response Body andb
       Nat.ltb Nat.leb Investigate.maxTries].
  unfold Investigate.client_Do; cbn [Investigate.transport Investigate.calls].
  repeat match goal with
  | H : RoundTrip _ _ = _ |- _ => rewrite H; clear H
  | d : DoResult |- _ =>
      destruct d; cbn [failed_typed] in *;
      cbn [Investigate.Request_loop Investigate.is_nil new_Response Body andb
           Nat.ltb Nat.leb Nat.eqb Nat.sub Investigate.maxTries
           Investigate.transport Investigate.calls]
  | H : (300 <=? _)%Z = true |- _ => rewrite H; clear H
  end;
  try discriminate;
  rewrite Hok;
  cbn [Investigate.Request_loop Investigate.is_nil new_Response Body andb
       Nat.ltb Nat.leb Nat.eqb Nat.sub Investigate.maxTries
       Investigate.transport Investigate.calls];
  rewrite ?Hb; cbn [Investigate.is_nil andb];
  rewrite <- !app_assoc; reflexivity.
Qed.

End Typed.

Section Generic.

Context {TS : Type}.
Variable RoundTrip : TS -> Request -> DoResult * TS.

Lemma generic_Request_loop_fuel (fuel : nat) (req : Request) (tries : nat)
    (resp : Response) (err : option error) (n : Generic.Net) :
  Generic.maxTries <= fuel + tries ->
  Generic.Request_loop RoundTrip (S fuel) req tries resp err n =
  Generic.Request_loop RoundTrip fuel req tries resp err n.
Proof.
  revert tries resp err n.
  induction fuel as [|fuel IH]; intros tries resp err n Hle.
  - cbn [Generic.Request_loop].
    assert ((tries <? Generic.maxTries)%nat = false) as ->
      by (apply Nat.ltb_ge; lia).
    by rewrite andb_false_r.
  - remember (S fuel) as f eqn:Hf.
    cbn [Generic.Request_loop]. subst f.
    cbn [Generic.Request_loop].
    destruct (Generic.is_nil (Body resp) && (tries <? Generic.maxTries)%nat);
      [|reflexivity].
    destruct (Generic.client_Do RoundTrip n req) as [[r|e] n'].
    + apply IH; lia.
    + destruct (tries =? Generic.maxTries - 1)%nat; [reflexivity|].
      apply IH; lia.
Qed.

Lemma generic_all_fail (key : string) (req : Request)
    (t t' : TS) (cs : list Request) (rs : list DoResult) :
  let req' := Generic.set_Authorization req (Sprintf "Bearer %s" [key]) in
  answers RoundTrip req' t rs t' ->
  length rs = 5 ->
  forallb failed_generic rs = true ->
  Generic.Request RoundTrip key req
    {| Generic.transport := t; Generic.calls := cs |} =
  ((None, Some (Generic.failed_all_attempts (List.last (map err_of rs) None))),
   {| Generic.transport := t'; Generic.calls := cs ++ repeat req' 5 |}).
Proof.
  intros req' Hans Hlen Hfail.
  do 5 (destruct rs as [|? rs]; [discriminate Hlen|]).
  destruct rs; [|discriminate Hlen]. clear Hlen.
  invert_answers.
  unfold Generic.Request. fold req'.
  cbn in Hfail.
  repeat match goal with
  | H : _ && _ = true |- _ => apply andb_prop in H; destruct H
  end.
  unfold Generic.maxTries.
  cbn [Generic.Request_loop Generic.is_nil new_Response Body andb
       Nat.ltb Nat.leb Generic.maxTries].
  unfold Generic.client_Do; cbn [Generic.transport Generic.calls].
  repeat match goal with
  | H : RoundTrip _ _ = _ |- _ => rewrite H; clear H
  | d : DoResult |- _ =>
      destruct d; cbn [failed_generic] in *; try discriminate;
      cbn [Generic.Request_loop Generic.is_nil new_Response Body andb
           Nat.ltb Nat.leb Nat.eqb Nat.sub Generic.maxTries
           Generic.transport Generic.calls]
  end;
  cbn [map err_of List.last]; rewrite <- !app_assoc; reflexivity.
Qed.

Lemma generic_fifth_succeeds (key : string) (req : Request)
    (t t' : TS) (cs : list Request) (rs : list DoResult) (resp : Response) :
  let req' := Generic.set_Authorization req (Sprintf "Bearer %s" [key]) in
  answers RoundTrip req' t (rs ++ [DoResponse resp]) t' ->
  length rs = 4 ->
  forallb failed_generic rs = true ->
  Body resp <> None ->
  Generic.Request RoundTrip key req
    {| Generic.transport := t; Generic.calls := cs |} =
  ((Some resp, None),
   {| Generic.transport := t'; Generic.calls := cs ++ repeat req' 5 |}).
Proof.
  intros req' Hans Hlen Hfail Hbody.
  do 4 (destruct rs as [|? rs]; [discriminate Hlen|]).
  destruct rs; [|discriminate Hlen]. clear Hlen.
  cbn [app] in Hans. invert_answers.
  unfold Generic.Request. fold req'.
  cbn in Hfail.
  repeat match goal with
  | H : _ && _ = true |- _ => apply andb_prop in H; destruct H
  end.
  destruct (Body resp) as [body|] eqn:Hb; [|congruence].
  unfold Generic.maxTries.
  cbn [Generic.Request_loop Generic.is_nil new_Response Body andb
       Nat.ltb Nat.leb Generic.maxTries].
  unfold Generic.client_Do; cbn [Generic.transport Generic.calls].
  repeat match goal with
  | H : RoundTrip _ _ = _ |- _ => rewrite H; clear H
  | d : DoResult |- _ =>
      destruct d; cbn [failed_generic] in *; try discriminate;
      cbn [Generic.Request_loop Generic.is_nil new_Response Body andb
           Nat.ltb Nat.leb Nat.eqb Nat.sub Generic.maxTries
           Generic.transport Generic.calls]
  end;
  rewrite ?Hb; cbn [Generic.is_nil andb];
  rewrite <- !app_assoc; reflexivity.
Qed.

End Generic.

(** C3: when the first five attempts fail, [Request] makes exactly five
    calls and returns a nil response with the error built from the error of
    the fifth; when four attempts fail and the fifth answers with a body
    (and, in the typed client, a status below 300), [Request] returns that
    response and a nil error after five calls.  Both hold for the typed
    client, where a status of 300 or more is a failure too, and for the
    generic client. *)
Theorem Request_retries_five_times {TS : Type}
    (RoundTrip : TS -> Request -> DoResult * TS)
    (inv : Investigate.Investigate) (req : Request)
    (t t' : TS) (rs : list DoResult) (resp : Response) :
  let key := Investigate.key inv in
  let req_t := Investigate.set_Authorization req (Sprintf "Bearer %s" [key]) in
  let req_g := Generic.set_Authorization req (Sprintf "Bearer %s" [key]) in
  (answers RoundTrip req_t t rs t' -> length rs = 5 ->
   forallb failed_typed rs = true ->
   Investigate.Request RoundTrip inv req
     {| Investigate.transport := t; Investigate.calls := [] |} =
   ((None, Some (Investigate.failed_all_attempts (List.last (map err_of rs) None))),
    {| Investigate.transport := t'; Investigate.calls := repeat req_t 5 |})) /\
  (answers RoundTrip req_t t (rs ++ [DoResponse resp]) t' -> length rs = 4 ->
   forallb failed_typed rs = true ->
   Body resp <> None -> (StatusCode resp < 300)%Z ->
   Investigate.Request RoundTrip inv req
     {| Investigate.transport := t; Investigate.calls := [] |} =
   ((Some resp, None),
    {| Investigate.transport := t'; Investigate.calls := repeat req_t 5 |})) /\
  (answers RoundTrip req_g t rs t' -> length rs = 5 ->
   forallb failed_generic rs = true ->
   Generic.Request RoundTrip key req
     {| Generic.transport := t; Generic.calls := [] |} =
   ((None, Some (Generic.failed_all_attempts (List.last (map err_of rs) None))),
    {| Generic.transport := t'; Generic.calls := repeat req_g 5 |})) /\
  (answers RoundTrip req_g t (rs ++ [DoResponse resp]) t' -> length rs = 4 ->
   forallb failed_generic rs = true ->
   Body resp <> None ->
   Generic.Request RoundTrip key req
     {| Generic.transport := t; Generic.calls := [] |} =
   ((Some resp, None),
    {| Generic.transport := t'; Generic.calls := repeat req_g 5 |})).
Proof.
  intros key req_t req_g. repeat split.
  - intros. by apply (typed_all_fail RoundTrip inv req t t' [] rs).
  - intros. by apply (typed_fifth_succeeds RoundTrip inv req t t' [] rs resp).
  - intros. by apply (generic_all_fail RoundTrip key req t t' [] rs).
  - intros. by apply (generic_fifth_succeeds RoundTrip key req t t' [] rs resp).
Qed.

(** C3 on the two example transports, for a GET of an example URL. *)
Lemma Request_retries_five_times_witness :
  let req := get_request "" "https://investigate.api.opendns.com/x" in
  let sent := get_request "k" "https://investigate.api.opendns.com/x" in
  Investigate.Request (scripted Examples.always_fails) (Investigate.New "k") req
    {| Investigate.transport := 0; Investigate.calls := [] |} =
  ((None, Some (Investigate.failed_all_attempts (Some (Examples.attempt_error 4)))),
   {| Investigate.transport := 5; Investigate.calls := repeat sent 5 |}) /\
  Generic.Request (scripted Examples.fifth_succeeds) "k" req
    {| Generic.transport := 0; Generic.calls := [] |} =
  ((Some Examples.ok_response, None),
   {| Generic.transport := 5; Generic.calls := repeat sent 5 |}).
Proof.
  split.
  - exact (proj1 (Request_retries_five_times (scripted Examples.always_fails)
             (Investigate.New "k") (get_request "" "https://investigate.api.opendns.com/x")
             0 5 (map Examples.always_fails (seq 0 5)) Examples.ok_response)
             (answers_scripted Examples.always_fails _ 5 0) eq_refl eq_refl).
  - exact (proj2 (proj2 (proj2 (Request_retries_five_times (scripted Examples.fifth_succeeds)
             (Investigate.New "k") (get_request "" "https://investigate.api.opendns.com/x")
             0 5 (map Examples.fifth_succeeds (seq 0 4)) Examples.ok_response)))
             (answers_scripted Examples.fifth_succeeds _ 5 0) eq_refl eq_refl
             ltac:(discriminate)).
Defined.

End RequestFacts.

(** * Properties of the single-item operations *)

Module ClientFacts.
Import Go Http Transport.

Lemma append_empty_r (s : string) : (s ++ "")%string = s.
Proof.
  induction s as [|c s IH]; [reflexivity|].
  change (String c (s ++ "")%string = String c s). by rewrite IH.
Qed.

Lemma Sprintf_Bearer (key : string) :
  Sprintf "Bearer %s" [key] = ("Bearer " ++ key)%string.
Proof.
  change (Sprintf "Bearer %s" [key]) with ("Bearer " ++ (key ++ ""))%string.
  by rewrite append_empty_r.
Qed.

Lemma typed_queryTypeSupported_spec (qType : string) :
  Investigate.queryTypeSupported qType = true <-> In qType Spec.allow_set.
Proof.
  unfold Investigate.queryTypeSupported, Investigate.supportedQueryTypes,
    Spec.allow_set.
  cbn [list_to_map foldr fst snd uncurry].
  rewrite !lookup_insert, lookup_empty.
  repeat case_decide; subst; cbn [In]; split; intros Hq;
    try reflexivity; try discriminate; try tauto.
  all: destruct Hq as [Hq|[Hq|[Hq|[Hq|[Hq|[]]]]]]; congruence.
Qed.

Lemma generic_supportedQueryTypes_spec (qType : string) :
  Generic.supportedQueryTypes !! qType = None <-> ~ In qType Spec.allow_set.
Proof.
  unfold Generic.supportedQueryTypes, Spec.allow_set.
  cbn [list_to_map foldr fst snd uncurry].
  rewrite !lookup_insert, lookup_empty.
  repeat case_decide; subst; cbn [In]; split; intros Hq;
    try reflexivity; try discriminate; try tauto.
  all: try (exfalso; apply Hq; tauto).
Qed.

Section Typed.

Context {TS : Type}.
Variable RoundTrip : TS -> Request -> DoResult * TS.
Variable url_Parse : string -> error + URL.
Variable json_Decode :
  forall k : Investigate.kind, Reader -> Investigate.pointee k ->
    Reader * Investigate.pointee k * outcome unit.

(** The loop of [Request] hands the same request to the transport each time,
    at most [fuel] times, and at least once when its guard holds. *)
Lemma Request_loop_calls (fuel : nat) (req : Request) (tries : nat)
    (resp : Response) (err : option error) (n : Investigate.Net) :
  exists k,
    Investigate.calls (snd (Investigate.Request_loop RoundTrip fuel req tries resp err n))
      = Investigate.calls n ++ repeat req k /\
    k <= fuel /\
    (0 < fuel ->
     Investigate.is_nil (Body resp) && (tries <? Investigate.maxTries)%nat = true ->
     1 <= k).
Proof.
  revert tries resp err n.
  induction fuel as [|fuel IH]; intros tries resp err n.
  - exists 0. cbn. rewrite app_nil_r. split; [reflexivity|split; lia].
  - cbn [Investigate.Request_loop].
    destruct (Investigate.is_nil (Body resp) && (tries <? Investigate.maxTries)%nat) eqn:Hg.
    + unfold Investigate.client_Do.
      destruct (RoundTrip (Investigate.transport n) req) as [r t1].
      set (n1 := {| Investigate.transport := t1;
                    Investigate.calls := Investigate.calls n ++ [req] |}).
      assert (forall resp' err',
        exists k,
          Investigate.calls
            (snd (Investigate.Request_loop RoundTrip fuel req (S tries) resp' err' n1))
          = Investigate.calls n ++ repeat req k /\ k <= S fuel /\ 1 <= k) as Hrec.
      { intros resp' err'.
        destruct (IH (S tries) resp' err' n1) as (k & Hk & Hle & _).
        exists (S k). rewrite Hk. cbn [Investigate.calls n1 repeat].
        rewrite <- app_assoc. split; [reflexivity|split; lia]. }
      assert (exists k,
          Investigate.calls n1 = Investigate.calls n ++ repeat req k /\
          k <= S fuel /\ 1 <= k) as Hstop.
      { exists 1. cbn. split; [reflexivity|split; lia]. }
      destruct r as [r|e].
      * destruct (300 <=? StatusCode r)%Z;
          [destruct (tries =? Investigate.maxTries - 1)%nat|].
        -- destruct Hstop as (k & ? & ? & ?). exists k. cbn [snd]. auto.
        -- destruct (Hrec new_Response None) as (k & ? & ? & ?). exists k. auto.
        -- destruct (Hrec r None) as (k & ? & ? & ?). exists k. auto.
      * destruct (tries =? Investigate.maxTries - 1)%nat.
        -- destruct Hstop as (k & ? & ? & ?). exists k. cbn [snd]. auto.
        -- destruct (Hrec new_Response (Some e)) as (k & ? & ? & ?). exists k. auto.
    + exists 0. cbn. rewrite app_nil_r.
      split; [reflexivity|split; [lia|discriminate]].
Qed.

Lemma Get_calls (inv : Investigate.Investigate) (subUri : string)
    (n : Investigate.Net) (u : URL) :
  url_Parse (Investigate.baseUrl ++ subUri)%string = inr u ->
  exists k, 1 <= k <= 5 /\
    Investigate.calls (snd (Investigate.Get RoundTrip url_Parse inv subUri n)) =
    Investigate.calls n ++
      repeat (get_request (Investigate.key inv)
                (Investigate.baseUrl ++ subUri)%string) k.
Proof.
  intros Hu. unfold Investigate.Get, Investigate.NewRequest. rewrite Hu.
  unfold Investigate.Request.
  destruct (Request_loop_calls Investigate.maxTries
              (Investigate.set_Authorization
                 {| Method := "GET"; RawURL := (Investigate.baseUrl ++ subUri)%string;
                    Authorization := ""; ReqBody := None |}
                 (Sprintf "Bearer %s" [Investigate.key inv]))
              0 new_Response None n) as (k & Hk & Hle & Hge).
  exists k. split.
  - split; [apply Hge; [unfold Investigate.maxTries; lia|reflexivity]|exact Hle].
  - rewrite Hk. unfold Investigate.set_Authorization, get_request.
    cbn [Method RawURL ReqBody]. by rewrite Sprintf_Bearer.
Qed.

Lemma Get_refused (inv : Investigate.Investigate) (subUri : string)
    (n : Investigate.Net) (e : error) :
  url_Parse (Investigate.baseUrl ++ subUri)%string = inl e ->
  Investigate.Get RoundTrip url_Parse inv subUri n =
  ((None, Some (errorf_error "Error processing GET request: %v" (Some e))), n).
Proof.
  intros He. unfold Investigate.Get, Investigate.NewRequest. by rewrite He.
Qed.

Lemma GetParse_net {k : Investigate.kind} (inv : Investigate.Investigate)
    (subUri : string) (v : Investigate.pointee k) (n : Investigate.Net) :
  snd (Investigate.GetParse RoundTrip url_Parse json_Decode inv subUri v n) =
  snd (Investigate.Get RoundTrip url_Parse inv subUri n).
Proof.
  unfold Investigate.GetParse.
  destruct (Investigate.Get RoundTrip url_Parse inv subUri n) as [[resp err] n'].
  destruct err; [reflexivity|].
  destruct resp as [r|]; [|reflexivity].
  destruct (Body r); [|reflexivity].
  destruct (Investigate.parseBody json_Decode r0 v) as [[? ?] ?]. reflexivity.
Qed.

(** With a query type outside the allow-set the typed operations return
    the error at once and leave the network as it was. *)
Lemma typed_unsupported (inv : Investigate.Investigate) (x qType : string)
    (n : Investigate.Net) :
  ~ In qType Spec.allow_set ->
  Investigate.IpRRHistory RoundTrip url_Parse json_Decode inv x qType n =
    (Err (errorString "unsupported query type"), n) /\
  Investigate.DomainRRHistory RoundTrip url_Parse json_Decode inv x qType n =
    (Err (errorString "unsupported query type"), n).
Proof.
  intros Hq.
  assert (Investigate.queryTypeSupported qType = false) as Hf.
  { destruct (Investigate.queryTypeSupported qType) eqn:E; [|reflexivity].
    apply typed_queryTypeSupported_spec in E. contradiction. }
  unfold Investigate.IpRRHistory, Investigate.DomainRRHistory.
  rewrite Hf. split; reflexivity.
Qed.

Lemma IpRRHistory_net (inv : Investigate.Investigate) (ip qType : string)
    (n : Investigate.Net) :
  In qType Spec.allow_set ->
  snd (Investigate.IpRRHistory RoundTrip url_Parse json_Decode inv ip qType n) =
  snd (Investigate.Get RoundTrip url_Parse inv
         ("/dnsdb/ip/" ++ qType ++ "/" ++ ip ++ ".json")%string n).
Proof.
  intros Hq. apply typed_queryTypeSupported_spec in Hq.
  unfold Investigate.IpRRHistory. rewrite Hq. cbn [negb].
  change (Sprintf (Investigate.urls_at "ip") [qType; ip])
    with ("/dnsdb/ip/" ++ qType ++ "/" ++ ip ++ ".json")%string.
  rewrite <- (GetParse_net (k := Investigate.KIPRRHistory) inv _
                Records.new_IPRRHistory n).
  destruct (Investigate.GetParse _ _ _ _ _ _ _) as [[resp res] n'].
  destruct res; reflexivity.
Qed.

Lemma DomainRRHistory_net (inv : Investigate.Investigate) (domain qType : string)
    (n : Investigate.Net) :
  In qType Spec.allow_set ->
  snd (Investigate.DomainRRHistory RoundTrip url_Parse json_Decode inv domain qType n) =
  snd (Investigate.Get RoundTrip url_Parse inv
         ("/dnsdb/name/" ++ qType ++ "/" ++ domain ++ ".json")%string n).
Proof.
  intros Hq. apply typed_queryTypeSupported_spec in Hq.
  unfold Investigate.DomainRRHistory. rewrite Hq. cbn [negb].
  change (Sprintf (Investigate.urls_at "domain") [qType; domain])
    with ("/dnsdb/name/" ++ qType ++ "/" ++ domain ++ ".json")%string.
  rewrite <- (GetParse_net (k := Investigate.KDomainRRHistory) inv _
                Records.new_DomainRRHistory n).
  destruct (Investigate.GetParse _ _ _ _ _ _ _) as [[resp res] n'].
  destruct res; reflexivity.
Qed.

End Typed.

Section Generic.

Context {TS : Type}.
Variable RoundTrip : TS -> Request -> DoResult * TS.
Variable url_Parse : string -> error + URL.
Variable json_Decode : Reader -> Reader * (value * option error).

Lemma generic_Request_loop_calls (fuel : nat) (req : Request) (tries : nat)
    (resp : Response) (err : option error) (n : Generic.Net) :
  exists k,
    Generic.calls (snd (Generic.Request_loop RoundTrip fuel req tries resp err n))
      = Generic.calls n ++ repeat req k /\
    k <= fuel /\
    (0 < fuel ->
     Generic.is_nil (Body resp) && (tries <? Generic.maxTries)%nat = true ->
     1 <= k).
Proof.
  revert tries resp err n.
  induction fuel as [|fuel IH]; intros tries resp err n.
  - exists 0. cbn. rewrite app_nil_r. split; [reflexivity|split; lia].
  - cbn [Generic.Request_loop].
    destruct (Generic.is_nil (Body resp) && (tries <? Generic.maxTries)%nat) eqn:Hg.
    + unfold Generic.client_Do.
      destruct (RoundTrip (Generic.transport n) req) as [r t1].
      set (n1 := {| Generic.transport := t1;
                    Generic.calls := Generic.calls n ++ [req] |}).
      assert (forall resp' err',
        exists k,
          Generic.calls
            (snd (Generic.Request_loop RoundTrip fuel req (S tries) resp' err' n1))
          = Generic.calls n ++ repeat req k /\ k <= S fuel /\ 1 <= k) as Hrec.
      { intros resp' err'.
        destruct (IH (S tries) resp' err' n1) as (k & Hk & Hle & _).
        exists (S k). rewrite Hk. cbn [Generic.calls n1 repeat].
        rewrite <- app_assoc. split; [reflexivity|split; lia]. }
      destruct r as [r|e].
      * destruct (Hrec r None) as (k & ? & ? & ?). exists k. auto.
      * destruct (tries =? Generic.maxTries - 1)%nat.
        -- exists 1. cbn. split; [reflexivity|split; lia].
        -- destruct (Hrec new_Response (Some e)) as (k & ? & ? & ?). exists k. auto.
    + exists 0. cbn. rewrite app_nil_r.
      split; [reflexivity|split; [lia|discriminate]].
Qed.

Lemma generic_Get_calls (key subUri : string) (n : Generic.Net) (u : URL) :
  url_Parse (Generic.baseUrl ++ subUri)%string = inr u ->
  exists k, 1 <= k <= 5 /\
    Generic.calls (snd (Generic.Get RoundTrip url_Parse key subUri n)) =
    Generic.calls n ++
      repeat (get_request key (Generic.baseUrl ++ subUri)%string) k.
Proof.
  intros Hu. unfold Generic.Get, Generic.NewRequest. rewrite Hu.
  unfold Generic.Request.
  destruct (generic_Request_loop_calls Generic.maxTries
              (Generic.set_Authorization
                 {| Method := "GET"; RawURL := (Generic.baseUrl ++ subUri)%string;
                    Authorization := ""; ReqBody := None |}
                 (Sprintf "Bearer %s" [key]))
              0 new_Response None n) as (k & Hk & Hle & Hge).
  exists k. split.
  - split; [apply Hge; [unfold Generic.maxTries; lia|reflexivity]|exact Hle].
  - rewrite Hk. unfold Generic.set_Authorization, get_request.
    cbn [Method RawURL ReqBody]. by rewrite Sprintf_Bearer.
Qed.

Lemma generic_GetParse_net (key subUri : string) (n : Generic.Net) :
  snd (Generic.GetParse RoundTrip url_Parse json_Decode key subUri n) =
  snd (Generic.Get RoundTrip url_Parse key subUri n).
Proof.
  unfold Generic.GetParse.
  destruct (Generic.Get RoundTrip url_Parse key subUri n) as [[resp err] n'].
  destruct err; [reflexivity|].
  destruct resp as [r|]; [|reflexivity].
  destruct (Body r); reflexivity.
Qed.

Lemma RRHistory_unsupported (key query qType : string) (n : Generic.Net) :
  ~ In qType Spec.allow_set ->
  Generic.RRHistory RoundTrip url_Parse json_Decode key query qType n =
    (Ok (VNil, Some (errorString "unsupported query type")), n).
Proof.
  intros Hq. apply generic_supportedQueryTypes_spec in Hq.
  unfold Generic.RRHistory. by rewrite Hq.
Qed.

Lemma RRHistory_net (key query qType : string) (n : Generic.Net) :
  In qType Spec.allow_set ->
  snd (Generic.RRHistory RoundTrip url_Parse json_Decode key query qType n) =
  snd (Generic.Get RoundTrip url_Parse key (Spec.RRHistory_uri query qType) n).
Proof.
  intros Hq.
  destruct (Generic.supportedQueryTypes !! qType) as [z|] eqn:E.
  - unfold Generic.RRHistory, Spec.RRHistory_uri. rewrite E.
    unfold Generic.ipRRHistory, Generic.domainRRHistory.
    destruct (Generic.match_ip query); apply generic_GetParse_net.
  - apply generic_supportedQueryTypes_spec in E. contradiction.
Qed.

End Generic.

Section ParseBody.

Variable json_Decode :
  forall k : Investigate.kind, Reader -> Investigate.pointee k ->
    Reader * Investigate.pointee k * outcome unit.

(** [parseBody] closes the stream once on every way out. *)
Lemma parseBody_closes_once {k : Investigate.kind} (respBody : ReadCloser)
    (v : Investigate.pointee k) :
  closes (fst (fst (Investigate.parseBody json_Decode respBody v))) =
  S (closes respBody).
Proof.
  unfold Investigate.parseBody.
  destruct (if Investigate.supported_kind k
            then json_Decode k (reader respBody) v
            else (reader respBody, v, Err (errorString "type of v is unsupported")))
    as [[rd v'] res].
  destruct res; try reflexivity.
  cbn [ReadAll]. destruct (read_err rd); reflexivity.
Qed.

(** On a decode error the [Body] of the returned [JSONDecodeError] is what
    the decoder left unread. *)
Lemma parseBody_error_body {k : Investigate.kind} (respBody : ReadCloser)
    (v v' : Investigate.pointee k) (rd : Reader) (e : error) :
  Investigate.supported_kind k = true ->
  json_Decode k (reader respBody) v = (rd, v', Err e) ->
  read_err rd = None ->
  snd (Investigate.parseBody json_Decode respBody v) =
  Err (JSONDecodeError e (unread rd)).
Proof.
  intros Hk Hd Hr. unfold Investigate.parseBody. rewrite Hk, Hd.
  cbn [ReadAll]. rewrite Hr. reflexivity.
Qed.

End ParseBody.

(** C8 (the code departs from it): [parseBody] closes the body once, but the
    bytes it puts in the error are read from the stream after the decoder
    has consumed it.  For the body not json, which the decoder reads whole
    before it reports the syntax error, the error carries an empty [Body]
    and not the original bytes. *)
Theorem parseBody_error_loses_the_bytes_read :
  Investigate.parseBody (k := Investigate.KSecurityFeatures)
    Examples.failing_Decode Examples.not_json_body Records.new_SecurityFeatures
  = ({| reader := {| unread := []; read_err := None |}; closes := 1 |},
     Records.new_SecurityFeatures,
     Err (JSONDecodeError
            (errorString "invalid character o in literal null (expecting u)") []))
  /\ unread (reader Examples.not_json_body) <> [].
Proof. split; [reflexivity|discriminate]. Qed.

Lemma Sprintf_categorization (domain : string) :
  Sprintf (Investigate.urls_at "categorization") [domain] =
  ("/domains/categorization/" ++ domain)%string.
Proof.
  change (Sprintf (Investigate.urls_at "categorization") [domain])
    with ("/domains/categorization/" ++ (domain ++ ""))%string.
  by rewrite append_empty_r.
Qed.

(** C9: [catUri] parses the path template with the domain substituted,
    replaces the query of the parsed URL by showLabels=true when [labels] is
    set and by the empty query otherwise, and returns the URL as a string:
    what stands before the query, then ?showLabels=true exactly when
    [labels] is set, then what stands after it.  (When the path does not
    parse, [log.Fatal] ends the process.) *)
Theorem catUri_showLabels (url_Parse : string -> error + URL)
    (domain : string) (labels : bool) (u : URL) :
  url_Parse ("/domains/categorization/" ++ domain)%string = inr u ->
  let query := if labels then "showLabels=true" else "" in
  Investigate.catUri url_Parse domain labels = Ok (URL_String (set_RawQuery u query)) /\
  RawQuery (set_RawQuery u query) = query /\
  URL_String (set_RawQuery u query) =
    (before_query u
     ++ (if labels then "?showLabels=true" else if ForceQuery u then "?" else "")
     ++ after_query u)%string.
Proof.
  intros Hu query. unfold Investigate.catUri.
  rewrite Sprintf_categorization, Hu.
  split; [|split].
  - destruct labels; reflexivity.
  - reflexivity.
  - unfold URL_String, query. cbn [set_RawQuery before_query ForceQuery RawQuery after_query].
    destruct labels, (ForceQuery u); reflexivity.
Qed.

(** When the path does not parse, [catUri] ends the process. *)
Lemma catUri_fatal (url_Parse : string -> error + URL)
    (domain : string) (labels : bool) (e : error) :
  url_Parse ("/domains/categorization/" ++ domain)%string = inl e ->
  Investigate.catUri url_Parse domain labels = Fatal e.
Proof.
  intros He. unfold Investigate.catUri.
  by rewrite Sprintf_categorization, He.
Qed.

(** C9 for www.amazon.com, with and without labels. *)
Lemma catUri_showLabels_witness :
  Investigate.catUri Examples.plain_Parse "www.amazon.com" true =
    Ok "/domains/categorization/www.amazon.com?showLabels=true" /\
  Investigate.catUri Examples.plain_Parse "www.amazon.com" false =
    Ok "/domains/categorization/www.amazon.com".
Proof.
  split.
  - exact (proj1 (catUri_showLabels Examples.plain_Parse "www.amazon.com" true
                    _ eq_refl)).
  - exact (proj1 (catUri_showLabels Examples.plain_Parse "www.amazon.com" false
                    _ eq_refl)).
Defined.

(** C10: [Categorization] returns a record exactly when [catUri] gives a
    URI, [GetParse] on it returns a nil error, and the map it filled has an
    entry for the requested domain; when the error is nil and the map has no
    such entry, it returns no record and the error received a malformed
    response body. *)
Theorem Categorization_needs_domain_key {TS : Type}
    (RoundTrip : TS -> Request -> DoResult * TS)
    (url_Parse : string -> error + URL)
    (json_Decode : forall k : Investigate.kind, Reader ->
       Investigate.pointee k -> Reader * Investigate.pointee k * outcome unit)
    (inv : Investigate.Investigate) (domain : string) (labels : bool)
    (n n' : Investigate.Net) :
  let decoded (resp : gmap string Types.DomainCategorization) :=
    exists uri,
      Investigate.catUri url_Parse domain labels = Ok uri /\
      Investigate.GetParse (k := Investigate.KCategorizations)
        RoundTrip url_Parse json_Decode inv uri ∅ n = ((resp, Ok tt), n') in
  (forall cat,
     Investigate.Categorization RoundTrip url_Parse json_Decode inv domain labels n
       = (Ok cat, n') <->
     exists resp, decoded resp /\ resp !! domain = Some cat) /\
  (forall resp,
     decoded resp -> resp !! domain = None ->
     Investigate.Categorization RoundTrip url_Parse json_Decode inv domain labels n
       = (Err (errorString "received a malformed response body"), n')).
Proof.
  intros decoded. unfold decoded, Investigate.Categorization. split.
  - intros cat. split.
    + destruct (Investigate.catUri url_Parse domain labels) as [uri|e|pn|e];
        try (intros Hbad; discriminate Hbad).
      destruct (Investigate.GetParse _ _ _ _ _ _ _) as [[resp res] n1] eqn:Hg.
      destruct res as [[]|e|pn|e]; try (intros Hbad; discriminate Hbad).
      destruct (resp !! domain) as [c|] eqn:Hl; intros Heq;
        [|discriminate Heq].
      injection Heq as <- <-.
      exists resp. split; [|exact Hl]. exists uri. by rewrite Hg.
    + intros (resp & (uri & Hc & Hg) & Hl).
      rewrite Hc, Hg. cbv beta iota. cbn [Investigate.pointee].
      rewrite Hl. reflexivity.
  - intros resp (uri & Hc & Hg) Hl.
    rewrite Hc, Hg. cbv beta iota. cbn [Investigate.pointee].
    rewrite Hl. reflexivity.
Qed.

(** C10 on the example service, whose answer has an entry for
    www.amazon.com only. *)
Lemma Categorization_needs_domain_key_witness :
  let n := {| Investigate.transport := 0; Investigate.calls := [] |} in
  let called (domain : string) :=
    {| Investigate.transport := 1;
       Investigate.calls :=
         [get_request "k"
            ("https://investigate.api.opendns.com/domains/categorization/" ++ domain)%string] |} in
  Investigate.Categorization (scripted Examples.always_succeeds)
    Examples.plain_Parse Examples.example_Decode (Investigate.New "k")
    "bibikun.ru" false n
  = (Err (errorString "received a malformed response body"), called "bibikun.ru") /\
  Investigate.Categorization (scripted Examples.always_succeeds)
    Examples.plain_Parse Examples.example_Decode (Investigate.New "k")
    "www.amazon.com" false n
  = (Ok Examples.example_cat, called "www.amazon.com").
Proof.
  split.
  - refine (proj2 (Categorization_needs_domain_key (scripted Examples.always_succeeds)
              Examples.plain_Parse Examples.example_Decode (Investigate.New "k")
              "bibikun.ru" false _ _)
              {["www.amazon.com" := Examples.example_cat]} _ _).
    + eexists. split; reflexivity.
    + reflexivity.
  - refine (proj2 (proj1 (Categorization_needs_domain_key
              (scripted Examples.always_succeeds)
              Examples.plain_Parse Examples.example_Decode (Investigate.New "k")
              "www.amazon.com" false _ _) Examples.example_cat) _).
    exists {["www.amazon.com" := Examples.example_cat]}. split.
    + eexists. split; reflexivity.
    + reflexivity.
Defined.

(** C4: a query type outside A, NS, MX, TXT, CNAME makes [IpRRHistory],
    [DomainRRHistory] and [RRHistory] return a nil result with the error
    unsupported query type, and the network is left untouched; a query type
    inside the set passes the check, and when the URL of the request parses
    the GET request for it is handed to the transport (once, and again on
    each retry, five times at most). *)
Theorem rr_history_checks_query_type {TS : Type}
    (RoundTrip : TS -> Request -> DoResult * TS)
    (url_Parse : string -> error + URL)
    (typed_Decode : forall k : Investigate.kind, Reader ->
       Investigate.pointee k -> Reader * Investigate.pointee k * outcome unit)
    (generic_Decode : Reader -> Reader * (value * option error))
    (inv : Investigate.Investigate) (x qType : string)
    (n : Investigate.Net) (g : Generic.Net) :
  let key := Investigate.key inv in
  let issued (subUri : string) (before after : list Request) :=
    exists k, 1 <= k <= 5 /\
      after = before ++
        repeat (get_request key ("https://investigate.api.opendns.com" ++ subUri)%string) k in
  (~ In qType Spec.allow_set ->
   Investigate.IpRRHistory RoundTrip url_Parse typed_Decode inv x qType n =
     (Err (errorString "unsupported query type"), n) /\
   Investigate.DomainRRHistory RoundTrip url_Parse typed_Decode inv x qType n =
     (Err (errorString "unsupported query type"), n) /\
   Generic.RRHistory RoundTrip url_Parse generic_Decode key x qType g =
     (Ok (VNil, Some (errorString "unsupported query type")), g)) /\
  (In qType Spec.allow_set ->
   Investigate.queryTypeSupported qType = true /\
   is_Some (Generic.supportedQueryTypes !! qType) /\
   (forall subUri u,
      subUri = ("/dnsdb/ip/" ++ qType ++ "/" ++ x ++ ".json")%string ->
      url_Parse ("https://investigate.api.opendns.com" ++ subUri)%string = inr u ->
      issued subUri (Investigate.calls n)
        (Investigate.calls
           (snd (Investigate.IpRRHistory RoundTrip url_Parse typed_Decode inv x qType n)))) /\
   (forall subUri u,
      subUri = ("/dnsdb/name/" ++ qType ++ "/" ++ x ++ ".json")%string ->
      url_Parse ("https://investigate.api.opendns.com" ++ subUri)%string = inr u ->
      issued subUri (Investigate.calls n)
        (Investigate.calls
           (snd (Investigate.DomainRRHistory RoundTrip url_Parse typed_Decode inv x qType n)))) /\
   (forall subUri u,
      subUri = Spec.RRHistory_uri x qType ->
      url_Parse ("https://investigate.api.opendns.com" ++ subUri)%string = inr u ->
      issued subUri (Generic.calls g)
        (Generic.calls
           (snd (Generic.RRHistory RoundTrip url_Parse generic_Decode key x qType g))))).
Proof.
  intros key issued. split.
  - intros Hq.
    destruct (typed_unsupported RoundTrip url_Parse typed_Decode inv x qType n Hq)
      as [Hip Hdom].
    split; [exact Hip|split; [exact Hdom|]].
    by apply RRHistory_unsupported.
  - intros Hq. split; [by apply typed_queryTypeSupported_spec|]. split.
    { destruct (Generic.supportedQueryTypes !! qType) eqn:E; [by eexists|].
      apply generic_supportedQueryTypes_spec in E. contradiction. }
    split; [|split].
    + intros subUri u -> Hu. unfold issued.
      rewrite (IpRRHistory_net RoundTrip url_Parse typed_Decode inv x qType n Hq).
      apply (Get_calls RoundTrip url_Parse inv _ n u Hu).
    + intros subUri u -> Hu. unfold issued.
      rewrite (DomainRRHistory_net RoundTrip url_Parse typed_Decode inv x qType n Hq).
      apply (Get_calls RoundTrip url_Parse inv _ n u Hu).
    + intros subUri u -> Hu. unfold issued.
      rewrite (RRHistory_net RoundTrip url_Parse generic_Decode key x qType g Hq).
      apply (generic_Get_calls RoundTrip url_Parse key _ g u Hu).
Qed.

(** C4 on examples: AFSDB is refused without a call; A for www.test.com
    issues the GET of the domain history. *)
Lemma rr_history_checks_query_type_witness :
  let n := {| Investigate.transport := 0; Investigate.calls := [] |} in
  Investigate.DomainRRHistory (scripted Examples.always_succeeds)
    Examples.plain_Parse Examples.example_Decode (Investigate.New "k")
    "www.test.com" "AFSDB" n
  = (Err (errorString "unsupported query type"), n) /\
  exists k, 1 <= k <= 5 /\
    Investigate.calls
      (snd (Investigate.DomainRRHistory (scripted Examples.always_succeeds)
              Examples.plain_Parse Examples.example_Decode (Investigate.New "k")
              "www.test.com" "A" n))
    = [] ++ repeat
        (get_request "k"
           "https://investigate.api.opendns.com/dnsdb/name/A/www.test.com.json") k.
Proof.
  split.
  - refine (proj1 (proj2 (proj1
      (rr_history_checks_query_type (scripted Examples.always_succeeds)
         Examples.plain_Parse Examples.example_Decode Examples.example_Decode_any
         (Investigate.New "k") "www.test.com" "AFSDB"
         {| Investigate.transport := 0; Investigate.calls := [] |}
         {| Generic.transport := 0; Generic.calls := [] |}) _))).
    cbn. intros H. decompose [or] H; discriminate || contradiction.
  - refine (proj1 (proj2 (proj2 (proj2 (proj2
      (rr_history_checks_query_type (scripted Examples.always_succeeds)
         Examples.plain_Parse Examples.example_Decode Examples.example_Decode_any
         (Investigate.New "k") "www.test.com" "A"
         {| Investigate.transport := 0; Investigate.calls := [] |}
         {| Generic.transport := 0; Generic.calls := [] |}) _)))) _ _ eq_refl eq_refl).
    cbn. tauto.
Defined.

End ClientFacts.

(** * Properties of the batch engine *)

Module BatchFacts.
Import Go Http Transport Batch BatchInv.

(** C1 (the code departs from it): the worker sends [outVal] when
    [err != nil].  A lookup that succeeds is therefore not sent, and a
    lookup that fails after its five tries sends the nil map it got.  Run
    to the end on one URI, the engine hands its caller nothing for the
    lookup that succeeded and one nil entry for the lookup that failed. *)
Theorem doPGetParse_sends_on_error_only :
  fst (Batch.doPGetParse_item (scripted Examples.always_succeeds)
         Examples.plain_Parse Examples.example_Decode_map "k"
         "/links/name/www.test.com.json" Examples.net0) = Some None /\
  fst (Batch.doPGetParse_item (scripted Examples.always_fails)
         Examples.plain_Parse Examples.example_Decode_map "k"
         "/links/name/www.test.com.json" Examples.net0) = Some (Some None) /\
  Batch.main (Examples.batch_run Examples.always_succeeds) = Batch.MExit /\
  Batch.received (Examples.batch_run Examples.always_succeeds) = [] /\
  Batch.main (Examples.batch_run Examples.always_fails) = Batch.MExit /\
  Batch.received (Examples.batch_run Examples.always_fails) = [None].
Proof. repeat split; vm_compute; reflexivity. Qed.


Lemma sum_list_with_insert {A : Type} (f : A -> nat) (l : list A) (i : nat)
    (x y : A) :
  l !! i = Some x ->
  sum_list_with f (<[i := y]> l) + f x = sum_list_with f l + f y.
Proof.
  revert i. induction l as [|a l IH]; intros [|i] Hl; try discriminate.
  - injection Hl as ->. cbn. lia.
  - cbn in Hl. cbn [sum_list_with]. specialize (IH i Hl).
    change (<[S i:=y]> (a :: l)) with (a :: <[i:=y]> l). cbn [sum_list_with]. lia.
Qed.

Lemma sum_list_with_lookup {A : Type} (f : A -> nat) (l : list A) (i : nat) (x : A) :
  l !! i = Some x -> f x <= sum_list_with f l.
Proof.
  intros Hl. apply sum_list_with_in. by eapply list_elem_of_lookup_2.
Qed.

Lemma exited_le_length (l : list Worker) :
  sum_list_with exited l <= length l.
Proof.
  induction l as [|w l IH]; cbn; [lia|].
  unfold exited at 1. destruct (wpc w); lia.
Qed.

Lemma exited_lt_length (l : list Worker) (i : nat) (w : Worker) :
  l !! i = Some w -> exited w = 0 -> sum_list_with exited l < length l.
Proof.
  revert i. induction l as [|a l IH]; intros [|i] Hl Hw; try discriminate.
  - injection Hl as ->. cbn. rewrite Hw. pose proof (exited_le_length l). lia.
  - cbn in Hl. specialize (IH i Hl Hw). cbn.
    unfold exited at 1. destruct (wpc a); lia.
Qed.

Lemma exited_all (l : list Worker) :
  sum_list_with exited l = length l -> Forall (fun w => wpc w = WExit) l.
Proof.
  induction l as [|a l IH]; intros H; [constructor|].
  cbn in H. pose proof (exited_le_length l).
  assert (exited a = 1) by (unfold exited in *; destruct (wpc a); lia).
  constructor.
  - unfold exited in *. destruct (wpc a); try discriminate; reflexivity.
  - apply IH. lia.
Qed.

Lemma exists_not_exited (l : list Worker) :
  sum_list_with exited l < length l ->
  exists i w, l !! i = Some w /\ exited w = 0.
Proof.
  induction l as [|a l IH]; cbn; intros H; [lia|].
  destruct (exited a) eqn:E.
  - exists 0, a. auto.
  - assert (exited a = 1) by (unfold exited in *; destruct (wpc a); lia).
    destruct IH as (i & w & Hl & Hw); [lia|].
    exists (S i), w. auto.
Qed.

Section Engine.

Context {TS : Type}.
Variable RoundTrip : TS -> Request -> DoResult * TS.
Variable url_Parse : string -> error + URL.
Variable json_Decode : Reader -> Reader * (option gomap * option error).
Variable key : string.
Variable subUris : list string.
Variable maxGoroutines : nat.

Abbreviation step_on :=
  (Batch.step_on RoundTrip url_Parse json_Decode key subUris maxGoroutines).
Abbreviation steps :=
  (Batch.steps RoundTrip url_Parse json_Decode key subUris maxGoroutines).
Abbreviation measure := (BatchInv.measure subUris maxGoroutines).
Abbreviation Inv := (@BatchInv.Inv TS subUris maxGoroutines).
Abbreviation no_panic :=
  (Batch.no_panic RoundTrip url_Parse json_Decode key).

Ltac case_step H :=
  repeat match type of H with
  | (if ?c then _ else _) = Some _ => destruct c eqn:?
  | match ?x with _ => _ end = Some _ => destruct x eqn:?
  | None = Some _ => discriminate H
  | Some _ = Some _ => injection H as <-
  end.

Ltac use_insert f :=
  match goal with
  | Hl : workers ?s !! ?i = Some ?x |- context [<[?i := ?y]> (workers ?s)] =>
      pose proof (sum_list_with_insert f (workers s) i x y Hl)
  end.

Ltac bool_hyps :=
  repeat match goal with
  | E : (_ <? _)%nat = true |- _ => apply Nat.ltb_lt in E
  | E : (_ <? _)%nat = false |- _ => apply Nat.ltb_ge in E
  end.

(** The step of a worker that holds [uri] is the turn [doPGetParse_item]:
    it goes on to send when the turn yields a value, back to the range when
    it yields none. *)
Lemma step_worker_item (i : nat) (s : State) (w : Worker) (uri : string) :
  workers s !! i = Some w -> wpc w = WGetParse uri ->
  step_worker RoundTrip url_Parse json_Decode key subUris maxGoroutines i s =
  Some
    match doPGetParse_item RoundTrip url_Parse json_Decode key uri (net s) with
    | (Some (Some outVal), n') =>
        set_worker (set_net s n') i {| wpc := WSend outVal; signals := signals w |}
    | (Some None, n') =>
        set_worker (set_net s n') i {| wpc := WRange; signals := signals w |}
    | (None, n') => crash (set_net s n')
    end.
Proof.
  intros Hl Hpc. unfold step_worker, doPGetParse_item. rewrite Hl, Hpc.
  destruct (GetParse _ _ _ _ _ _) as [[[outVal [e|]]|] n']; reflexivity.
Qed.

Lemma measure_step (g : goroutine) (s s' : State) :
  step_on g s = Some s' -> measure s' < measure s.
Proof.
  unfold Batch.step_on. intros H.
  destruct (crashed s) eqn:Hc; [discriminate|].
  destruct g as [| |i|].
  - unfold step_main in H. case_step H; unfold BatchInv.measure; cbn;
      rewrite ?Hc, ?sum_list_with_app, ?length_app; cbn; bool_hyps;
      repeat match goal with
      | E : main s = _ |- _ => rewrite E
      | E : feeder s = _ |- _ => rewrite E
      | E : outChan s = _ |- _ => rewrite E
      end; cbn; lia.
  - unfold step_feeder in H. case_step H; unfold BatchInv.measure; cbn;
      rewrite ?Hc, ?length_app; cbn; bool_hyps;
      repeat match goal with
      | E : feeder s = _ |- _ => rewrite E
      end; cbn; lia.
  - unfold step_worker in H. case_step H; unfold BatchInv.measure; cbn;
      rewrite ?Hc, ?length_app; cbn; bool_hyps;
      try use_insert worker_weight;
      repeat match goal with x : option error |- _ => destruct x end;
      repeat match goal with
      | E : inChan s = _ |- _ => rewrite E in *
      | E : wpc _ = _ |- _ => unfold worker_weight in *; cbn [wpc] in *; rewrite E in *
      end; cbn in *; lia.
  - unfold step_supervisor in H. case_step H; unfold BatchInv.measure; cbn;
      rewrite ?Hc; cbn; bool_hyps;
      repeat match goal with
      | E : supervisor s = _ |- _ => rewrite E
      end; cbn; lia.
Qed.

Lemma Inv_init (n : Net) : Inv (init n).
Proof.
  constructor; cbn; try tauto; try lia; try reflexivity;
    try (split; intros; congruence); try (right; constructor);
    try discriminate; try constructor.
Qed.

Ltac rewrite_pcs :=
  repeat match goal with
  | E : ?f ?s = _ |- _ => is_var s; progress (rewrite E in * )
  end.

Ltac use_iffs :=
  repeat match goal with
  | H : ?a = ?a <-> ?Q |- _ =>
      let Hq := fresh in assert Q as Hq by (apply H; reflexivity); clear H
  end.

Ltac inv_auto :=
  use_iffs; rewrite_pcs; cbn in *;
  try solve [intuition (try congruence; try lia; try discriminate)];
  try solve [rewrite <- ?app_assoc; cbn; intuition congruence];
  try solve [apply Forall_app; split; [assumption|repeat constructor]];
  try solve [match goal with
             | H : _ \/ _ |- _ \/ _ =>
                 destruct H; [left; assumption|
                   right; apply Forall_app; split; [assumption|repeat constructor]]
             end].

Lemma Inv_step_main (s s' : State) :
  Inv s -> step_main subUris maxGoroutines s = Some s' -> Inv s'.
Proof.
  intros [] H. unfold step_main in H. case_step H; bool_hyps;
    constructor; cbn in *; rewrite_pcs;
    rewrite ?sum_list_with_app, ?length_app in *; cbn in *;
    inv_auto.
Qed.

Lemma Inv_step_feeder (s s' : State) :
  Inv s -> step_feeder subUris s = Some s' -> Inv s'.
Proof.
  intros [] H. unfold step_feeder in H. case_step H; bool_hyps;
    constructor; cbn in *; rewrite_pcs;
    rewrite ?sum_list_with_app, ?length_app in *; cbn in *;
    inv_auto.
Qed.

Lemma Inv_step_supervisor (s s' : State) :
  Inv s -> step_supervisor maxGoroutines s = Some s' -> Inv s'.
Proof.
  intros [] H. unfold step_supervisor in H. case_step H; bool_hyps;
    constructor; cbn in *; rewrite_pcs;
    rewrite ?sum_list_with_app, ?length_app in *; cbn in *;
    inv_auto.
Qed.

Ltac use_inserts :=
  repeat match goal with
  | Hl : workers ?s !! ?i = Some ?x |- _ =>
      match goal with
      | |- context [sum_list_with ?f (<[i := ?y]> (workers s))] =>
          lazymatch goal with
          | _ : sum_list_with f (<[i := y]> (workers s)) + _ = _ |- _ => fail
          | _ => pose proof (sum_list_with_insert f (workers s) i x y Hl)
          end
      end
  end.

Lemma Inv_workers_le (s : State) : Inv s -> length (workers s) <= maxGoroutines.
Proof.
  intros []. destruct (main s); try lia.
  rewrite inv_workers0. cbn. lia.
Qed.

Lemma Inv_step_worker (i : nat) (s s' : State) :
  no_panic ->
  Inv s -> step_worker RoundTrip url_Parse json_Decode key subUris maxGoroutines i s = Some s' ->
  Inv s'.
Proof.
  intros Hnp Hinv H. pose proof (Inv_workers_le s Hinv) as Hlen.
  destruct Hinv. unfold step_worker in H.
  destruct (workers s !! i) as [w|] eqn:Hl; [|discriminate].
  pose proof (Forall_lookup_1 _ _ _ _ inv_worker_signals0 Hl) as Hsig.
  cbn beta in Hsig.
  pose proof (exited_lt_length _ _ _ Hl) as Hlt.
  assert (Forall (fun w => past_loop w = false) (workers s) -> past_loop w = false)
    as Hpast by (intros HF; exact (Forall_lookup_1 _ _ _ _ HF Hl)).
  assert (forall w', match main s with
            | MSpawnFeeder => <[i := w']> (workers s) = []
            | MSpawnWorkers j => length (<[i := w']> (workers s)) = j /\ j <= maxGoroutines
            | _ => length (<[i := w']> (workers s)) = maxGoroutines
            end) as Hworkers.
  { intros w'. rewrite length_insert. destruct (main s); try assumption.
    rewrite inv_workers0 in Hl. discriminate. }
  case_step H; bool_hyps;
    try (exfalso; eapply Hnp; match goal with E : GetParse _ _ _ _ _ _ = _ |- _ =>
           rewrite E; reflexivity end);
    constructor; cbn [main received feeder workers supervisor inChan inChan_closed
       outChan outChan_closed done sent net crashed set_worker set_workers set_inChan
       set_outChan set_done set_sent set_net crash];
    try apply Hworkers; try assumption;
    use_inserts;
    repeat match goal with x : option error |- _ => destruct x end;
    unfold exited, busy, past_loop in *; cbn [wpc signals] in *;
    rewrite_pcs; rewrite ?length_app in *; cbn [length] in *;
    try lia; try assumption;
    use_iffs; rewrite_pcs; cbn [collected unfed] in *;
    try (specialize (Hlt eq_refl));
    try lia;
    try solve [intuition (try congruence; try lia)];
    try solve [apply Forall_insert; [assumption|cbn; congruence || lia]];
    try solve [match goal with
               | Hd : _ \/ _ |- _ \/ _ =>
                   destruct Hd as [Hd|Hd];
                   [left; intuition congruence
                   |right; apply Forall_insert; [assumption|reflexivity]]
               end];
    try solve [match goal with
               | Hd : _ \/ _ |- _ \/ _ =>
                   destruct Hd as [Hd|Hd];
                   [left; intuition congruence
                   |specialize (Hpast Hd); discriminate]
               end];
    try solve [rewrite <- app_assoc; reflexivity].
Qed.

Lemma Inv_step (g : goroutine) (s s' : State) :
  no_panic -> Inv s -> step_on g s = Some s' -> Inv s'.
Proof.
  intros Hnp Hinv H. unfold Batch.step_on in H.
  destruct (crashed s); [discriminate|].
  destruct g.
  - by eapply Inv_step_main.
  - by eapply Inv_step_feeder.
  - by eapply Inv_step_worker.
  - by eapply Inv_step_supervisor.
Qed.

Lemma Inv_steps (k : nat) (n : Net) (s : State) :
  no_panic -> steps k (init n) s -> Inv s.
Proof.
  intros Hnp Hs. remember (init n) as s0 eqn:Hs0.
  induction Hs as [|k s s' s'' _ IH [g Hg]]; subst.
  - apply Inv_init.
  - eapply Inv_step; eauto.
Qed.

Lemma measure_steps (k : nat) (s s' : State) :
  steps k s s' -> k + measure s' <= measure s.
Proof.
  induction 1 as [|k s s' s'' _ IH [g Hg]]; [lia|].
  apply measure_step in Hg. lia.
Qed.

Lemma feeder_can_step (s : State) (rest : list string) :
  Inv s -> feeder s = FFeed rest ->
  exists s', step_feeder subUris s = Some s'.
Proof.
  intros [] Hf. unfold step_feeder. rewrite Hf in *.
  destruct rest as [|uri rest].
  - destruct (inChan_closed s) eqn:Hc; [|eauto].
    exfalso. intuition congruence.
  - cbn in inv_items0.
    assert ((length (inChan s) <? length subUris)%nat = true) as ->
      by (apply Nat.ltb_lt; lia).
    eauto.
Qed.

Lemma worker_can_step (s : State) (i : nat) (w : Worker) :
  Inv s -> workers s !! i = Some w -> exited w = 0 ->
  outChan_closed s = false ->
  (exists s', step_worker RoundTrip url_Parse json_Decode key subUris
                maxGoroutines i s = Some s') \/
  (exists s', step_feeder subUris s = Some s').
Proof.
  intros Hinv Hl Hw Hout. pose proof (Inv_workers_le s Hinv) as Hlen.
  pose proof (exited_lt_length _ _ _ Hl Hw) as Hlt.
  pose proof (sum_list_with_lookup busy _ _ _ Hl) as Hbusy.
  unfold step_worker. rewrite Hl.
  destruct (wpc w) eqn:Hpc.
  - destruct (inChan s) as [|uri rest] eqn:Hin; [|left; eauto].
    destruct (inChan_closed s) eqn:Hc; [left; eauto|].
    right. destruct (feeder s) as [|rest|] eqn:Hf.
    + apply (inv_feeder _ _ _ Hinv) in Hf.
      pose proof (inv_workers _ _ _ Hinv) as Hws. rewrite Hf in Hws.
      rewrite Hws in Hl. discriminate.
    + by eapply feeder_can_step.
    + apply (inv_inChan_closed _ _ _ Hinv) in Hf. congruence.
  - left. destruct (GetParse _ _ _ _ _ _) as [[[outVal err]|] n']; eauto.
  - left. rewrite Hout.
    pose proof (inv_items _ _ _ Hinv) as Hitems.
    assert (busy w = 1) as Hb1 by (unfold busy; by rewrite Hpc).
    rewrite Hb1 in Hbusy.
    assert ((length (outChan s) <? length subUris)%nat = true) as ->
      by (apply Nat.ltb_lt; lia).
    eauto.
  - left.
    pose proof (inv_signals _ _ _ Hinv) as Hsig.
    assert ((done s <? maxGoroutines)%nat = true) as ->
      by (apply Nat.ltb_lt; lia).
    eauto.
  - unfold exited in Hw. rewrite Hpc in Hw. discriminate.
Qed.

(** A state that is not finished has a goroutine that can step. *)
Lemma Inv_progress (s : State) :
  Inv s -> finished s \/ exists g s', step_on g s = Some s'.
Proof.
  intros Hinv. pose proof (Inv_workers_le s Hinv) as Hlen.
  pose proof Hinv as [].
  unfold Batch.step_on. rewrite inv_crashed0.
  destruct (main s) eqn:Hm.
  - right. exists GMain. unfold step_main. rewrite Hm. eauto.
  - right. exists GMain. unfold step_main. rewrite Hm.
    destruct (i <? maxGoroutines)%nat; eauto.
  - right. exists GMain. unfold step_main. rewrite Hm. eauto.
  - right. destruct (outChan s) as [|v rest] eqn:Hout.
    2:{ exists GMain. unfold step_main. rewrite Hm, Hout. eauto. }
    destruct (outChan_closed s) eqn:Hclosed.
    { exists GMain. unfold step_main. rewrite Hm, Hout, Hclosed. eauto. }
    destruct (supervisor s) as [|i|] eqn:Hsup.
    + exfalso. cbn in *. intuition congruence.
    + destruct (i <? maxGoroutines)%nat eqn:Hi.
      * destruct (done s) as [|d] eqn:Hd.
        -- apply Nat.ltb_lt in Hi. cbn in inv_signals0.
           destruct (exists_not_exited (workers s)) as (j & w & Hl & Hw); [lia|].
           destruct (worker_can_step s j w Hinv Hl Hw Hclosed) as [[s' Hs]|[s' Hs]].
           ++ exists (GWorker j), s'. exact Hs.
           ++ exists GFeeder, s'. exact Hs.
        -- exists GSupervisor. unfold step_supervisor. rewrite Hsup, Hi, Hd. eauto.
      * exists GSupervisor. unfold step_supervisor. rewrite Hsup, Hi, Hclosed. eauto.
    + exfalso. cbn in *. intuition congruence.
  - destruct (inv_exit0 eq_refl) as [Hout Hclosed].
    apply inv_outChan_closed0 in Hclosed. rewrite Hclosed in *. cbn in *.
    pose proof (exited_le_length (workers s)).
    destruct (feeder s) as [|rest|] eqn:Hf.
    + exfalso. cbn in *. intuition congruence.
    + right. destruct (feeder_can_step s rest Hinv Hf) as [s' Hs].
      exists GFeeder, s'. exact Hs.
    + left. unfold finished. rewrite Hm, Hf, Hclosed.
      repeat split. apply exited_all. lia.
Qed.

Lemma Request_loop_body (fuel : nat) (req : Request) (tries : nat)
    (resp : Response) (err : option error) (n : Net) :
  bodies_present RoundTrip ->
  Generic.maxTries <= fuel + tries ->
  (Body resp = None -> err = None -> tries < Generic.maxTries) ->
  snd (fst (Generic.Request_loop RoundTrip fuel req tries resp err n)) = None ->
  exists r, fst (fst (Generic.Request_loop RoundTrip fuel req tries resp err n)) = Some r
            /\ Body r <> None.
Proof.
  intros Hb. revert tries resp err n.
  induction fuel as [|fuel IH]; intros tries resp err n Hle Hpre.
  - cbn. intros ->. exists resp. split; [reflexivity|].
    intros Hnil. specialize (Hpre Hnil eq_refl). lia.
  - cbn [Generic.Request_loop].
    destruct (Generic.is_nil (Body resp) && (tries <? Generic.maxTries)%nat) eqn:Hg.
    + unfold Generic.client_Do.
      destruct (RoundTrip (Generic.transport n) req) as [[r|e] t1] eqn:Hrt.
      * apply IH; [lia|]. intros Hnil. apply Hb in Hrt. contradiction.
      * destruct (tries =? Generic.maxTries - 1)%nat; [discriminate|].
        apply IH; [lia|]. discriminate.
    + cbn. intros ->. exists resp. split; [reflexivity|].
      intros Hnil. rewrite Hnil in Hg. cbn [Generic.is_nil andb] in Hg.
      apply Nat.ltb_ge in Hg. specialize (Hpre Hnil eq_refl). lia.
Qed.

Lemma GetParse_no_panic : bodies_present RoundTrip -> no_panic.
Proof.
  intros Hb uri n. unfold GetParse, Get, Generic.Get.
  destruct (Generic.NewRequest url_Parse "GET" _ None) as [e|req]; [discriminate|].
  unfold Generic.Request.
  pose proof (Request_loop_body Generic.maxTries
                (Generic.set_Authorization req (Sprintf "Bearer %s" [key]))
                0 new_Response None n Hb) as Hloop.
  destruct (Generic.Request_loop _ _ _ _ _ _ _) as [[resp err] n'].
  destruct err; [discriminate|].
  cbn [fst snd] in Hloop.
  destruct Hloop as (r & Heq & Hr); [lia|unfold Generic.maxTries; lia|reflexivity|].
  subst resp. destruct (Body r); [discriminate|contradiction].
Qed.

Lemma run_steps (sched : list goroutine) (s : State) :
  exists k, steps k s (run RoundTrip url_Parse json_Decode key subUris maxGoroutines sched s).
Proof.
  revert s. induction sched as [|g sched IH]; intros s; cbn.
  - exists 0. constructor.
  - destruct (step_on g s) as [s1|] eqn:Hg; [|apply IH].
    destruct (IH s1) as [k Hk]. exists (S k).
    clear IH. induction Hk as [|k a b c Hab IHk Hbc].
    + econstructor; [constructor|]. by exists g.
    + econstructor; [apply IHk; assumption|exact Hbc].
Qed.

Lemma Inv_closed (s : State) :
  Inv s -> outChan_closed s = true ->
  length (workers s) = maxGoroutines /\
  Forall (fun w => wpc w = WExit /\ signals w = 1) (workers s) /\
  done s = 0 /\ supervisor s = SExit.
Proof.
  intros Hinv Hc. pose proof (Inv_workers_le s Hinv) as Hlen.
  pose proof (exited_le_length (workers s)) as Hex.
  destruct Hinv. apply inv_outChan_closed0 in Hc.
  rewrite Hc in inv_signals0. cbn in inv_signals0.
  assert (sum_list_with exited (workers s) = length (workers s)) as Hall by lia.
  split; [lia|]. split; [|split; [lia|exact Hc]].
  apply exited_all in Hall.
  apply Forall_and. split; [exact Hall|].
  eapply Forall_impl; [apply Forall_and; split;
                       [exact Hall|exact inv_worker_signals0]|].
  cbn. intros w [Hw Hs]. rewrite Hs. unfold exited. by rewrite Hw.
Qed.

Lemma Inv_signalled (s : State) :
  Inv s ->
  Forall (fun w => signals w <= 1 /\
                   (signals w = 1 ->
                    wpc w = WExit /\ inChan_closed s = true /\ inChan s = []))
    (workers s).
Proof.
  intros []. destruct inv_drained0 as [[Hc Hin]|Hnone].
  - eapply Forall_impl; [exact inv_worker_signals0|].
    cbn. intros w Hs. rewrite Hs. unfold exited.
    destruct (wpc w); split; try lia; try discriminate; auto.
  - eapply Forall_impl; [apply Forall_and; split;
                         [exact Hnone|exact inv_worker_signals0]|].
    cbn. intros w [Hp Hs]. rewrite Hs. unfold exited, past_loop in *.
    destruct (wpc w); split; try lia; try discriminate.
Qed.

Lemma Inv_finished (s : State) :
  Inv s -> 1 <= maxGoroutines -> finished s ->
  outChan_closed s = true /\ outChan s = [] /\ received s = sent s /\
  inChan_closed s = true /\ inChan s = [].
Proof.
  intros Hinv HP (Hm & Hf & Hs & Hw).
  pose proof Hinv as [].
  destruct (inv_exit0 Hm) as [Hout Hc].
  split; [exact Hc|]. split; [exact Hout|].
  split; [by rewrite inv_sent0, Hout, app_nil_r|].
  destruct inv_drained0 as [[? ?]|Hnone]; [auto|].
  exfalso. destruct (Inv_closed s Hinv Hc) as (Hlen & _).
  destruct (workers s) as [|w ws]; [cbn in Hlen; lia|].
  apply Forall_cons in Hw as [Hw _]. apply Forall_cons in Hnone as [Hn _].
  unfold past_loop in Hn. rewrite Hw in Hn. discriminate.
Qed.

End Engine.

(** C2: for a transport whose responses carry a body and a pool of
    [maxGoroutines >= 1] workers, every run of [pGetParse] and of the range
    loop of its caller, under any interleaving of the goroutines, has at
    most [4 * maxGoroutines + 5 * len(subUris) + 7] steps and never panics;
    in each state it reaches either every goroutine has returned or some
    goroutine can take a step, so no run hangs.  At most [maxGoroutines]
    workers exist; a worker sends at most one completion signal, and only
    after it has left the range over the closed, empty [inChan]; once
    [outChan] is closed there are exactly [maxGoroutines] workers, each has
    sent its one signal, the supervisor has taken them all from [done] and
    has returned; what was sent on [outChan] is what the caller has received
    followed by what is still buffered; and when all goroutines have
    returned the caller has left its loop on the closed, empty [outChan]
    having received every value sent. *)
Theorem pGetParse_closes_after_all_workers {TS : Type}
    (RoundTrip : TS -> Request -> DoResult * TS)
    (url_Parse : string -> error + URL)
    (json_Decode : Reader -> Reader * (option gomap * option error))
    (key : string) (subUris : list string) (maxGoroutines : nat)
    (n : @Generic.Net TS) (k : nat) (s : @State TS) :
  bodies_present RoundTrip ->
  1 <= maxGoroutines ->
  Batch.steps RoundTrip url_Parse json_Decode key subUris maxGoroutines k (init n) s ->
  k <= 4 * maxGoroutines + 5 * length subUris + 7 /\
  crashed s = false /\
  (finished s \/
   exists g s', Batch.step_on RoundTrip url_Parse json_Decode key subUris
                  maxGoroutines g s = Some s') /\
  length (workers s) <= maxGoroutines /\
  Forall (fun w => signals w <= 1 /\
                   (signals w = 1 ->
                    wpc w = WExit /\ inChan_closed s = true /\ inChan s = []))
    (workers s) /\
  (outChan_closed s = true ->
   length (workers s) = maxGoroutines /\
   Forall (fun w => wpc w = WExit /\ signals w = 1) (workers s) /\
   done s = 0 /\ supervisor s = SExit) /\
  sent s = received s ++ outChan s /\
  (finished s ->
   outChan_closed s = true /\ outChan s = [] /\ received s = sent s /\
   inChan_closed s = true /\ inChan s = []).
Proof.
  intros Hb HP Hs.
  pose proof (GetParse_no_panic RoundTrip url_Parse json_Decode key Hb) as Hnp.
  pose proof (Inv_steps RoundTrip url_Parse json_Decode key subUris
                maxGoroutines k n s Hnp Hs) as Hinv.
  pose proof (measure_steps RoundTrip url_Parse json_Decode key subUris
                maxGoroutines k _ _ Hs) as Hm.
  split.
  { unfold BatchInv.measure in Hm. cbn in Hm. clear -Hm.
    destruct (crashed s); lia. }
  split; [apply (inv_crashed _ _ _ Hinv)|].
  split; [by eapply Inv_progress|].
  split; [by eapply Inv_workers_le|].
  split; [by eapply Inv_signalled|].
  split; [by eapply Inv_closed|].
  split; [apply (inv_sent _ _ _ Hinv)|].
  by eapply Inv_finished.
Qed.

Lemma bodies_present_always_succeeds :
  bodies_present (scripted Examples.always_succeeds).
Proof. intros t req r t' [= <- _]. discriminate. Qed.

(** C2 on the example batch: two workers, one URI, a transport that
    answers with a body. *)
Lemma pGetParse_closes_after_all_workers_witness :
  length (workers (Examples.batch_run Examples.always_succeeds)) = 2 /\
  done (Examples.batch_run Examples.always_succeeds) = 0 /\
  received (Examples.batch_run Examples.always_succeeds) =
    sent (Examples.batch_run Examples.always_succeeds).
Proof.
  destruct (run_steps (scripted Examples.always_succeeds) Examples.plain_Parse
              Examples.example_Decode_map "k" Examples.batch_uris 2
              Examples.schedule (init Examples.net0)) as [k Hk].
  destruct (pGetParse_closes_after_all_workers
              (scripted Examples.always_succeeds) Examples.plain_Parse
              Examples.example_Decode_map "k" Examples.batch_uris 2
              Examples.net0 k _
              bodies_present_always_succeeds (le_S 1 1 (le_n 1)) Hk)
    as (_ & _ & _ & _ & _ & Hclosed & _ & Hfin).
  destruct (Hclosed eq_refl) as (Hlen & _ & Hdone & _).
  split; [exact Hlen|]. split; [exact Hdone|].
  apply Hfin. unfold finished. vm_compute. repeat constructor.
Defined.

End BatchFacts.

(** * Further properties of the decoders *)

Module DecoderFacts.
Import Go Types Spec Shapes.

Lemma RelatedDomainList_range_Ok (raw : gomap) (rds : list value)
    (acc l : list RelatedDomain) :
  RelatedDomainList_range raw rds acc = Ok l <->
  exists ps, Forall2 starts_with_pair rds ps /\ l = acc ++ map related_of ps.
Proof.
  revert acc. induction rds as [|r rds IH]; intros acc; cbn [RelatedDomainList_range].
  - split.
    + intros [= <-]. exists []. split; [constructor|by rewrite app_nil_r].
    + intros (ps & HF & ->). apply Forall2_nil_inv_l in HF as ->.
      by rewrite app_nil_r.
  - split.
    + destruct r as [| | | |double|]; try discriminate. cbn [as_slice].
      destruct double as [|d0 double]; [discriminate|]. cbn [index nth_error bind].
      destruct d0 as [| | |d| |]; try discriminate. cbn [as_string].
      destruct double as [|d1 double]; [discriminate|]. cbn [index nth_error bind].
      destruct d1 as [| |s| | |]; try discriminate. cbn [as_float64].
      intros (ps & HF & ->)%IH. exists ((d, s) :: ps). split.
      * constructor; [by exists double|exact HF].
      * by rewrite <- app_assoc.
    + intros (ps & HF & ->).
      apply Forall2_cons_inv_l in HF as ([d s] & ps' & [rest ->] & HF & ->).
      cbn. apply IH. exists ps'. split; [exact HF|].
      by rewrite <- app_assoc.
Qed.

Lemma CooccurrenceList_range_Ok (raw : gomap) (coocs : list value)
    (acc l : list Cooccurrence) :
  CooccurrenceList_range raw coocs acc = Ok l <->
  exists ps, Forall2 starts_with_pair coocs ps /\ l = acc ++ map cooccurrence_of ps.
Proof.
  revert acc. induction coocs as [|r rds IH]; intros acc; cbn [CooccurrenceList_range].
  - split.
    + intros [= <-]. exists []. split; [constructor|by rewrite app_nil_r].
    + intros (ps & HF & ->). apply Forall2_nil_inv_l in HF as ->.
      by rewrite app_nil_r.
  - split.
    + destruct r as [| | | |double|]; try discriminate. cbn [as_slice].
      destruct double as [|d0 double]; [discriminate|]. cbn [index nth_error bind].
      destruct d0 as [| | |d| |]; try discriminate. cbn [as_string].
      destruct double as [|d1 double]; [discriminate|]. cbn [index nth_error bind].
      destruct d1 as [| |s| | |]; try discriminate. cbn [as_float64].
      intros (ps & HF & ->)%IH. exists ((d, s) :: ps). split.
      * constructor; [by exists double|exact HF].
      * by rewrite <- app_assoc.
    + intros (ps & HF & ->).
      apply Forall2_cons_inv_l in HF as ([d s] & ps' & [rest ->] & HF & ->).
      cbn. apply IH. exists ps'. split; [exact HF|].
      by rewrite <- app_assoc.
Qed.

(** X1: [RelatedDomainList.UnmarshalJSON] returns nil exactly when the text
    decodes to a map (or to null) whose key tb1 holds an array, every
    element of which is an array that starts with a string and a number;
    the records are those pairs in order, the number converted by [int].
    An empty array gives no record; anything behind the first two elements
    of a pair is ignored. *)
Theorem RelatedDomainList_accepts_exactly
    (json_Unmarshal : list Byte.byte -> error + value)
    (b : list Byte.byte) (rl : RelatedDomainList) :
  RelatedDomainList_UnmarshalJSON json_Unmarshal b = Ok rl <->
  exists raw rds ps,
    json_Unmarshal_map json_Unmarshal b = inr raw /\
    map_index raw "tb1" = VSlice rds /\
    Forall2 starts_with_pair rds ps /\
    rl = {| RelatedDomains := map related_of ps |}.
Proof.
  unfold RelatedDomainList_UnmarshalJSON, RelatedDomainList_of_raw.
  destruct (json_Unmarshal_map json_Unmarshal b) as [e|raw].
  { split; [discriminate|]. intros (? & ? & ? & [=] & _). }
  split.
  - destruct (map_index raw "tb1") as [| | | |rds|] eqn:Hk; try discriminate.
    cbn [as_slice].
    destruct (RelatedDomainList_range raw rds []) as [l|e|p|e] eqn:Hr;
      try discriminate.
    intros [= <-]. apply RelatedDomainList_range_Ok in Hr as (ps & HF & ->).
    exists raw, rds, ps. auto.
  - intros (raw' & rds & ps & [= <-] & -> & HF & ->). cbn [as_slice].
    assert (RelatedDomainList_range raw rds [] = Ok (map related_of ps)) as ->
      by (apply RelatedDomainList_range_Ok; exists ps; auto).
    reflexivity.
Qed.

(** X2: [CooccurrenceList.UnmarshalJSON] returns nil exactly when the key pfs2
    holds an array of arrays that each start with a string and a number; the
    records are those pairs in order and the score is the number itself. *)
Theorem CooccurrenceList_accepts_exactly
    (json_Unmarshal : list Byte.byte -> error + value)
    (b : list Byte.byte) (cl : CooccurrenceList) :
  CooccurrenceList_UnmarshalJSON json_Unmarshal b = Ok cl <->
  exists raw coocs ps,
    json_Unmarshal_map json_Unmarshal b = inr raw /\
    map_index raw "pfs2" = VSlice coocs /\
    Forall2 starts_with_pair coocs ps /\
    cl = {| Cooccurrences := map cooccurrence_of ps |}.
Proof.
  unfold CooccurrenceList_UnmarshalJSON, CooccurrenceList_of_raw.
  destruct (json_Unmarshal_map json_Unmarshal b) as [e|raw].
  { split; [discriminate|]. intros (? & ? & ? & [=] & _). }
  split.
  - destruct (map_index raw "pfs2") as [| | | |rds|] eqn:Hk; try discriminate.
    cbn [as_slice].
    destruct (CooccurrenceList_range raw rds []) as [l|e|p|e] eqn:Hr;
      try discriminate.
    intros [= <-]. apply CooccurrenceList_range_Ok in Hr as (ps & HF & ->).
    exists raw, rds, ps. auto.
  - intros (raw' & rds & ps & [= <-] & -> & HF & ->). cbn [as_slice].
    assert (CooccurrenceList_range raw rds [] = Ok (map cooccurrence_of ps)) as ->
      by (apply CooccurrenceList_range_Ok; exists ps; auto).
    reflexivity.
Qed.

(** X3: [GeoFeatures.UnmarshalJSON] returns nil exactly when the text decodes
    to an array that starts with a string and a number, which become the
    country code and the visit ratio. *)
Theorem GeoFeatures_accepts_exactly
    (json_Unmarshal : list Byte.byte -> error + value)
    (b : list Byte.byte) (g : GeoFeatures) :
  GeoFeatures_UnmarshalJSON json_Unmarshal b = Ok g <->
  exists raw p,
    json_Unmarshal b = inr raw /\ starts_with_pair raw p /\ g = geo_of p.
Proof.
  unfold GeoFeatures_UnmarshalJSON, GeoFeatures_of_raw.
  destruct (json_Unmarshal b) as [e|raw].
  { split; [discriminate|]. intros (? & ? & [=] & _). }
  split.
  - destruct raw as [| | | |gfList|]; try discriminate. cbn [as_slice].
    destruct gfList as [|g0 gfList]; [discriminate|]. cbn [index nth_error bind].
    destruct g0 as [| | |cc| |]; try discriminate. cbn [as_string].
    destruct gfList as [|g1 gfList]; [discriminate|]. cbn [index nth_error bind].
    destruct g1 as [| |vr| | |]; try discriminate. cbn [as_float64].
    intros [= <-]. exists (VSlice (VString cc :: VFloat64 vr :: gfList)), (cc, vr).
    split; [reflexivity|]. split; [by exists gfList|reflexivity].
  - intros (raw' & [cc vr] & [= <-] & [rest ->] & ->). reflexivity.
Qed.

Lemma RelatedDomainList_range_skips (raw : gomap) (good : list value)
    (tail : list value) (acc : list RelatedDomain) :
  Forall (fun v => exists p, starts_with_pair v p) good ->
  exists acc',
    RelatedDomainList_range raw (good ++ tail) acc =
    RelatedDomainList_range raw tail acc'.
Proof.
  intros HF. revert acc. induction HF as [|v good [[d s] [rest ->]] _ IH]; intros acc.
  - by exists acc.
  - cbn. apply IH.
Qed.

Lemma CooccurrenceList_range_skips (raw : gomap) (good : list value)
    (tail : list value) (acc : list Cooccurrence) :
  Forall (fun v => exists p, starts_with_pair v p) good ->
  exists acc',
    CooccurrenceList_range raw (good ++ tail) acc =
    CooccurrenceList_range raw tail acc'.
Proof.
  intros HF. revert acc. induction HF as [|v good [[d s] [rest ->]] _ IH]; intros acc.
  - by exists acc.
  - cbn. apply IH.
Qed.

Lemma RelatedDomainList_range_bad (raw : gomap) (bad : value)
    (rest : list value) (acc : list RelatedDomain) :
  failed (RelatedDomainList_range raw [bad] []) ->
  RelatedDomainList_range raw (bad :: rest) acc =
  RelatedDomainList_range raw [bad] [].
Proof.
  cbn [RelatedDomainList_range].
  destruct (as_slice bad) as [double|]; [|reflexivity].
  destruct (index double 0) as [d0|e|p|e]; try reflexivity. cbn [bind].
  destruct (as_string d0) as [d|]; [|reflexivity].
  destruct (index double 1) as [d1|e|p|e]; try reflexivity. cbn [bind].
  destruct (as_float64 d1) as [s|]; [|reflexivity].
  intros [].
Qed.

Lemma CooccurrenceList_range_bad (raw : gomap) (bad : value)
    (rest : list value) (acc : list Cooccurrence) :
  failed (CooccurrenceList_range raw [bad] []) ->
  CooccurrenceList_range raw (bad :: rest) acc =
  CooccurrenceList_range raw [bad] [].
Proof.
  cbn [CooccurrenceList_range].
  destruct (as_slice bad) as [double|]; [|reflexivity].
  destruct (index double 0) as [d0|e|p|e]; try reflexivity. cbn [bind].
  destruct (as_string d0) as [d|]; [|reflexivity].
  destruct (index double 1) as [d1|e|p|e]; try reflexivity. cbn [bind].
  destruct (as_float64 d1) as [s|]; [|reflexivity].
  intros [].
Qed.

(** X4: the list decoders stop at the first element they do not accept: when
    the array is a run of accepted pairs, then an element on which the loop
    fails, then anything, the decoder ends as the loop does on that one
    element (its error or its panic), whatever follows it and whatever was
    gathered before it. *)
Theorem list_decoders_stop_at_first_bad (raw : gomap)
    (good : list value) (bad : value) (rest : list value) :
  Forall (fun v => exists p, starts_with_pair v p) good ->
  (map_index raw "tb1" = VSlice (good ++ bad :: rest) ->
   failed (RelatedDomainList_range raw [bad] []) ->
   RelatedDomainList_of_raw raw =
   recast (RelatedDomainList_range raw [bad] []) (Ok {| RelatedDomains := [] |})) /\
  (map_index raw "pfs2" = VSlice (good ++ bad :: rest) ->
   failed (CooccurrenceList_range raw [bad] []) ->
   CooccurrenceList_of_raw raw =
   recast (CooccurrenceList_range raw [bad] []) (Ok {| Cooccurrences := [] |})).
Proof.
  intros Hgood. split; intros Hk Hbad.
  - unfold RelatedDomainList_of_raw. rewrite Hk. cbn [as_slice].
    destruct (RelatedDomainList_range_skips raw good (bad :: rest) [] Hgood)
      as [acc' ->].
    rewrite (RelatedDomainList_range_bad raw bad rest acc' Hbad).
    destruct (RelatedDomainList_range raw [bad] []); try reflexivity.
    destruct Hbad.
  - unfold CooccurrenceList_of_raw. rewrite Hk. cbn [as_slice].
    destruct (CooccurrenceList_range_skips raw good (bad :: rest) [] Hgood)
      as [acc' ->].
    rewrite (CooccurrenceList_range_bad raw bad rest acc' Hbad).
    destruct (CooccurrenceList_range raw [bad] []); try reflexivity.
    destruct Hbad.
Qed.

(** X4 on a good pair, then a string, then an empty array: the string ends the
    decoding with the malformed-object error and the empty array is never
    indexed. *)
Lemma list_decoders_stop_at_first_bad_witness :
  RelatedDomainList_UnmarshalJSON MoreExamples.more_Unmarshal
    (Examples.json_text "{'tb1': [['a.com', 5], 'oops', []]}")
  = Err (malfErr
      (VMap [("tb1", VSlice [pair_value ("a.com", 5%float); VString "oops"; VSlice []])])).
Proof.
  refine (proj1 (list_decoders_stop_at_first_bad
            [("tb1", VSlice [pair_value ("a.com", 5%float); VString "oops"; VSlice []])]
            [pair_value ("a.com", 5%float)] (VString "oops") [VSlice []] _)
            eq_refl I).
  constructor; [|constructor]. exists ("a.com", 5%float). by exists [].
Defined.

Lemma RelatedDomainList_range_outcomes (raw : gomap) (rds : list value)
    (acc : list RelatedDomain) :
  match RelatedDomainList_range raw rds acc with
  | Ok _ => True
  | Err e => e = malfErr (VMap raw) \/
             e = errorString "Could not convert double[0] to string" \/
             e = errorString "Could not convert double[1] to int"
  | Panic p => p = IndexOutOfRange 0 0 \/ p = IndexOutOfRange 1 1
  | Fatal _ => False
  end.
Proof.
  revert acc. induction rds as [|r rds IH]; intros acc; cbn [RelatedDomainList_range].
  - exact I.
  - destruct r as [| | | |double|]; cbn [as_slice]; auto.
    destruct double as [|d0 double]; cbn [index nth_error bind length]; auto.
    destruct d0 as [| | |d| |]; cbn [as_string]; auto.
    destruct double as [|d1 double]; cbn [index nth_error bind length]; auto.
    destruct d1 as [| |s| | |]; cbn [as_float64]; auto.
    apply IH.
Qed.

Lemma CooccurrenceList_range_outcomes (raw : gomap) (coocs : list value)
    (acc : list Cooccurrence) :
  match CooccurrenceList_range raw coocs acc with
  | Ok _ => True
  | Err e => e = malfErr (VMap raw)
  | Panic p => p = IndexOutOfRange 0 0 \/ p = IndexOutOfRange 1 1
  | Fatal _ => False
  end.
Proof.
  revert acc. induction coocs as [|r rds IH]; intros acc; cbn [CooccurrenceList_range].
  - exact I.
  - destruct r as [| | | |double|]; cbn [as_slice]; auto.
    destruct double as [|d0 double]; cbn [index nth_error bind length]; auto.
    destruct d0 as [| | |d| |]; cbn [as_string]; auto.
    destruct double as [|d1 double]; cbn [index nth_error bind length]; auto.
    destruct d1 as [| |s| | |]; cbn [as_float64]; auto.
    apply IH.
Qed.

(** X5: the ways the three decoders end.  An error is the error of
    [json.Unmarshal] or the malformed-object error that quotes the decoded
    value; [RelatedDomainList] alone has two errors of its own, for a first
    element that is no string and a second that is no number.  A panic is
    the index 0 on an empty array or the index 1 on an array of one
    element, and none of them ends the process. *)
Theorem decoders_end_in_these_ways
    (json_Unmarshal : list Byte.byte -> error + value) (b : list Byte.byte) :
  let short (p : panic) := p = IndexOutOfRange 0 0 \/ p = IndexOutOfRange 1 1 in
  match RelatedDomainList_UnmarshalJSON json_Unmarshal b with
  | Ok _ => True
  | Err e =>
      json_Unmarshal_map json_Unmarshal b = inl e \/
      exists raw, json_Unmarshal_map json_Unmarshal b = inr raw /\
        (e = malfErr (VMap raw) \/
         e = errorString "Could not convert double[0] to string" \/
         e = errorString "Could not convert double[1] to int")
  | Panic p => short p
  | Fatal _ => False
  end /\
  match CooccurrenceList_UnmarshalJSON json_Unmarshal b with
  | Ok _ => True
  | Err e =>
      json_Unmarshal_map json_Unmarshal b = inl e \/
      exists raw, json_Unmarshal_map json_Unmarshal b = inr raw /\
        e = malfErr (VMap raw)
  | Panic p => short p
  | Fatal _ => False
  end /\
  match GeoFeatures_UnmarshalJSON json_Unmarshal b with
  | Ok _ => True
  | Err e =>
      json_Unmarshal b = inl e \/
      exists raw, json_Unmarshal b = inr raw /\ e = malfErr raw
  | Panic p => short p
  | Fatal _ => False
  end.
Proof.
  intros short. unfold short. split; [|split].
  - unfold RelatedDomainList_UnmarshalJSON, RelatedDomainList_of_raw.
    destruct (json_Unmarshal_map json_Unmarshal b) as [e|raw]; [by left|].
    destruct (as_slice (map_index raw "tb1")) as [rds|]; [|right; eauto].
    pose proof (RelatedDomainList_range_outcomes raw rds []) as H.
    destruct (RelatedDomainList_range raw rds []); cbn [bind]; eauto.
  - unfold CooccurrenceList_UnmarshalJSON, CooccurrenceList_of_raw.
    destruct (json_Unmarshal_map json_Unmarshal b) as [e|raw]; [by left|].
    destruct (as_slice (map_index raw "pfs2")) as [rds|]; [|right; eauto].
    pose proof (CooccurrenceList_range_outcomes raw rds []) as H.
    destruct (CooccurrenceList_range raw rds []); cbn [bind]; eauto.
  - unfold GeoFeatures_UnmarshalJSON, GeoFeatures_of_raw.
    destruct (json_Unmarshal b) as [e|raw]; [by left|].
    destruct raw as [| | | |gfList|]; cbn [as_slice]; try (right; eauto; fail).
    destruct gfList as [|g0 gfList]; cbn [index nth_error bind length]; auto.
    destruct g0 as [| | |cc| |]; cbn [as_string]; try (right; eauto; fail).
    destruct gfList as [|g1 gfList]; cbn [index nth_error bind length]; auto.
    destruct g1 as [| |vr| | |]; cbn [as_float64]; try (right; eauto; fail).
    exact I.
Qed.

End DecoderFacts.

(** * Further properties of the retry loop *)

Module RetryFacts.
Import Go Http Transport.

Lemma typed_loop_shape {TS : Type}
    (RoundTrip : TS -> Request -> DoResult * TS)
    (fuel : nat) (req : Request) (tries : nat)
    (resp : Response) (err : option error) (n : Investigate.Net) :
  fuel + tries = Investigate.maxTries ->
  (StatusCode resp < 300)%Z ->
  (err <> None -> Body resp = None /\ tries < Investigate.maxTries) ->
  exists k,
    Investigate.calls (snd (Investigate.Request_loop RoundTrip fuel req tries resp err n))
      = Investigate.calls n ++ repeat req k /\
    k <= fuel /\
    ((exists e,
        fst (Investigate.Request_loop RoundTrip fuel req tries resp err n)
          = (None, Some (Investigate.failed_all_attempts e)) /\ k = fuel) \/
     (exists r,
        fst (Investigate.Request_loop RoundTrip fuel req tries resp err n)
          = (Some r, None) /\
        (StatusCode r < 300)%Z /\ (Body r = None -> k = fuel))).
Proof.
  revert tries resp err n.
  induction fuel as [|fuel IH]; intros tries resp err n Hfuel Hstatus Herr.
  - exists 0. cbn. rewrite app_nil_r. split; [reflexivity|]. split; [lia|].
    right. exists resp. destruct err as [e|].
    + destruct Herr as [_ Hlt]; [discriminate|].
      unfold Investigate.maxTries in *. lia.
    + auto.
  - cbn [Investigate.Request_loop].
    destruct (Investigate.is_nil (Body resp) && (tries <? Investigate.maxTries)%nat) eqn:Hg.
    + apply andb_prop in Hg as [Hnil Hlt]. apply Nat.ltb_lt in Hlt.
      unfold Investigate.client_Do.
      destruct (RoundTrip (Investigate.transport n) req) as [r t1].
      set (n1 := {| Investigate.transport := t1;
                    Investigate.calls := Investigate.calls n ++ [req] |}).
      assert (forall resp' err',
        (tries =? Investigate.maxTries - 1)%nat = false \/ err' = None ->
        (StatusCode resp' < 300)%Z ->
        (err' <> None -> Body resp' = None) ->
        exists k,
          Investigate.calls
            (snd (Investigate.Request_loop RoundTrip fuel req (S tries) resp' err' n1))
            = Investigate.calls n ++ repeat req k /\
          k <= S fuel /\
          ((exists e,
              fst (Investigate.Request_loop RoundTrip fuel req (S tries) resp' err' n1)
                = (None, Some (Investigate.failed_all_attempts e)) /\ k = S fuel) \/
           (exists r0,
              fst (Investigate.Request_loop RoundTrip fuel req (S tries) resp' err' n1)
                = (Some r0, None) /\
              (StatusCode r0 < 300)%Z /\ (Body r0 = None -> k = S fuel)))) as Hrec.
      { intros resp' err' Hlast Hst' Herr'.
        destruct (IH (S tries) resp' err' n1) as (k & Hk & Hle & Hres);
          [lia|exact Hst'| |].
        { intros Hne. split; [by apply Herr'|].
          destruct Hlast as [Hlast| ->]; [|contradiction].
          apply Nat.eqb_neq in Hlast. unfold Investigate.maxTries in *. lia. }
        exists (S k). rewrite Hk. cbn [Investigate.calls n1 repeat].
        rewrite <- app_assoc. split; [reflexivity|]. split; [lia|].
        destruct Hres as [(e & He & ->)|(r0 & Hr0 & Hs0 & Hb0)].
        - left. exists e. auto.
        - right. exists r0. split; [exact Hr0|]. split; [exact Hs0|].
          intros Hb. rewrite (Hb0 Hb). reflexivity. }
      assert ((tries =? Investigate.maxTries - 1)%nat = true -> fuel = 0) as Hlast.
      { intros E. apply Nat.eqb_eq in E. unfold Investigate.maxTries in *. lia. }
      destruct r as [r|e].
      * destruct (300 <=? StatusCode r)%Z eqn:Hs.
        -- destruct (tries =? Investigate.maxTries - 1)%nat eqn:E.
           ++ exists 1. cbn. split; [reflexivity|]. rewrite (Hlast eq_refl).
              split; [lia|]. left. eexists. split; reflexivity.
           ++ apply Hrec; [by left|cbn; lia|reflexivity].
        -- apply Hrec; [by right|apply Z.leb_gt in Hs; lia|contradiction].
      * destruct (tries =? Investigate.maxTries - 1)%nat eqn:E.
        -- exists 1. cbn. split; [reflexivity|]. rewrite (Hlast eq_refl).
           split; [lia|]. left. eexists. split; reflexivity.
        -- apply Hrec; [by left|cbn; lia|reflexivity].
    + exists 0. cbn. rewrite app_nil_r. split; [reflexivity|]. split; [lia|].
      right. exists resp. destruct err as [e|].
      * destruct Herr as [Hb Hlt]; [discriminate|].
        rewrite Hb in Hg. cbn [Investigate.is_nil andb] in Hg.
        apply Nat.ltb_ge in Hg. lia.
      * split; [reflexivity|]. split; [exact Hstatus|].
        intros Hb. rewrite Hb in Hg. cbn [Investigate.is_nil andb] in Hg.
        apply Nat.ltb_ge in Hg. unfold Investigate.maxTries in *. lia.
Qed.

(** X6: whatever the transport does, the typed [Request] hands the same request,
    with the bearer header set, to the transport between one and five times.
    It returns either no response and the failed-all-attempts error, after
    exactly five calls, or a response with a nil error; a response it
    returns never has a status of 300 or more, and it lacks a body only if
    all five calls were made. *)
Theorem typed_Request_outcomes {TS : Type}
    (RoundTrip : TS -> Request -> DoResult * TS)
    (inv : Investigate.Investigate) (req : Request)
    (n : Investigate.Net) :
  let req' := Investigate.set_Authorization req (Sprintf "Bearer %s" [Investigate.key inv]) in
  let result := Investigate.Request RoundTrip inv req n in
  exists k, 1 <= k <= 5 /\
    Investigate.calls (snd result) = Investigate.calls n ++ repeat req' k /\
    ((exists e, fst result = (None, Some (Investigate.failed_all_attempts e)) /\ k = 5) \/
     (exists r, fst result = (Some r, None) /\ (StatusCode r < 300)%Z /\
                (Body r = None -> k = 5))).
Proof.
  intros req' result. unfold result, Investigate.Request. fold req'.
  destruct (typed_loop_shape RoundTrip Investigate.maxTries req' 0 new_Response None n)
    as (k & Hk & Hle & Hres); [reflexivity|cbn; lia|contradiction|].
  destruct (ClientFacts.Request_loop_calls RoundTrip Investigate.maxTries req' 0
              new_Response None n) as (k' & Hk' & _ & Hge).
  assert (k' = k) as ->.
  { rewrite Hk in Hk'. apply app_inv_head in Hk'.
    apply (f_equal length) in Hk'. by rewrite !repeat_length in Hk'. }
  exists k. split; [split; [apply Hge; [unfold Investigate.maxTries; lia|reflexivity]
                          |exact Hle]|].
  split; [exact Hk|exact Hres].
Qed.

(** The attempt that is the first to succeed is the last one made: when the
    transport fails [length rs] times, four at most, and then answers with
    a body and a status below 300, the typed [Request] returns that answer
    with a nil error after [length rs + 1] calls. *)
Lemma typed_loop_first_success {TS : Type}
    (RoundTrip : TS -> Request -> DoResult * TS)
    (fuel : nat) (req : Request) (tries : nat)
    (resp0 : Response) (err0 : option error) (t t' : TS) (cs : list Request)
    (rs : list DoResult) (resp : Response) :
  answers RoundTrip req t (rs ++ [DoResponse resp]) t' ->
  forallb failed_typed rs = true ->
  Body resp <> None -> (StatusCode resp < 300)%Z ->
  Body resp0 = None ->
  tries + length rs < Investigate.maxTries ->
  length rs < fuel ->
  Investigate.Request_loop RoundTrip fuel req tries resp0 err0
    {| Investigate.transport := t; Investigate.calls := cs |} =
  ((Some resp, None),
   {| Investigate.transport := t'; Investigate.calls := cs ++ repeat req (S (length rs)) |}).
Proof.
  intros Hans Hfail Hbody Hstatus.
  revert fuel tries resp0 err0 t cs Hans.
  induction rs as [|r rs IH]; intros fuel tries resp0 err0 t cs Hans Hb0 Htries Hfuel.
  - cbn [app] in Hans. inversion Hans as [|? ? t1 ? ? Hrt Hrest]; subst.
    inversion Hrest; subst.
    destruct fuel as [|fuel]; [cbn in Hfuel; lia|].
    cbn [Investigate.Request_loop]. rewrite Hb0. cbn [Investigate.is_nil andb].
    cbn [length] in Htries.
    assert ((tries <? Investigate.maxTries)%nat = true) as -> by (apply Nat.ltb_lt; lia).
    unfold Investigate.client_Do. cbn [Investigate.transport Investigate.calls].
    rewrite Hrt.
    assert ((300 <=? StatusCode resp)%Z = false) as -> by (apply Z.leb_gt; lia).
    destruct (Body resp) as [body|] eqn:Hb; [|contradiction].
    destruct fuel; cbn [Investigate.Request_loop]; rewrite ?Hb;
      cbn [Investigate.is_nil andb]; reflexivity.
  - cbn [app] in Hans. inversion Hans as [|? ? t1 ? ? Hrt Hrest]; subst.
    cbn [forallb] in Hfail. apply andb_prop in Hfail as [Hr Hfail].
    cbn [length] in Htries, Hfuel.
    destruct fuel as [|fuel]; [lia|].
    cbn [Investigate.Request_loop]. rewrite Hb0. cbn [Investigate.is_nil andb].
    assert ((tries <? Investigate.maxTries)%nat = true) as -> by (apply Nat.ltb_lt; lia).
    assert ((tries =? Investigate.maxTries - 1)%nat = false) as Hnl
      by (apply Nat.eqb_neq; unfold Investigate.maxTries in *; lia).
    unfold Investigate.client_Do. cbn [Investigate.transport Investigate.calls].
    rewrite Hrt.
    destruct r as [r|e]; cbn [failed_typed] in Hr; rewrite ?Hr, Hnl.
    + rewrite (IH Hfail fuel (S tries) new_Response None t1 (cs ++ [req]) Hrest);
        [|reflexivity|lia|lia].
      cbn [length repeat]. by rewrite <- app_assoc.
    + rewrite (IH Hfail fuel (S tries) new_Response (Some e) t1 (cs ++ [req]) Hrest);
        [|reflexivity|lia|lia].
      cbn [length repeat]. by rewrite <- app_assoc.
Qed.



Lemma generic_loop_first_success {TS : Type}
    (RoundTrip : TS -> Request -> DoResult * TS)
    (fuel : nat) (req : Request) (tries : nat)
    (resp0 : Response) (err0 : option error) (t t' : TS) (cs : list Request)
    (rs : list DoResult) (resp : Response) :
  answers RoundTrip req t (rs ++ [DoResponse resp]) t' ->
  forallb failed_generic rs = true ->
  Body resp <> None ->
  Body resp0 = None ->
  tries + length rs < Generic.maxTries ->
  length rs < fuel ->
  Generic.Request_loop RoundTrip fuel req tries resp0 err0
    {| Generic.transport := t; Generic.calls := cs |} =
  ((Some resp, None),
   {| Generic.transport := t'; Generic.calls := cs ++ repeat req (S (length rs)) |}).
Proof.
  intros Hans Hfail Hbody.
  revert fuel tries resp0 err0 t cs Hans.
  induction rs as [|r rs IH]; intros fuel tries resp0 err0 t cs Hans Hb0 Htries Hfuel.
  - cbn [app] in Hans. inversion Hans as [|? ? t1 ? ? Hrt Hrest]; subst.
    inversion Hrest; subst.
    destruct fuel as [|fuel]; [cbn in Hfuel; lia|].
    cbn [Generic.Request_loop]. rewrite Hb0. cbn [Generic.is_nil andb].
    cbn [length] in Htries.
    assert ((tries <? Generic.maxTries)%nat = true) as -> by (apply Nat.ltb_lt; lia).
    unfold Generic.client_Do. cbn [Generic.transport Generic.calls].
    rewrite Hrt.
    destruct (Body resp) as [body|] eqn:Hb; [|contradiction].
    destruct fuel; cbn [Generic.Request_loop]; rewrite ?Hb;
      cbn [Generic.is_nil andb]; reflexivity.
  - cbn [app] in Hans. inversion Hans as [|? ? t1 ? ? Hrt Hrest]; subst.
    cbn [forallb] in Hfail. apply andb_prop in Hfail as [Hr Hfail].
    cbn [length] in Htries, Hfuel.
    destruct fuel as [|fuel]; [lia|].
    cbn [Generic.Request_loop]. rewrite Hb0. cbn [Generic.is_nil andb].
    assert ((tries <? Generic.maxTries)%nat = true) as -> by (apply Nat.ltb_lt; lia).
    assert ((tries =? Generic.maxTries - 1)%nat = false) as Hnl
      by (apply Nat.eqb_neq; unfold Generic.maxTries in *; lia).
    unfold Generic.client_Do. cbn [Generic.transport Generic.calls].
    rewrite Hrt.
    destruct r as [r|e]; cbn [failed_generic] in Hr; [discriminate|]. rewrite Hnl.
    rewrite (IH Hfail fuel (S tries) new_Response (Some e) t1 (cs ++ [req]) Hrest);
      [|reflexivity|lia|lia].
    cbn [length repeat]. by rewrite <- app_assoc.
Qed.

(** X8: [Request] stops at the first attempt that succeeds: when the transport
    fails [length rs] times, four at most, and then answers with a body,
    [Request] returns that answer and a nil error after [length rs + 1]
    calls.  For the typed client a failure is an error or a status of 300
    or more and the answer must have a status below 300; for the generic
    client a failure is an error only, so an answer of any status with a
    body is returned at once. *)
Theorem Request_stops_at_first_success {TS : Type}
    (RoundTrip : TS -> Request -> DoResult * TS)
    (inv : Investigate.Investigate) (req : Request)
    (t t' : TS) (rs : list DoResult) (resp : Response) :
  let key := Investigate.key inv in
  let req_t := Investigate.set_Authorization req (Sprintf "Bearer %s" [key]) in
  let req_g := Generic.set_Authorization req (Sprintf "Bearer %s" [key]) in
  length rs <= 4 ->
  Body resp <> None ->
  (answers RoundTrip req_t t (rs ++ [DoResponse resp]) t' ->
   forallb failed_typed rs = true -> (StatusCode resp < 300)%Z ->
   Investigate.Request RoundTrip inv req
     {| Investigate.transport := t; Investigate.calls := [] |} =
   ((Some resp, None),
    {| Investigate.transport := t';
       Investigate.calls := repeat req_t (S (length rs)) |})) /\
  (answers RoundTrip req_g t (rs ++ [DoResponse resp]) t' ->
   forallb failed_generic rs = true ->
   Generic.Request RoundTrip key req
     {| Generic.transport := t; Generic.calls := [] |} =
   ((Some resp, None),
    {| Generic.transport := t';
       Generic.calls := repeat req_g (S (length rs)) |})).
Proof.
  intros key req_t req_g Hlen Hbody. split.
  - intros Hans Hfail Hstatus. unfold Investigate.Request. fold key req_t.
    apply (typed_loop_first_success RoundTrip Investigate.maxTries req_t 0
             new_Response None t t' [] rs resp Hans Hfail Hbody Hstatus);
      [reflexivity|unfold Investigate.maxTries; lia
      |unfold Investigate.maxTries; lia].
  - intros Hans Hfail. unfold Generic.Request. fold req_g.
    apply (generic_loop_first_success RoundTrip Generic.maxTries req_g 0
             new_Response None t t' [] rs resp Hans Hfail Hbody);
      [reflexivity|unfold Generic.maxTries; lia|unfold Generic.maxTries; lia].
Qed.

(** X8 on a transport that answers an error page first: the typed client
    tries again and returns the second answer, the generic client returns
    the error page at once. *)
Lemma Request_stops_at_first_success_witness :
  let req := get_request "" "https://investigate.api.opendns.com/x" in
  let sent := get_request "k" "https://investigate.api.opendns.com/x" in
  Investigate.Request (scripted MoreExamples.then_succeeds) (Investigate.New "k") req
    {| Investigate.transport := 0; Investigate.calls := [] |} =
  ((Some Examples.ok_response, None),
   {| Investigate.transport := 2; Investigate.calls := [sent; sent] |}) /\
  Generic.Request (scripted MoreExamples.then_succeeds) "k" req
    {| Generic.transport := 0; Generic.calls := [] |} =
  ((Some MoreExamples.error_page, None),
   {| Generic.transport := 1; Generic.calls := [sent] |}).
Proof.
  split.
  - exact (proj1 (Request_stops_at_first_success (scripted MoreExamples.then_succeeds)
             (Investigate.New "k") (get_request "" "https://investigate.api.opendns.com/x")
             0 2 [DoResponse MoreExamples.error_page] Examples.ok_response
             (le_S 1 3 (le_S 1 2 (le_S 1 1 (le_n 1)))) ltac:(discriminate))
             (RequestFacts.answers_scripted MoreExamples.then_succeeds _ 2 0)
             eq_refl eq_refl).
  - exact (proj2 (Request_stops_at_first_success (scripted MoreExamples.then_succeeds)
             (Investigate.New "k") (get_request "" "https://investigate.api.opendns.com/x")
             0 1 [] MoreExamples.error_page (le_0_n 4) ltac:(discriminate))
             (RequestFacts.answers_scripted MoreExamples.then_succeeds _ 1 0)
             eq_refl).
Defined.

End RetryFacts.

(** * The single lookups and the bulk categorization *)

Module LookupFacts.
Import Go Http Transport Footprint.

Lemma typed_GetParse_lookup {TS : Type}
    (RoundTrip : TS -> Request -> DoResult * TS)
    (url_Parse : string -> error + URL)
    (json_Decode : forall k : Investigate.kind, Reader ->
       Investigate.pointee k -> Reader * Investigate.pointee k * outcome unit)
    {k : Investigate.kind} {A : Type}
    (inv : Investigate.Investigate) (subUri : string) (v : Investigate.pointee k)
    (n : Investigate.Net) (f : Investigate.pointee k -> A) :
  typed_lookup url_Parse (Investigate.key inv) subUri n
    (let '((resp, res), n') :=
       Investigate.GetParse RoundTrip url_Parse json_Decode inv subUri v n in
     (InvestigateOps.returned (f resp) res, n')).
Proof.
  split.
  - intros e He. unfold Investigate.GetParse.
    rewrite (ClientFacts.Get_refused RoundTrip url_Parse inv subUri n e He).
    reflexivity.
  - intros u Hu.
    pose proof (ClientFacts.GetParse_net RoundTrip url_Parse json_Decode inv subUri v n)
      as Hnet.
    destruct (ClientFacts.Get_calls RoundTrip url_Parse inv subUri n u Hu)
      as (j & Hj & Hcalls).
    destruct (Investigate.GetParse _ _ _ _ _ _ _) as [[resp res] n'].
    cbn [snd] in *. exists j. split; [exact Hj|]. by rewrite Hnet.
Qed.

(** X9: each single lookup of the typed client asks for the path of its
    template with the argument put in, and for nothing else: the GET request
    with the bearer token goes out between one and five times when the URL
    is accepted, and not at all, with the error returned, when it is not. *)
Theorem typed_lookups_request_their_path {TS : Type}
    (RoundTrip : TS -> Request -> DoResult * TS)
    (url_Parse : string -> error + URL)
    (json_Decode : forall k : Investigate.kind, Reader ->
       Investigate.pointee k -> Reader * Investigate.pointee k * outcome unit)
    (inv : Investigate.Investigate)
    (x : string) (n : Investigate.Net) :
  let key := Investigate.key inv in
  typed_lookup url_Parse key ("/links/name/" ++ x ++ ".json") n
    (InvestigateOps.RelatedDomains RoundTrip url_Parse json_Decode inv x n) /\
  typed_lookup url_Parse key ("/recommendations/name/" ++ x ++ ".json") n
    (InvestigateOps.Cooccurrences RoundTrip url_Parse json_Decode inv x n) /\
  typed_lookup url_Parse key ("/security/name/" ++ x ++ ".json") n
    (InvestigateOps.Security RoundTrip url_Parse json_Decode inv x n) /\
  typed_lookup url_Parse key ("/domains/" ++ x ++ "/latest_tags") n
    (InvestigateOps.DomainTags RoundTrip url_Parse json_Decode inv x n) /\
  typed_lookup url_Parse key ("/ips/" ++ x ++ "/latest_domains") n
    (InvestigateOps.LatestDomains RoundTrip url_Parse json_Decode inv x n).
Proof.
  intros key. unfold key.
  split; [|split; [|split; [|split]]].
  - apply (typed_GetParse_lookup RoundTrip url_Parse json_Decode (k := Investigate.KRelatedDomainList) inv
             ("/links/name/" ++ x ++ ".json") _ n (fun r => r)).
  - apply (typed_GetParse_lookup RoundTrip url_Parse json_Decode (k := Investigate.KCooccurrenceList) inv
             ("/recommendations/name/" ++ x ++ ".json") _ n (fun r => r)).
  - apply (typed_GetParse_lookup RoundTrip url_Parse json_Decode (k := Investigate.KSecurityFeatures) inv
             ("/security/name/" ++ x ++ ".json") _ n (fun r => r)).
  - apply (typed_GetParse_lookup RoundTrip url_Parse json_Decode (k := Investigate.KDomainTags) inv
             ("/domains/" ++ x ++ "/latest_tags") _ n (fun r => r)).
  - apply (typed_GetParse_lookup RoundTrip url_Parse json_Decode (k := Investigate.KMaliciousDomains) inv
             ("/ips/" ++ x ++ "/latest_domains") _ n InvestigateOps.extractDomains).
Qed.

(** X9 for the related domains of www.test.com. *)
Lemma typed_lookups_request_their_path_witness :
  issued
    (get_request "k" "https://investigate.api.opendns.com/links/name/www.test.com.json")
    []
    (Investigate.calls
       (snd (InvestigateOps.RelatedDomains (scripted Examples.always_succeeds)
               Examples.plain_Parse Examples.example_Decode (Investigate.New "k")
               "www.test.com"
               {| Investigate.transport := 0; Investigate.calls := [] |}))).
Proof.
  exact (proj2 (proj1 (typed_lookups_request_their_path
                         (scripted Examples.always_succeeds) Examples.plain_Parse
                         Examples.example_Decode (Investigate.New "k") "www.test.com"
                         {| Investigate.transport := 0; Investigate.calls := [] |}))
           _ eq_refl).
Defined.


Lemma typed_Post_calls {TS : Type}
    (RoundTrip : TS -> Request -> DoResult * TS)
    (url_Parse : string -> error + URL)
    (inv : Investigate.Investigate) (subUri : string)
    (body : list Byte.byte) (n : Investigate.Net) (u : URL) :
  url_Parse (Investigate.baseUrl ++ subUri)%string = inr u ->
  issued (post_request (Investigate.key inv) (Investigate.baseUrl ++ subUri) body)
    (Investigate.calls n)
    (Investigate.calls
       (snd (InvestigateOps.Post RoundTrip url_Parse inv subUri body n))).
Proof.
  intros Hu. unfold InvestigateOps.Post, Investigate.NewRequest. rewrite Hu.
  unfold Investigate.Request.
  destruct (ClientFacts.Request_loop_calls RoundTrip Investigate.maxTries
              (Investigate.set_Authorization
                 {| Method := "POST"; RawURL := (Investigate.baseUrl ++ subUri)%string;
                    Authorization := ""; ReqBody := Some body |}
                 (Sprintf "Bearer %s" [Investigate.key inv]))
              0 new_Response None n) as (j & Hj & Hle & Hge).
  exists j. split.
  - split; [apply Hge; [unfold Investigate.maxTries; lia|reflexivity]|exact Hle].
  - rewrite Hj. unfold Investigate.set_Authorization, post_request.
    cbn [Method RawURL ReqBody]. by rewrite ClientFacts.Sprintf_Bearer.
Qed.

Lemma typed_PostParse_net {TS : Type}
    (RoundTrip : TS -> Request -> DoResult * TS)
    (url_Parse : string -> error + URL)
    (json_Decode : forall k : Investigate.kind, Reader ->
       Investigate.pointee k -> Reader * Investigate.pointee k * outcome unit)
    {k : Investigate.kind} (inv : Investigate.Investigate)
    (subUri : string) (body : list Byte.byte) (v : Investigate.pointee k)
    (n : Investigate.Net) :
  snd (InvestigateOps.PostParse RoundTrip url_Parse json_Decode inv subUri body v n) =
  snd (InvestigateOps.Post RoundTrip url_Parse inv subUri body n).
Proof.
  unfold InvestigateOps.PostParse.
  destruct (InvestigateOps.Post RoundTrip url_Parse inv subUri body n)
    as [[resp err] n'].
  destruct err; [reflexivity|].
  destruct resp as [r|]; [|reflexivity].
  destruct (Body r) as [rc|]; [|reflexivity].
  destruct (Investigate.parseBody json_Decode rc v) as [[? ?] ?]. reflexivity.
Qed.

(** X10: [Categorizations] builds the URI first, with an empty domain, and
    ends the process when it does not parse.  Then it marshals the list: a
    marshalling error is returned without a call.  Otherwise the POST
    request for the URI, with the bearer token and built on the marshalled
    list, goes to the transport between one and five times, the query
    showLabels=true in its URL exactly when [labels] is set; a URL that
    [http.NewRequest] refuses gives that error and no call. *)
Theorem Categorizations_posts_the_list {TS : Type}
    (RoundTrip : TS -> Request -> DoResult * TS)
    (url_Parse : string -> error + URL)
    (json_Decode : forall k : Investigate.kind, Reader ->
       Investigate.pointee k -> Reader * Investigate.pointee k * outcome unit)
    (json_Marshal : list string -> error + list Byte.byte)
    (inv : Investigate.Investigate)
    (domains : list string) (labels : bool) (n : Investigate.Net) :
  let result :=
    InvestigateOps.Categorizations RoundTrip url_Parse json_Decode json_Marshal
      inv domains labels n in
  (forall e, url_Parse "/domains/categorization/" = inl e -> result = (Fatal e, n)) /\
  (forall u, url_Parse "/domains/categorization/" = inr u ->
     let uri := URL_String (set_RawQuery u (if labels then "showLabels=true" else "")) in
     let url := (Investigate.baseUrl ++ uri)%string in
     (forall err, json_Marshal domains = inl err -> result = (Err err, n)) /\
     (forall body e, json_Marshal domains = inr body -> url_Parse url = inl e ->
        result = (Err (refused "POST" e), n)) /\
     (forall body u', json_Marshal domains = inr body -> url_Parse url = inr u' ->
        issued (post_request (Investigate.key inv) url body)
          (Investigate.calls n) (Investigate.calls (snd result)))).
Proof.
  intros result. unfold result, InvestigateOps.Categorizations, Investigate.catUri.
  change (Sprintf (Investigate.urls_at "categorization") [""])
    with "/domains/categorization/".
  split.
  - intros e ->. reflexivity.
  - intros u ->. cbv zeta.
    assert (Values_Encode (if labels then Values_Set [] "showLabels" "true" else [])
            = (if labels then "showLabels=true" else "")) as ->
      by (destruct labels; reflexivity).
    set (uri := URL_String (set_RawQuery u (if labels then "showLabels=true" else ""))).
    split; [|split].
    + intros err ->. reflexivity.
    + intros body e -> He. unfold InvestigateOps.PostParse, InvestigateOps.Post,
        Investigate.NewRequest. rewrite He. reflexivity.
    + intros body u' -> Hu.
      pose proof (typed_PostParse_net RoundTrip url_Parse json_Decode (k := Investigate.KCategorizations)
                    inv uri body ∅ n) as Hnet.
      pose proof (typed_Post_calls RoundTrip url_Parse inv uri body n u' Hu) as Hcalls.
      destruct (InvestigateOps.PostParse _ _ _ _ _ _ _ _) as [[resp res] n'].
      cbn [snd] in *. by rewrite Hnet.
Qed.

(** X10 for a list of two domains, without labels. *)
Lemma Categorizations_posts_the_list_witness :
  issued
    (post_request "k" "https://investigate.api.opendns.com/domains/categorization/"
       (Examples.json_text "['a.com','b.com']"))
    []
    (Investigate.calls
       (snd (InvestigateOps.Categorizations (scripted Examples.always_succeeds)
               Examples.plain_Parse Examples.example_Decode MoreExamples.example_Marshal
               (Investigate.New "k") ["a.com"; "b.com"] false
               {| Investigate.transport := 0; Investigate.calls := [] |}))).
Proof.
  exact (proj2 (proj2 (proj2 (Categorizations_posts_the_list
                         (scripted Examples.always_succeeds) Examples.plain_Parse
                         Examples.example_Decode MoreExamples.example_Marshal
                         (Investigate.New "k") ["a.com"; "b.com"] false
                         {| Investigate.transport := 0; Investigate.calls := [] |})
                       _ eq_refl))
           _ _ eq_refl eq_refl).
Defined.


(** X11: [extractDomains] returns the names of the entries, one for each
    entry and in their order, and [LatestDomains] returns these names for
    the list [GetParse] filled when its error is nil, and nil with the
    error otherwise. *)
Theorem LatestDomains_lists_the_names {TS : Type}
    (RoundTrip : TS -> Request -> DoResult * TS)
    (url_Parse : string -> error + URL)
    (json_Decode : forall k : Investigate.kind, Reader ->
       Investigate.pointee k -> Reader * Investigate.pointee k * outcome unit)
    :
  (forall respList,
     InvestigateOps.extractDomains respList =
     map Records.MaliciousDomain_Domain respList) /\
  (forall (inv : Investigate.Investigate) (ip : string) (n : Investigate.Net),
     let fetched :=
       Investigate.GetParse (k := Investigate.KMaliciousDomains)
         RoundTrip url_Parse json_Decode inv ("/ips/" ++ ip ++ "/latest_domains") [] n in
     InvestigateOps.LatestDomains RoundTrip url_Parse json_Decode inv ip n =
     (match snd (fst fetched) with
      | Ok _ => Ok (map Records.MaliciousDomain_Domain (fst (fst fetched)))
      | Err e => Err e
      | Panic p => Panic p
      | Fatal e => Fatal e
      end, snd fetched)).
Proof.
  assert (forall l acc,
            fold_left (fun domainList entry =>
                         domainList ++ [Records.MaliciousDomain_Domain entry]) l acc
            = acc ++ map Records.MaliciousDomain_Domain l) as Hfold.
  { induction l as [|a l IH]; intros acc; cbn.
    - by rewrite app_nil_r.
    - rewrite IH. by rewrite <- app_assoc. }
  split.
  - intros l. unfold InvestigateOps.extractDomains. by rewrite Hfold.
  - intros inv ip n fetched. unfold InvestigateOps.LatestDomains.
    change (Sprintf (Investigate.urls_at "latest_domains") [ip])
      with ("/ips/" ++ ip ++ "/latest_domains")%string.
    fold fetched. destruct fetched as [[resp res] n'].
    cbn [fst snd]. unfold InvestigateOps.returned, InvestigateOps.extractDomains.
    by rewrite Hfold.
Qed.

Lemma generic_GetParse_lookup {TS : Type}
    (RoundTrip : TS -> Request -> DoResult * TS)
    (url_Parse : string -> error + URL)
    (json_Decode : Reader -> Reader * (value * option error))
    (key subUri : string) (n : Generic.Net) :
  generic_lookup url_Parse key subUri n
    (Generic.GetParse RoundTrip url_Parse json_Decode key subUri n).
Proof.
  split.
  - intros e He. unfold Generic.GetParse, Generic.Get, Generic.NewRequest.
    rewrite He. reflexivity.
  - intros u Hu.
    rewrite (ClientFacts.generic_GetParse_net RoundTrip url_Parse json_Decode key subUri n).
    apply (ClientFacts.generic_Get_calls RoundTrip url_Parse key subUri n u Hu).
Qed.

Lemma generic_Post_calls {TS : Type}
    (RoundTrip : TS -> Request -> DoResult * TS)
    (url_Parse : string -> error + URL)
    (key subUri : string) (body : list Byte.byte)
    (n : Generic.Net) (u : URL) :
  url_Parse (Generic.baseUrl ++ subUri)%string = inr u ->
  issued (post_request key (Generic.baseUrl ++ subUri) body)
    (Generic.calls n)
    (Generic.calls (snd (GenericOps.Post RoundTrip url_Parse key subUri body n))).
Proof.
  intros Hu. unfold GenericOps.Post, Generic.NewRequest. rewrite Hu.
  unfold Generic.Request.
  destruct (ClientFacts.generic_Request_loop_calls RoundTrip Generic.maxTries
              (Generic.set_Authorization
                 {| Method := "POST"; RawURL := (Generic.baseUrl ++ subUri)%string;
                    Authorization := ""; ReqBody := Some body |}
                 (Sprintf "Bearer %s" [key]))
              0 new_Response None n) as (j & Hj & Hle & Hge).
  exists j. split.
  - split; [apply Hge; [unfold Generic.maxTries; lia|reflexivity]|exact Hle].
  - rewrite Hj. unfold Generic.set_Authorization, post_request.
    cbn [Method RawURL ReqBody]. by rewrite ClientFacts.Sprintf_Bearer.
Qed.

Lemma generic_PostParse_net {TS : Type}
    (RoundTrip : TS -> Request -> DoResult * TS)
    (url_Parse : string -> error + URL)
    (json_Decode : Reader -> Reader * (value * option error))
    (key subUri : string) (body : list Byte.byte)
    (n : Generic.Net) :
  snd (GenericOps.PostParse RoundTrip url_Parse json_Decode key subUri body n) =
  snd (GenericOps.Post RoundTrip url_Parse key subUri body n).
Proof.
  unfold GenericOps.PostParse.
  destruct (GenericOps.Post RoundTrip url_Parse key subUri body n) as [[resp err] n'].
  destruct err; [reflexivity|].
  destruct resp as [r|]; [|reflexivity].
  destruct (Body r); reflexivity.
Qed.

(** X12: the single lookups of the generic client ask for the path of their
    template with the domain put in and for nothing else; a URL that is
    refused gives a nil value and the error, without a call. *)
Theorem generic_lookups_request_their_path {TS : Type}
    (RoundTrip : TS -> Request -> DoResult * TS)
    (url_Parse : string -> error + URL)
    (json_Decode : Reader -> Reader * (value * option error))
    (key x : string) (n : Generic.Net) :
  generic_lookup url_Parse key ("/links/name/" ++ x ++ ".json") n
    (GenericOps.RelatedDomains RoundTrip url_Parse json_Decode key x n) /\
  generic_lookup url_Parse key ("/recommendations/name/" ++ x ++ ".json") n
    (GenericOps.Cooccurrences RoundTrip url_Parse json_Decode key x n) /\
  generic_lookup url_Parse key ("/security/name/" ++ x ++ ".json") n
    (GenericOps.Security RoundTrip url_Parse json_Decode key x n) /\
  generic_lookup url_Parse key ("/domains/" ++ x ++ "/latest_tags") n
    (GenericOps.DomainTags RoundTrip url_Parse json_Decode key x n).
Proof.
  split; [|split; [|split]].
  - apply (generic_GetParse_lookup RoundTrip url_Parse json_Decode key ("/links/name/" ++ x ++ ".json") n).
  - apply (generic_GetParse_lookup RoundTrip url_Parse json_Decode key ("/recommendations/name/" ++ x ++ ".json") n).
  - apply (generic_GetParse_lookup RoundTrip url_Parse json_Decode key ("/security/name/" ++ x ++ ".json") n).
  - apply (generic_GetParse_lookup RoundTrip url_Parse json_Decode key ("/domains/" ++ x ++ "/latest_tags") n).
Qed.

(** X12 for the security information of www.test.com. *)
Lemma generic_lookups_request_their_path_witness :
  issued
    (get_request "k" "https://investigate.api.opendns.com/security/name/www.test.com.json")
    []
    (Generic.calls
       (snd (GenericOps.Security (scripted Examples.always_succeeds)
               Examples.plain_Parse Examples.example_Decode_any "k" "www.test.com"
               {| Generic.transport := 0; Generic.calls := [] |}))).
Proof.
  exact (proj2 (proj1 (proj2 (proj2 (generic_lookups_request_their_path
                         (scripted Examples.always_succeeds) Examples.plain_Parse
                         Examples.example_Decode_any "k" "www.test.com"
                         {| Generic.transport := 0; Generic.calls := [] |}))))
           _ eq_refl).
Defined.


(** X13: [Categorization] of the generic client goes by the dynamic type of
    [domains].  A value that is neither a string nor a slice of strings
    gives the error at once.  A slice is marshalled and posted to the
    categorization path with no domain and no query: [labels] has no effect
    on it, and a marshalling error is returned without a call.  A string is
    looked up with GET at the URI of [catUri], which carries showLabels=true
    exactly when [labels] is set. *)
Theorem Categorization_goes_by_the_type_of_domains {TS : Type}
    (RoundTrip : TS -> Request -> DoResult * TS)
    (url_Parse : string -> error + URL)
    (json_Decode : Reader -> Reader * (value * option error))
    (json_Marshal : list string -> error + list Byte.byte)
    (key : string) (labels : bool)
    (n : Generic.Net) :
  let Categorization :=
    GenericOps.Categorization RoundTrip url_Parse json_Decode json_Marshal key in
  Categorization GenericOps.DomainOther labels n =
    (Ok (VNil, Some (errorString
                       "domains must be either a string, or a list of strings")), n) /\
  (forall ds,
     Categorization (GenericOps.DomainStrings ds) labels n =
     Categorization (GenericOps.DomainStrings ds) (negb labels) n) /\
  (forall ds err, json_Marshal ds = inl err ->
     Categorization (GenericOps.DomainStrings ds) labels n = (Ok (VNil, Some err), n)) /\
  (forall ds body u, json_Marshal ds = inr body ->
     url_Parse (Generic.baseUrl ++ "/domains/categorization/")%string = inr u ->
     issued (post_request key (Generic.baseUrl ++ "/domains/categorization/") body)
       (Generic.calls n)
       (Generic.calls (snd (Categorization (GenericOps.DomainStrings ds) labels n)))) /\
  (forall d u, url_Parse ("/domains/categorization/" ++ d)%string = inr u ->
     generic_lookup url_Parse key
       (URL_String (set_RawQuery u (if labels then "showLabels=true" else ""))) n
       (Categorization (GenericOps.DomainString d) labels n)).
Proof.
  intros Categorization. unfold Categorization, GenericOps.Categorization.
  split; [reflexivity|]. split; [reflexivity|]. split; [|split].
  - intros ds err Hm. unfold GenericOps.postCategorization. by rewrite Hm.
  - intros ds body u Hm Hu. unfold GenericOps.postCategorization. rewrite Hm.
    change (Sprintf (Generic.urls_at "categorization") [""])
      with "/domains/categorization/".
    rewrite generic_PostParse_net.
    apply (generic_Post_calls RoundTrip url_Parse key "/domains/categorization/" body n u Hu).
  - intros d u Hu. unfold GenericOps.getCategorization, GenericOps.catUri.
    change (Sprintf (Generic.urls_at "categorization") [d])
      with ("/domains/categorization/" ++ (d ++ ""))%string.
    rewrite ClientFacts.append_empty_r, Hu. cbv zeta.
    assert (Values_Encode (if labels then Values_Set [] "showLabels" "true" else [])
            = (if labels then "showLabels=true" else "")) as ->
      by (destruct labels; reflexivity).
    apply generic_GetParse_lookup.
Qed.

(** X13 for a list of two domains, with labels asked for: the request is
    the one without them. *)
Lemma Categorization_goes_by_the_type_of_domains_witness :
  issued
    (post_request "k" "https://investigate.api.opendns.com/domains/categorization/"
       (Examples.json_text "['a.com','b.com']"))
    []
    (Generic.calls
       (snd (GenericOps.Categorization (scripted Examples.always_succeeds)
               Examples.plain_Parse Examples.example_Decode_any
               MoreExamples.example_Marshal "k"
               (GenericOps.DomainStrings ["a.com"; "b.com"]) true
               {| Generic.transport := 0; Generic.calls := [] |}))).
Proof.
  exact (proj1 (proj2 (proj2 (proj2 (Categorization_goes_by_the_type_of_domains
                         (scripted Examples.always_succeeds) Examples.plain_Parse
                         Examples.example_Decode_any MoreExamples.example_Marshal
                         "k" true
                         {| Generic.transport := 0; Generic.calls := [] |}))))
           ["a.com"; "b.com"] _ _ eq_refl eq_refl).
Defined.


Lemma batch_GetParse_lookup {TS : Type}
    (RoundTrip : TS -> Request -> DoResult * TS)
    (url_Parse : string -> error + URL)
    (json_Decode : Reader -> Reader * (option gomap * option error))
    (key subUri : string) (n : Generic.Net) :
  batch_lookup url_Parse key subUri n
    (Batch.GetParse RoundTrip url_Parse json_Decode key subUri n).
Proof.
  split.
  - intros e He. unfold Batch.GetParse, Batch.Get, Generic.Get, Generic.NewRequest.
    rewrite He. reflexivity.
  - intros u Hu.
    pose proof (ClientFacts.generic_Get_calls RoundTrip url_Parse key subUri n u Hu)
      as Hcalls.
    unfold Batch.GetParse, Batch.Get.
    destruct (Generic.Get RoundTrip url_Parse key subUri n) as [[resp err] n'].
    cbn [snd] in Hcalls.
    destruct err; [exact Hcalls|].
    destruct resp as [r|]; [|exact Hcalls].
    destruct (Body r); exact Hcalls.
Qed.

(** X14: the single lookups of the batch client ask for the path of their
    template with the argument put in and for nothing else; [GetIp] and
    [GetDomain] always ask for the records of type a. *)
Theorem batch_lookups_request_their_path {TS : Type}
    (RoundTrip : TS -> Request -> DoResult * TS)
    (url_Parse : string -> error + URL)
    (json_Decode : Reader -> Reader * (option gomap * option error))
    (key x : string) (n : Generic.Net) :
  batch_lookup url_Parse key ("/links/name/" ++ x ++ ".json") n
    (BatchOps.GetRelatedDomains RoundTrip url_Parse json_Decode key x n) /\
  batch_lookup url_Parse key ("/label/rface-gbt/name/" ++ x ++ ".json") n
    (BatchOps.GetScore RoundTrip url_Parse json_Decode key x n) /\
  batch_lookup url_Parse key ("/recommendations/name/" ++ x ++ ".json") n
    (BatchOps.GetCooccurrences RoundTrip url_Parse json_Decode key x n) /\
  batch_lookup url_Parse key ("/security/name/" ++ x ++ ".json") n
    (BatchOps.GetSecurity RoundTrip url_Parse json_Decode key x n) /\
  batch_lookup url_Parse key ("/dnsdb/ip/a/" ++ x ++ ".json") n
    (BatchOps.GetIp RoundTrip url_Parse json_Decode key x n) /\
  batch_lookup url_Parse key ("/dnsdb/name/a/" ++ x ++ ".json") n
    (BatchOps.GetDomain RoundTrip url_Parse json_Decode key x n).
Proof.
  split; [|split; [|split; [|split; [|split]]]].
  - apply (batch_GetParse_lookup RoundTrip url_Parse json_Decode key ("/links/name/" ++ x ++ ".json") n).
  - apply (batch_GetParse_lookup RoundTrip url_Parse json_Decode key ("/label/rface-gbt/name/" ++ x ++ ".json") n).
  - apply (batch_GetParse_lookup RoundTrip url_Parse json_Decode key ("/recommendations/name/" ++ x ++ ".json") n).
  - apply (batch_GetParse_lookup RoundTrip url_Parse json_Decode key ("/security/name/" ++ x ++ ".json") n).
  - apply (batch_GetParse_lookup RoundTrip url_Parse json_Decode key ("/dnsdb/ip/a/" ++ x ++ ".json") n).
  - apply (batch_GetParse_lookup RoundTrip url_Parse json_Decode key ("/dnsdb/name/a/" ++ x ++ ".json") n).
Qed.

(** X14 for the history of an address. *)
Lemma batch_lookups_request_their_path_witness :
  issued
    (get_request "k" "https://investigate.api.opendns.com/dnsdb/ip/a/208.64.121.161.json")
    []
    (Generic.calls
       (snd (BatchOps.GetIp (scripted Examples.always_succeeds)
               Examples.plain_Parse Examples.example_Decode_map "k" "208.64.121.161"
               Examples.net0))).
Proof.
  exact (proj2 (proj1 (proj2 (proj2 (proj2 (proj2 (batch_lookups_request_their_path
                         (scripted Examples.always_succeeds) Examples.plain_Parse
                         Examples.example_Decode_map "k" "208.64.121.161"
                         Examples.net0))))))
           _ eq_refl).
Defined.


End LookupFacts.

(** * When a query counts as an IP address *)

Module QuadFacts.
Import Generic Quad.

Lemma string_app_assoc (a b c : string) :
  ((a ++ b) ++ c)%string = (a ++ (b ++ c))%string.
Proof.
  induction a as [|x a IH]; [reflexivity|].
  change (String x ((a ++ b) ++ c)%string = String x (a ++ (b ++ c))%string).
  by rewrite IH.
Qed.

Lemma digits_1_3_spec (s : string) (k : string -> bool) :
  digits_1_3 s k = true <->
  exists a r, digit_run a /\ s = (a ++ r)%string /\ k r = true.
Proof.
  split.
  - destruct s as [|c1 r1]; [discriminate|]. cbn [digits_1_3].
    intros [H1 H]%andb_prop. apply orb_prop in H as [H|H].
    { exists (String c1 ""), r1. repeat split; cbn; try lia; try done.
      by rewrite H1. }
    destruct r1 as [|c2 r2]; [discriminate|].
    apply andb_prop in H as [H2 H]. apply orb_prop in H as [H|H].
    { exists (String c1 (String c2 "")), r2. repeat split; cbn; try lia; try done.
      by rewrite H1, H2. }
    destruct r2 as [|c3 r3]; [discriminate|].
    apply andb_prop in H as [H3 H].
    exists (String c1 (String c2 (String c3 ""))), r3.
    repeat split; cbn; try lia; try done. by rewrite H1, H2, H3.
  - intros (a & r & [[Hlo Hhi] Hd] & -> & Hk).
    destruct a as [|c1 a]; [cbn in Hlo; lia|].
    cbn in Hd. apply andb_prop in Hd as [H1 Hd].
    change (digits_1_3 (String c1 (a ++ r)%string) k = true).
    cbn [digits_1_3]. rewrite H1. cbn [andb].
    destruct a as [|c2 a];
      [change ("" ++ r)%string with r; by rewrite Hk|].
    cbn in Hd. apply andb_prop in Hd as [H2 Hd].
    change (String c2 a ++ r)%string with (String c2 (a ++ r)%string).
    cbv beta iota.
    rewrite H2. cbn [andb].
    destruct a as [|c3 a];
      [change ("" ++ r)%string with r; rewrite Hk; by rewrite !orb_true_r|].
    cbn in Hd. apply andb_prop in Hd as [H3 Hd].
    change (String c3 a ++ r)%string with (String c3 (a ++ r)%string).
    cbv beta iota.
    rewrite H3. cbn [andb].
    destruct a as [|c4 a];
      [change ("" ++ r)%string with r; rewrite Hk; by rewrite !orb_true_r|].
    cbn in Hhi. lia.
Qed.

Lemma dot_spec (s : string) (k : string -> bool) :
  dot s k = true <-> exists r, s = ("." ++ r)%string /\ k r = true.
Proof.
  split.
  - destruct s as [|c r]; [discriminate|]. cbn [dot].
    intros [Hc Hk]%andb_prop. apply Ascii.eqb_eq in Hc as ->.
    exists r. split; [reflexivity|exact Hk].
  - intros (r & -> & Hk). cbn. exact Hk.
Qed.

Lemma match_ip_here_spec (s : string) :
  match_ip_here s = true <->
  exists q post, dotted_quad q /\ s = (q ++ post)%string.
Proof.
  unfold match_ip_here. split.
  - intros (a & r1 & Ha & -> & (r2 & -> &
            (b & r3 & Hb & -> & (r4 & -> &
            (c & r5 & Hc & -> & (r6 & -> &
            (d & post & Hd & -> & _)%digits_1_3_spec
            )%dot_spec)%digits_1_3_spec)%dot_spec)%digits_1_3_spec)%dot_spec
            )%digits_1_3_spec.
    exists (a ++ "." ++ b ++ "." ++ c ++ "." ++ d)%string, post.
    split; [by exists a, b, c, d|].
    by rewrite !string_app_assoc.
  - intros (q & post & (a & b & c & d & Ha & Hb & Hc & Hd & ->) & ->).
    rewrite !string_app_assoc.
    apply digits_1_3_spec. exists a; eexists. split; [exact Ha|]. split; [reflexivity|].
    apply dot_spec. eexists. split; [reflexivity|].
    apply digits_1_3_spec. exists b; eexists. split; [exact Hb|]. split; [reflexivity|].
    apply dot_spec. eexists. split; [reflexivity|].
    apply digits_1_3_spec. exists c; eexists. split; [exact Hc|]. split; [reflexivity|].
    apply dot_spec. eexists. split; [reflexivity|].
    apply digits_1_3_spec. exists d, post. split; [exact Hd|]. split; reflexivity.
Qed.

Lemma match_ip_unfold (s : string) :
  match_ip s =
  match_ip_here s || match s with String _ r => match_ip r | EmptyString => false end.
Proof. destruct s; reflexivity. Qed.

(** X15: the test of [RRHistory] for an IP address holds exactly for the
    queries that hold, anywhere, four runs of one to three digits separated
    by dots.  The pattern is not anchored, so a host name that holds such a
    part is taken for an IP address, and the parts need not be below 256. *)
Theorem match_ip_holds_quad (query : string) :
  match_ip query = true <-> holds_quad query.
Proof.
  unfold holds_quad. split.
  - induction query as [|c r IH]; rewrite match_ip_unfold.
    + rewrite orb_false_r. intros (q & post & Hq & Hs)%match_ip_here_spec.
      exists "", q, post. auto.
    + intros [H|H]%orb_prop.
      * apply match_ip_here_spec in H as (q & post & Hq & Hs).
        exists "", q, post. auto.
      * destruct (IH H) as (pre & q & post & Hq & ->).
        exists (String c pre), q, post. auto.
  - intros (pre & q & post & Hq & ->).
    induction pre as [|c pre IH]; rewrite match_ip_unfold.
    + apply orb_true_intro. left. apply match_ip_here_spec.
      exists q, post. auto.
    + apply orb_true_intro. right. exact IH.
Qed.

End QuadFacts.

(** * The response body and the sub-URIs *)

Module BodyFacts.
Import Go Http.

(** X16: [parseBody] of the typed client closes the body once on every way
    out.  For a value of a type outside its switch it decodes nothing,
    leaves the value alone and reports the unsupported type.  For a value it
    supports, the value is left as the decoder left it, also when the
    decoder fails.  Every error, the decoder's or that of the unsupported
    type, comes back wrapped with the bytes still unread at that point,
    which are then consumed; when reading them fails, the error comes back
    bare. *)
Theorem parseBody_outcomes
    (json_Decode : forall k : Investigate.kind, Reader ->
       Investigate.pointee k -> Reader * Investigate.pointee k * outcome unit)
    (k : Investigate.kind) (respBody : ReadCloser) (v : Investigate.pointee k) :
  let result := Investigate.parseBody json_Decode respBody v in
  let wrapped (err : error) (rd : Reader) :=
    match read_err rd with
    | None => JSONDecodeError err (unread rd)
    | Some _ => err
    end in
  closes (fst (fst result)) = S (closes respBody) /\
  (Investigate.supported_kind k = false ->
   snd (fst result) = v /\
   snd result = Err (wrapped (errorString "type of v is unsupported") (reader respBody)) /\
   unread (reader (fst (fst result))) = []) /\
  (forall rd v' decoded,
     Investigate.supported_kind k = true ->
     json_Decode k (reader respBody) v = (rd, v', decoded) ->
     snd (fst result) = v' /\
     snd result = match decoded with
                  | Err err => Err (wrapped err rd)
                  | _ => decoded
                  end /\
     unread (reader (fst (fst result))) = match decoded with
                                          | Err _ => []
                                          | _ => unread rd
                                          end).
Proof.
  intros result wrapped. unfold result, wrapped. split; [|split].
  - apply ClientFacts.parseBody_closes_once.
  - intros Hk. unfold Investigate.parseBody. rewrite Hk. cbn [ReadAll].
    destruct (read_err (reader respBody)); repeat split; reflexivity.
  - intros rd v' decoded Hk Hd. unfold Investigate.parseBody. rewrite Hk, Hd.
    destruct decoded as [[]|err|p|e]; cbn [ReadAll];
      try (repeat split; reflexivity).
    destruct (read_err rd); repeat split; reflexivity.
Qed.

(** X16 on the body that is not JSON and a value of an unsupported type:
    the error carries the whole body. *)
Lemma parseBody_outcomes_witness :
  snd (Investigate.parseBody (k := Investigate.KOther)
         Examples.failing_Decode Examples.not_json_body tt)
  = Err (JSONDecodeError (errorString "type of v is unsupported") Examples.not_json).
Proof.
  exact (proj1 (proj2 (proj1 (proj2
    (parseBody_outcomes Examples.failing_Decode Investigate.KOther
       Examples.not_json_body tt)) eq_refl))).
Defined.




End BodyFacts.

(** * What a batch asks of the network *)

Module FetchFacts.
Import Go Http Transport Batch BatchInv Lookups.

Lemma count_cons (x : string) (l : list string) (u : string) :
  count (x :: l) u = count [x] u + count l u.
Proof. unfold count. cbn. destruct (string_dec x u); lia. Qed.

Lemma count_app (l l' : list string) (u : string) :
  count (l ++ l') u = count l u + count l' u.
Proof. unfold count. apply count_occ_app. Qed.

Lemma count_flat_map_held (ws : list Worker) (u : string) :
  count (flat_map held ws) u = sum_list_with (fun w => count (held w) u) ws.
Proof.
  induction ws as [|w ws IH]; [reflexivity|].
  cbn [flat_map sum_list_with]. by rewrite count_app, IH.
Qed.

Lemma count_Permutation (l l' : list string) :
  (forall u, count l u = count l' u) -> l ≡ₚ l'.
Proof. intros H. by apply (Permutation_count_occ string_dec). Qed.

Lemma count_submseteq (l l' : list string) :
  (forall u, count l u <= count l' u) -> l ⊆+ l'.
Proof.
  revert l'. induction l as [|x l IH]; intros l' H.
  - apply submseteq_nil_l.
  - assert (x ∈ l') as Hx.
    { apply list_elem_of_In. apply (count_occ_In string_dec).
      specialize (H x). rewrite count_cons in H. unfold count in H. cbn in H.
      destruct (string_dec x x); [lia|contradiction]. }
    apply elem_of_Permutation in Hx as [k Hk].
    rewrite Hk. apply submseteq_skip. apply IH. intros u.
    specialize (H u). rewrite count_cons in H.
    assert (count l' u = count (x :: k) u) as Hc.
    { unfold count. apply (Permutation_count_occ string_dec). exact Hk. }
    rewrite Hc, (count_cons x k u) in H. lia.
Qed.

Lemma length_requests (key : string) (ks : list (string * nat)) :
  Forall (fun p => snd p <= 5) ks -> length (requests key ks) <= 5 * length ks.
Proof.
  induction 1 as [|p ks Hp _ IH]; [cbn; lia|].
  unfold requests in *. cbn [flat_map]. rewrite length_app, repeat_length.
  cbn [length]. lia.
Qed.

Section Engine.

Context {TS : Type}.
Variable RoundTrip : TS -> Request -> DoResult * TS.
Variable url_Parse : string -> error + URL.
Variable json_Decode : Reader -> Reader * (option gomap * option error).
Variable key : string.
Variable subUris : list string.
Variable maxGoroutines : nat.
Variable n0 : @Generic.Net TS.

Abbreviation step_on :=
  (Batch.step_on RoundTrip url_Parse json_Decode key subUris maxGoroutines).
Abbreviation steps :=
  (Batch.steps RoundTrip url_Parse json_Decode key subUris maxGoroutines).
Abbreviation Fetched := (@Lookups.Fetched TS url_Parse key subUris n0).
Abbreviation pending := (@Lookups.pending TS subUris).

Ltac count_simpl :=
  unfold count in *; cbn [count_occ] in *; rewrite ?count_occ_app in *;
  cbn [count_occ] in *;
  repeat match goal with
  | |- context [string_dec ?a ?b] => destruct (string_dec a b)
  | H : context [string_dec ?a ?b] |- _ => destruct (string_dec a b)
  end; try lia.

Ltac case_step H :=
  repeat match type of H with
  | (if ?c then _ else _) = Some _ => destruct c eqn:?
  | match ?x with _ => _ end = Some _ => destruct x eqn:?
  | None = Some _ => discriminate H
  | Some _ = Some _ => injection H as <-
  end.

(** One lookup hands its GET request to the transport, and nothing else. *)
Lemma GetParse_requests (uri : string) (n : Net) :
  exists k, attempts_ok url_Parse (uri, k) /\
    Generic.calls (snd (GetParse RoundTrip url_Parse json_Decode key uri n)) =
    Generic.calls n ++ repeat (get_request key (Generic.baseUrl ++ uri)%string) k.
Proof.
  destruct (url_Parse (Generic.baseUrl ++ uri)%string) as [e|u] eqn:Hu.
  - exists 0. split.
    + split; [cbn; lia|]. split; cbn [fst snd]; intros ? Hp; [|reflexivity].
      rewrite Hu in Hp. discriminate.
    + unfold GetParse, Get, Generic.Get, Generic.NewRequest. rewrite Hu.
      cbn. by rewrite app_nil_r.
  - destruct (ClientFacts.generic_Get_calls RoundTrip url_Parse key uri n u Hu)
      as (k & Hk & Hcalls).
    exists k. split.
    + split; [cbn; lia|]. split; cbn [fst snd]; intros ? Hp; [lia|].
      rewrite Hu in Hp. discriminate.
    + unfold GetParse, Get.
      destruct (Generic.Get RoundTrip url_Parse key uri n) as [[resp err] n'].
      cbn [snd] in Hcalls.
      destruct err; [exact Hcalls|].
      destruct resp as [r|]; [|exact Hcalls].
      destruct (Body r); exact Hcalls.
Qed.

Lemma Fetched_init : Fetched [] (init n0).
Proof.
  constructor; cbn.
  - by rewrite app_nil_r.
  - constructor.
  - intros _ u. unfold Lookups.pending, count. cbn. lia.
  - intros u. unfold count. cbn. lia.
  - reflexivity.
Qed.

Lemma Fetched_step (g : goroutine) (s s' : State) (ks : list (string * nat)) :
  Fetched ks s -> step_on g s = Some s' -> exists ks', Fetched ks' s'.
Proof.
  intros [Hcalls Hatt Hall Hsome Hfeed] H. unfold Batch.step_on in H.
  destruct (crashed s) eqn:Hc; [discriminate|]. specialize (Hall eq_refl).
  assert (forall i w w' u, workers s !! i = Some w ->
            sum_list_with (fun w => count (held w) u) (<[i := w']> (workers s))
            + count (held w) u
            = sum_list_with (fun w => count (held w) u) (workers s) + count (held w') u)
    as Hins
    by (intros j x y u Hj;
        exact (BatchFacts.sum_list_with_insert (fun w0 => count (held w0) u)
                 (workers s) j x y Hj)).
  destruct g as [| |i|].
  - unfold step_main in H. case_step H; exists ks; constructor; cbn;
      try assumption; try discriminate;
      try (intros _ u; specialize (Hall u);
           unfold Lookups.pending in *; cbn;
           rewrite ?sum_list_with_app; cbn;
           try rewrite (Hfeed eq_refl) in Hall; cbn in Hall; count_simpl).
    all: intros Hm; congruence.
  - unfold step_feeder in H. case_step H; exists ks; constructor; cbn;
      try assumption; try discriminate;
      try (intros _ u; specialize (Hall u);
           unfold Lookups.pending in *; cbn;
           repeat match goal with
           | E : feeder s = _ |- _ => rewrite E in Hall
           end; cbn in Hall; count_simpl).
    all: intros Hm; specialize (Hfeed Hm); congruence.
  - unfold step_worker in H.
    destruct (workers s !! i) as [w|] eqn:Hl; [|discriminate].
    assert (forall u, count (held w) u =
                      match wpc w with
                      | WGetParse uri => count [uri] u
                      | _ => 0
                      end) as Hheld_w
      by (intros u; unfold held; destruct (wpc w); reflexivity).
    destruct (wpc w) as [|uri|outVal| |] eqn:Hpc.
    + destruct (inChan s) as [|uri rest] eqn:Hin.
      * destruct (inChan_closed s); [|discriminate]. injection H as <-.
        exists ks. constructor; cbn; try assumption. intros _ u.
        specialize (Hall u). unfold Lookups.pending in *. cbn.
        specialize (Hins i w {| wpc := WDone; signals := signals w |} u Hl).
        rewrite (Hheld_w u) in Hins.
        change (count (held {| wpc := WDone; signals := signals w |}) u)
          with 0 in Hins.
        rewrite Hin in *. count_simpl.
      * injection H as <-.
        exists ks. constructor; cbn; try assumption. intros _ u.
        specialize (Hall u). unfold Lookups.pending in *. cbn.
        specialize (Hins i w {| wpc := WGetParse uri; signals := signals w |} u Hl).
        rewrite (Hheld_w u) in Hins.
        change (held {| wpc := WGetParse uri; signals := signals w |})
          with [uri] in Hins.
        rewrite Hin in Hall. count_simpl.
    + destruct (GetParse_requests uri (net s)) as (k & Hk & Hreq).
      assert (forall u, count (map fst (ks ++ [(uri, k)])) u
                        = count (map fst ks) u + count [uri] u) as Hmap.
      { intros u. by rewrite map_app, count_app. }
      assert (forall u, count [uri] u <= pending u s) as Hheld.
      { intros u. unfold Lookups.pending.
        pose proof (BatchFacts.sum_list_with_lookup (fun w => count (held w) u)
                      (workers s) i w Hl) as Hle.
        cbv beta in Hle. rewrite (Hheld_w u) in Hle. lia. }
      assert (Generic.calls (snd (GetParse RoundTrip url_Parse json_Decode key uri (net s)))
              = Generic.calls n0 ++ requests key (ks ++ [(uri, k)])) as Hcalls'.
      { rewrite Hreq, Hcalls. unfold requests. rewrite flat_map_app. cbn.
        by rewrite app_nil_r, <- app_assoc. }
      assert (Forall (attempts_ok url_Parse) (ks ++ [(uri, k)])) as Hatt'
        by (apply Forall_app; split; [exact Hatt|by constructor]).
      destruct (GetParse RoundTrip url_Parse json_Decode key uri (net s))
        as [[[outVal err]|] n'] eqn:Hg; injection H as <-;
        exists (ks ++ [(uri, k)]); constructor; cbn; try assumption;
        try discriminate.
      * intros _ u. specialize (Hall u). rewrite Hmap.
        unfold Lookups.pending in *. cbn.
        specialize (Hins i w
                      {| wpc := match err with Some _ => WSend outVal | None => WRange end;
                         signals := signals w |} u Hl).
        rewrite (Hheld_w u) in Hins.
        assert (count (held {| wpc := match err with
                                      | Some _ => WSend outVal
                                      | None => WRange
                                      end;
                               signals := signals w |}) u = 0) as Hz
          by (destruct err; reflexivity).
        rewrite Hz in Hins. clear Hz Hmap Hheld Hheld_w. count_simpl.
      * intros u. rewrite Hmap. specialize (Hall u). specialize (Hheld u).
        clear Hmap Hheld_w. count_simpl.
      * intros u. rewrite Hmap. specialize (Hall u). specialize (Hheld u).
        clear Hmap Hheld_w. count_simpl.
    + destruct (outChan_closed s).
      { injection H as <-. exists ks. constructor; cbn; try assumption. discriminate. }
      destruct (length (outChan s) <? length subUris)%nat; [|discriminate].
      injection H as <-.
      exists ks. constructor; cbn; try assumption. intros _ u.
      specialize (Hall u). unfold Lookups.pending in *. cbn.
      specialize (Hins i w {| wpc := WRange; signals := signals w |} u Hl).
      rewrite (Hheld_w u) in Hins.
      change (count (held {| wpc := WRange; signals := signals w |}) u)
        with 0 in Hins.
      count_simpl.
    + destruct (done s <? maxGoroutines)%nat; [|discriminate].
      injection H as <-.
      exists ks. constructor; cbn; try assumption. intros _ u.
      specialize (Hall u). unfold Lookups.pending in *. cbn.
      specialize (Hins i w {| wpc := WExit; signals := S (signals w) |} u Hl).
      rewrite (Hheld_w u) in Hins.
      change (count (held {| wpc := WExit; signals := S (signals w) |}) u)
        with 0 in Hins.
      count_simpl.
    + discriminate.
  - unfold step_supervisor in H. case_step H; exists ks; constructor; cbn;
      try assumption; try discriminate;
      try (intros _ u; specialize (Hall u);
           unfold Lookups.pending in *; cbn; count_simpl).
Qed.

Lemma Fetched_steps (k : nat) (s : State) :
  steps k (init n0) s -> exists ks, Fetched ks s.
Proof.
  remember (init n0) as s0 eqn:Hs0. intros Hs.
  induction Hs as [s|k s s' s'' Hs IH [g Hg]]; subst.
  - exists []. apply Fetched_init.
  - destruct (IH eq_refl) as [ks Hks]. by eapply Fetched_step.
Qed.

Lemma waiting_finished (s : @State TS) :
  finished s -> inChan s = [] -> Lookups.waiting subUris s = [].
Proof.
  intros (_ & Hf & _ & Hw) Hin. unfold Lookups.waiting. rewrite Hf, Hin. cbn.
  induction Hw as [|w ws Hw _ IH]; [reflexivity|].
  cbn. unfold held at 1. by rewrite Hw.
Qed.

Lemma count_waiting (s : @State TS) (u : string) :
  count (Lookups.waiting subUris s) u = pending u s.
Proof.
  unfold Lookups.waiting, Lookups.pending.
  rewrite !count_app, count_flat_map_held. lia.
Qed.

End Engine.

(** X18: in every state a run of [pGetParse] reaches, under any
    interleaving, the requests the transport has seen are those of a series
    of lookups, each for one URI of the batch: its GET request with the
    bearer token, five times at most, once at least when the URL is
    accepted and never when it is refused.  No URI is looked up more often
    than it stands in the batch, so the batch costs at most five requests
    for each URI.  As long as nothing has panicked, the URIs looked up and
    those still waiting (not yet fed, in [inChan], or held by a worker) make
    up the batch; and when all goroutines have returned, for a transport
    whose responses carry a body and at least one worker, every URI has been
    looked up exactly as often as it stands in the batch. *)
Theorem pGetParse_looks_up_each_uri_once {TS : Type}
    (RoundTrip : TS -> Request -> DoResult * TS)
    (url_Parse : string -> error + URL)
    (json_Decode : Reader -> Reader * (option gomap * option error))
    (key : string) (subUris : list string) (maxGoroutines : nat)
    (n : @Generic.Net TS) (k : nat) (s : @State TS) :
  Batch.steps RoundTrip url_Parse json_Decode key subUris maxGoroutines k (init n) s ->
  exists ks : list (string * nat),
    Generic.calls (net s) ≡ₚ Generic.calls n ++ requests key ks /\
    Forall (attempts_ok url_Parse) ks /\
    map fst ks ⊆+ subUris /\
    length (requests key ks) <= 5 * length subUris /\
    (crashed s = false -> map fst ks ++ Lookups.waiting subUris s ≡ₚ subUris) /\
    (bodies_present RoundTrip -> 1 <= maxGoroutines -> finished s ->
     map fst ks ≡ₚ subUris).
Proof.
  intros Hs.
  destruct (Fetched_steps RoundTrip url_Parse json_Decode key subUris maxGoroutines
              n k s Hs) as [ks [Hcalls Hatt Hall Hsome _]].
  assert (map fst ks ⊆+ subUris) as Hsub by (by apply count_submseteq).
  assert (crashed s = false -> map fst ks ++ Lookups.waiting subUris s ≡ₚ subUris)
    as Hwait.
  { intros Hc. apply count_Permutation. intros u.
    rewrite count_app, count_waiting. by apply Hall. }
  exists ks. split; [by rewrite Hcalls|]. split; [exact Hatt|].
  split; [exact Hsub|]. split; [|split; [exact Hwait|]].
  - etransitivity.
    + apply length_requests. eapply Forall_impl; [exact Hatt|]. by intros p [? _].
    + apply submseteq_length in Hsub. rewrite length_map in Hsub. lia.
  - intros Hb HP Hfin.
    pose proof (BatchFacts.GetParse_no_panic RoundTrip url_Parse json_Decode key Hb)
      as Hnp.
    pose proof (BatchFacts.Inv_steps RoundTrip url_Parse json_Decode key subUris
                  maxGoroutines k n s Hnp Hs) as Hinv.
    pose proof (BatchInv.inv_crashed _ _ _ Hinv) as Hc.
    destruct (BatchFacts.Inv_finished subUris maxGoroutines s Hinv HP Hfin)
      as (_ & _ & _ & _ & Hin).
    specialize (Hwait Hc).
    rewrite (waiting_finished subUris s Hfin Hin), app_nil_r in Hwait.
    exact Hwait.
Qed.

(** X18 on the example batch: when the run has come to its end, the one URI
    of the batch has been looked up once. *)
Lemma pGetParse_looks_up_each_uri_once_witness :
  exists ks : list (string * nat),
    map fst ks ≡ₚ Examples.batch_uris /\
    Generic.calls (net (Examples.batch_run Examples.always_succeeds)) ≡ₚ
      [] ++ requests "k" ks.
Proof.
  destruct (BatchFacts.run_steps (scripted Examples.always_succeeds) Examples.plain_Parse
              Examples.example_Decode_map "k" Examples.batch_uris 2
              Examples.schedule (init Examples.net0)) as [k Hk].
  destruct (pGetParse_looks_up_each_uri_once
              (scripted Examples.always_succeeds) Examples.plain_Parse
              Examples.example_Decode_map "k" Examples.batch_uris 2
              Examples.net0 k _ Hk)
    as (ks & Hcalls & _ & _ & _ & _ & Hfin).
  exists ks. split; [|exact Hcalls].
  apply Hfin.
  - apply BatchFacts.bodies_present_always_succeeds.
  - exact (le_S 1 1 (le_n 1)).
  - unfold finished. vm_compute. repeat constructor.
Defined.


End FetchFacts.

(** * A batch without workers *)

Module IdleFacts.
Import Go Http Transport Batch BatchInv.

Section Engine.

Context {TS : Type}.
Variable RoundTrip : TS -> Request -> DoResult * TS.
Variable url_Parse : string -> error + URL.
Variable json_Decode : Reader -> Reader * (option gomap * option error).
Variable key : string.
Variable subUris : list string.
Variable maxGoroutines : nat.
Variable n0 : @Generic.Net TS.

Abbreviation step_on :=
  (Batch.step_on RoundTrip url_Parse json_Decode key subUris maxGoroutines).
Abbreviation steps :=
  (Batch.steps RoundTrip url_Parse json_Decode key subUris maxGoroutines).

Ltac case_step H :=
  repeat match type of H with
  | (if ?c then _ else _) = Some _ => destruct c eqn:?
  | match ?x with _ => _ end = Some _ => destruct x eqn:?
  | None = Some _ => discriminate H
  | Some _ = Some _ => injection H as <-
  end.

(** With no worker the engine asks nothing of the network and hands its
    caller nothing. *)
Lemma no_workers_steps (k : nat) (s : State) :
  maxGoroutines = 0 ->
  steps k (init n0) s ->
  workers s = [] /\ net s = n0 /\ sent s = [] /\ received s = [] /\
  outChan s = [] /\ crashed s = false /\
  (inChan_closed s = true -> feeder s = FExit) /\
  (outChan_closed s = true -> supervisor s = SExit) /\
  (main s = MSpawnFeeder -> feeder s = FNotStarted) /\
  (spawning (main s) = true -> supervisor s = SNotStarted).
Proof.
  intros HP. remember (init n0) as s0 eqn:Hs0. intros Hs.
  induction Hs as [s|k s s' s'' Hs IH [g Hg]]; subst.
  - cbn. repeat split; try reflexivity; discriminate.
  - destruct (IH eq_refl)
      as (Hw & Hn & Hsent & Hrec & Hout & Hc & Hin & Hoc & Hfeed & Hsup).
    clear IH Hs. unfold Batch.step_on in Hg. rewrite Hc in Hg.
    destruct g as [| |i|].
    + unfold step_main in Hg. rewrite Hout in Hg. cbn [Nat.ltb Nat.leb] in Hg.
      case_step Hg; cbn in *; repeat split; try assumption; try discriminate;
        intuition congruence.
    + unfold step_feeder in Hg.
      case_step Hg; cbn in *; repeat split; try assumption; try discriminate;
        intuition congruence.
    + unfold step_worker in Hg. rewrite Hw in Hg. discriminate.
    + unfold step_supervisor in Hg. cbn [Nat.ltb Nat.leb] in Hg.
      case_step Hg; cbn in *; repeat split; try assumption; try discriminate;
        intuition congruence.
Qed.

Lemma run_app (l l' : list goroutine) (s : State) :
  run RoundTrip url_Parse json_Decode key subUris maxGoroutines (l ++ l') s =
  run RoundTrip url_Parse json_Decode key subUris maxGoroutines l'
    (run RoundTrip url_Parse json_Decode key subUris maxGoroutines l s).
Proof.
  revert s. induction l as [|g l IH]; intros s; [reflexivity|].
  cbn [app run]. destruct (step_on g s); apply IH.
Qed.

(** Left to itself the feeder sends what it has to send, closes [inChan]
    and returns. *)
Lemma feeder_runs (rest : list string) (s : State) :
  feeder s = FFeed rest -> crashed s = false -> inChan_closed s = false ->
  length (inChan s) + length rest <= length subUris ->
  let s' := run RoundTrip url_Parse json_Decode key subUris maxGoroutines
              (repeat GFeeder (S (length rest))) s in
  feeder s' = FExit /\ main s' = main s /\ supervisor s' = supervisor s /\
  workers s' = workers s.
Proof.
  revert s. induction rest as [|uri rest IH]; intros s Hf Hc Hcl Hlen.
  - cbn. unfold Batch.step_on, step_feeder. rewrite Hc, Hf, Hcl. cbn. auto.
  - set (s1 := set_feeder (set_inChan s (inChan s ++ [uri]) (inChan_closed s))
                 (FFeed rest)).
    assert (step_on GFeeder s = Some s1) as Hstep.
    { unfold Batch.step_on, step_feeder. rewrite Hc, Hf.
      assert ((length (inChan s) <? length subUris)%nat = true) as ->
        by (apply Nat.ltb_lt; cbn in Hlen; lia).
      reflexivity. }
    change (repeat GFeeder (S (length (uri :: rest))))
      with (GFeeder :: repeat GFeeder (S (length rest))).
    cbv zeta. cbn [run]. rewrite Hstep.
    destruct (IH s1) as (H1 & H2 & H3 & H4).
    { reflexivity. }
    { exact Hc. }
    { exact Hcl. }
    { unfold s1. cbn. rewrite length_app. cbn in *. lia. }
    split; [exact H1|]. split; [exact H2|]. split; [exact H3|exact H4].
Qed.

End Engine.

(** X19: with a pool of no workers ([SetMaxGoroutines(0)]) the batch is
    not looked up at all.  In every state a run reaches no worker exists,
    the network is as it was, nothing has been sent on [outChan] or received
    from it and nothing has panicked; and the run can come to its end: the
    supervisor closes [outChan] at once, the caller leaves its loop with no
    result, and the feeder fills [inChan], closes it and returns. *)
Theorem pGetParse_with_no_workers {TS : Type}
    (RoundTrip : TS -> Request -> DoResult * TS)
    (url_Parse : string -> error + URL)
    (json_Decode : Reader -> Reader * (option gomap * option error))
    (key : string) (subUris : list string) (n : @Generic.Net TS) :
  (forall k s,
     Batch.steps RoundTrip url_Parse json_Decode key subUris 0 k (init n) s ->
     workers s = [] /\ net s = n /\ sent s = [] /\ received s = [] /\
     crashed s = false) /\
  finished
    (run RoundTrip url_Parse json_Decode key subUris 0
       ([GMain; GMain; GMain; GSupervisor; GMain]
        ++ repeat GFeeder (S (length subUris)))
       (init n)).
Proof.
  split.
  - intros k s Hs.
    destruct (no_workers_steps RoundTrip url_Parse json_Decode key subUris 0 n k s
                eq_refl Hs) as (? & ? & ? & ? & _ & ? & _).
    auto.
  - rewrite (run_app RoundTrip url_Parse json_Decode key subUris 0).
    set (s5 := run RoundTrip url_Parse json_Decode key subUris 0
                 [GMain; GMain; GMain; GSupervisor; GMain] (init n)).
    destruct (feeder_runs RoundTrip url_Parse json_Decode key subUris 0 subUris s5)
      as (Hf & Hm & Hs & Hw); [reflexivity|reflexivity|reflexivity|cbn; lia|].
    unfold finished. rewrite Hf, Hm, Hs, Hw. repeat split. constructor.
Qed.

(** X19 on the example batch, run without workers. *)
Lemma pGetParse_with_no_workers_witness :
  let s := run (scripted Examples.always_succeeds) Examples.plain_Parse
             Examples.example_Decode_map "k" Examples.batch_uris 0
             Examples.schedule (init Examples.net0) in
  net s = Examples.net0 /\ received s = [].
Proof.
  destruct (BatchFacts.run_steps (scripted Examples.always_succeeds) Examples.plain_Parse
              Examples.example_Decode_map "k" Examples.batch_uris 0
              Examples.schedule (init Examples.net0)) as [k Hk].
  destruct (proj1 (pGetParse_with_no_workers
                     (scripted Examples.always_succeeds) Examples.plain_Parse
                     Examples.example_Decode_map "k" Examples.batch_uris
                     Examples.net0) k _ Hk)
    as (_ & Hnet & _ & Hrec & _).
  split; [exact Hnet|exact Hrec].
Defined.


End IdleFacts.

(** * No lookup dereferences a nil response *)

Module NilFacts.
Import Go Http Transport.

Lemma typed_Request_loop_body {TS : Type}
    (RoundTrip : TS -> Request -> DoResult * TS)
    (fuel : nat) (req : Request) (tries : nat)
    (resp : Response) (err : option error) (n : Investigate.Net) :
  bodies_present RoundTrip ->
  Investigate.maxTries <= fuel + tries ->
  (Body resp = None -> err = None -> tries < Investigate.maxTries) ->
  snd (fst (Investigate.Request_loop RoundTrip fuel req tries resp err n)) = None ->
  exists r,
    fst (fst (Investigate.Request_loop RoundTrip fuel req tries resp err n)) = Some r
    /\ Body r <> None.
Proof.
  intros Hb. revert tries resp err n.
  induction fuel as [|fuel IH]; intros tries resp err n Hle Hpre.
  - cbn. intros ->. exists resp. split; [reflexivity|].
    intros Hnil. specialize (Hpre Hnil eq_refl). lia.
  - cbn [Investigate.Request_loop].
    destruct (Investigate.is_nil (Body resp) && (tries <? Investigate.maxTries)%nat)
      eqn:Hg.
    + apply andb_prop in Hg as [_ Hlt]. apply Nat.ltb_lt in Hlt.
      unfold Investigate.client_Do.
      destruct (RoundTrip (Investigate.transport n) req) as [[r|e] t1] eqn:Hrt.
      * destruct (300 <=? StatusCode r)%Z.
        -- destruct (tries =? Investigate.maxTries - 1)%nat eqn:E; [discriminate|].
           apply Nat.eqb_neq in E.
           apply IH; [lia|]. intros _ _. unfold Investigate.maxTries in *. lia.
        -- apply IH; [lia|]. intros Hnil. apply Hb in Hrt. contradiction.
      * destruct (tries =? Investigate.maxTries - 1)%nat; [discriminate|].
        apply IH; [lia|]. discriminate.
    + cbn. intros ->. exists resp. split; [reflexivity|].
      intros Hnil. rewrite Hnil in Hg. cbn [Investigate.is_nil andb] in Hg.
      apply Nat.ltb_ge in Hg. specialize (Hpre Hnil eq_refl). lia.
Qed.

(** X20: for a transport whose responses carry a body, as [http.Client.Do]
    promises, no [GetParse] dereferences a nil response or a nil body.  The
    typed [GetParse] panics or ends the process only when the decoder does,
    on a value of a supported type; the [GetParse] of the generic and of the
    batch client always returns. *)
Theorem GetParse_never_dereferences_nil {TS : Type}
    (RoundTrip : TS -> Request -> DoResult * TS)
    (url_Parse : string -> error + URL)
    (typed_Decode : forall k : Investigate.kind, Reader ->
       Investigate.pointee k -> Reader * Investigate.pointee k * outcome unit)
    (generic_Decode : Reader -> Reader * (value * option error))
    (batch_Decode : Reader -> Reader * (option gomap * option error)) :
  bodies_present RoundTrip ->
  (forall (k : Investigate.kind) inv subUri (v : Investigate.pointee k) n,
     match snd (fst (Investigate.GetParse RoundTrip url_Parse typed_Decode
                       inv subUri v n)) with
     | Ok _ | Err _ => True
     | o => Investigate.supported_kind k = true /\
            exists rd rd' v', typed_Decode k rd v = (rd', v', o)
     end) /\
  (forall key subUri n,
     exists r, fst (Generic.GetParse RoundTrip url_Parse generic_Decode
                      key subUri n) = Ok r) /\
  (forall key subUri n,
     fst (Batch.GetParse RoundTrip url_Parse batch_Decode key subUri n) <> None).
Proof.
  intros Hb. split; [|split].
  - intros k inv subUri v n.
    unfold Investigate.GetParse, Investigate.Get.
    destruct (Investigate.NewRequest url_Parse "GET" _ None) as [e|req]; [exact I|].
    unfold Investigate.Request.
    pose proof (typed_Request_loop_body RoundTrip Investigate.maxTries
                  (Investigate.set_Authorization req
                     (Sprintf "Bearer %s" [Investigate.key inv]))
                  0 new_Response None n Hb) as Hloop.
    destruct (Investigate.Request_loop _ _ _ _ _ _ _) as [[resp err] n'].
    destruct err; [exact I|]. cbn [fst snd] in Hloop.
    destruct Hloop as (r & Heq & Hr);
      [lia|unfold Investigate.maxTries; lia|reflexivity|].
    subst resp. destruct (Body r) as [rc|]; [|contradiction].
    unfold Investigate.parseBody.
    destruct (Investigate.supported_kind k) eqn:Hk.
    + destruct (typed_Decode k (reader rc) v) as [[rd v'] res] eqn:Hd.
      destruct res as [[]|err|p|e]; cbn [snd fst]; try exact I.
      * cbn [ReadAll]. destruct (read_err rd); exact I.
      * split; [reflexivity|]. by exists (reader rc), rd, v'.
      * split; [reflexivity|]. by exists (reader rc), rd, v'.
    + cbn [ReadAll]. destruct (read_err (reader rc)); exact I.
  - intros key subUri n. unfold Generic.GetParse, Generic.Get.
    destruct (Generic.NewRequest url_Parse "GET" _ None) as [e|req]; [by eexists|].
    unfold Generic.Request.
    pose proof (BatchFacts.Request_loop_body RoundTrip Generic.maxTries
                  (Generic.set_Authorization req (Sprintf "Bearer %s" [key]))
                  0 new_Response None n Hb) as Hloop.
    destruct (Generic.Request_loop _ _ _ _ _ _ _) as [[resp err] n'].
    destruct err; [by eexists|]. cbn [fst snd] in Hloop.
    destruct Hloop as (r & Heq & Hr);
      [lia|unfold Generic.maxTries; lia|reflexivity|].
    subst resp. destruct (Body r) as [rc|]; [by eexists|contradiction].
  - intros key subUri n.
    apply (BatchFacts.GetParse_no_panic RoundTrip url_Parse batch_Decode key Hb).
Qed.

(** X20 on the example service. *)
Lemma GetParse_never_dereferences_nil_witness :
  fst (Batch.GetParse (scripted Examples.always_succeeds) Examples.plain_Parse
         Examples.example_Decode_map "k" "/links/name/www.test.com.json"
         Examples.net0) <> None.
Proof.
  exact (proj2 (proj2 (GetParse_never_dereferences_nil
                         (scripted Examples.always_succeeds) Examples.plain_Parse
                         Examples.example_Decode Examples.example_Decode_any
                         Examples.example_Decode_map
                         BatchFacts.bodies_present_always_succeeds))
           "k" "/links/name/www.test.com.json" Examples.net0).
Defined.

End NilFacts.
